(** * book-table-data: the rating scraper [script/scrape.py]

    A shallow embedding of the extraction-and-reconciliation pipeline of
    [script/scrape.py], and the properties its specification states about it.

    Conventions of the embedding.
    - A Python [str] is a [string]; each [ascii] is the code point of one
      character, so the texts covered are those over U+0000..U+00FF.  On
      that range the decimal digits ([\d], [int], [float]) are [0]..[9] and
      the white space of [str.strip] and [\s] is the set [is_space] below.
    - A Python [int] is a [Z]; a Python [float] is a [spec_float] (IEEE
      binary64, see [is_float]).  [int] of a text raises beyond the 4300
      digits that the interpreter converts unless it is configured
      otherwise ([max_str_digits]); [str] of an [int] is given where it
      returns, for an [int] of at most as many digits, and no count that
      [_clean_int] returns has more.  [float] has no such limit.
    - What [json.load] returns is a [json]; a JSON object is an insertion
      ordered [dict] with string keys, written as an association list.
    - Code that can raise returns a [result]; code that mutates its argument
      returns the argument's final state next to its outcome. *)

From Stdlib Require Import ZArith List String Ascii Bool Lia.
From Stdlib Require Import QArith SpecFloat.
Import ListNotations.

Local Open Scope string_scope.
Local Open Scope Z_scope.

Set Implicit Arguments.
Set Warnings "-register-all".

(** ** Outcomes: a value, or a raised exception *)

(** The f-string templates of the [ValueError]s the script raises, with the
    values they interpolate; and the [ValueError] of [int] for a text of
    more digits than it converts. *)
Inductive message : Type :=
| CouldNotParseInt (text : string)
| CouldNotConvertToFloat (text : string)
| RatingElementNotFound
| RatingsCountElementNotFound
| ScoreSpanNotFound
| CouldNotParseScore (aria data_content : string)
| CouldNotLocateRatingsCount
| ExceedsDigitLimit (digits : nat).

Inductive exn : Type :=
| ValueError (m : message)
| AttributeError (attr : string)
| TypeError_unhashable
| RequestException (detail : string).

Inductive result (A : Type) : Type :=
| Ok (a : A)
| Raise (e : exn).

Arguments Ok {A} a.
Arguments Raise {A} e.

Definition bind {A B : Type} (r : result A) (k : A -> result B) : result B :=
  match r with
  | Ok a => k a
  | Raise e => Raise e
  end.

Notation "x <- r ;; k" := (bind r (fun x => k))
  (at level 61, r at next level, right associativity).
Notation "' p <- r ;; k" := (bind r (fun x => let p := x in k))
  (at level 61, p pattern, r at next level, right associativity).

(** [try: body except Exception: handler]. *)
Definition try_except {A : Type} (body : result A) (handler : exn -> A) : A :=
  match body with
  | Ok a => a
  | Raise e => handler e
  end.

Definition is_ok {A : Type} (r : result A) : bool :=
  match r with Ok _ => true | Raise _ => false end.

(** ** JSON values and Python dictionaries *)

Inductive json : Type :=
| JNull
| JBool (b : bool)
| JInt (z : Z)
| JFloat (f : spec_float)
| JStr (s : string)
| JArr (l : list json)
| JObj (o : list (string * json)).

(** A dictionary with string keys, in insertion order. *)
Definition dict : Type := list (string * json).

Fixpoint dict_get (d : dict) (k : string) : option json :=
  match d with
  | [] => None
  | (k', v) :: d' => if String.eqb k' k then Some v else dict_get d' k
  end.

(** [d[k] = v]: the value of an existing key is replaced where it stands, a
    new key goes to the end. *)
Fixpoint dict_set (d : dict) (k : string) (v : json) : dict :=
  match d with
  | [] => [(k, v)]
  | (k', v') :: d' =>
      if String.eqb k' k then (k', v) :: d' else (k', v') :: dict_set d' k v
  end.

(** [d.get(k)] and [d.get(k, default)]; Python's [None] is [JNull]. *)
Definition get_default (d : dict) (k : string) (default : json) : json :=
  match dict_get d k with
  | Some v => v
  | None => default
  end.

Definition get (d : dict) (k : string) : json := get_default d k JNull.

(** [v.get(k)] on an arbitrary value: only a dictionary has the method. *)
Definition method_get (v : json) (k : string) : result json :=
  match v with
  | JObj o => Ok (get o k)
  | _ => Raise (AttributeError "get")
  end.

(** Truth value of a Python object. *)
Definition truthy (v : json) : bool :=
  match v with
  | JNull => false
  | JBool b => b
  | JInt z => negb (z =? 0)
  | JFloat (S754_zero _) => false
  | JFloat _ => true
  | JStr s => negb (String.eqb s "")
  | JArr l => match l with [] => false | _ => true end
  | JObj o => match o with [] => false | _ => true end
  end.

(** [a or b]. *)
Definition py_or (a b : json) : json := if truthy a then a else b.

(** ** Source Resolver *)

Definition book : Type := dict.

(** [pick_source_url]: the pair [(source, url)]; [None] as a source is
    [None], [None] as a url is [JNull]. *)
Definition pick_source_url (b : book) : result (option string * json) :=
  let primary := get b "url" in
  if truthy primary then Ok (Some "goodreads", primary)
  else
    let vendors := py_or (get b "vendors") (JObj []) in
    rr0 <- method_get vendors "rr" ;;
    let rr := py_or rr0 (JObj []) in
    rr_url <- method_get rr "url" ;;
    if truthy rr_url then Ok (Some "royalroad", rr_url)
    else Ok (None, JNull).

(** ** Text *)

Definition code (c : ascii) : Z := Z.of_N (N_of_ascii c).

(** A decimal digit: what [\d] matches and what [int] and [float] read. *)
Definition is_digit (c : ascii) : bool := (48 <=? code c) && (code c <=? 57).

Definition digit_val (c : ascii) : Z := code c - 48.

(** White space of [str.strip] and of [\s]. *)
Definition is_space (c : ascii) : bool :=
  let n := code c in
  ((9 <=? n) && (n <=? 13)) || ((28 <=? n) && (n <=? 32))
  || (n =? 133) || (n =? 160).

Fixpoint lstrip (p : ascii -> bool) (s : string) : string :=
  match s with
  | EmptyString => EmptyString
  | String c s' => if p c then lstrip p s' else s
  end.

Fixpoint rstrip (p : ascii -> bool) (s : string) : string :=
  match s with
  | EmptyString => EmptyString
  | String c s' =>
      match rstrip p s' with
      | EmptyString => if p c then EmptyString else String c EmptyString
      | r => String c r
      end
  end.

(** [s.strip()]. *)
Definition strip (s : string) : string := rstrip is_space (lstrip is_space s).

(** [s.rstrip(c)] for a one-character argument. *)
Definition rstrip_char (c : ascii) (s : string) : string :=
  rstrip (Ascii.eqb c) s.

(** [s.replace(a, b)] for one-character [a] and [b]. *)
Fixpoint replace_char (a b : ascii) (s : string) : string :=
  match s with
  | EmptyString => EmptyString
  | String c s' =>
      String (if Ascii.eqb c a then b else c) (replace_char a b s')
  end.

Definition lower_char (c : ascii) : ascii :=
  let n := code c in
  if ((65 <=? n) && (n <=? 90))
     || ((192 <=? n) && (n <=? 222) && negb (n =? 215))
  then ascii_of_N (Z.to_N (n + 32))
  else c.

(** [s.lower()]. *)
Fixpoint lower (s : string) : string :=
  match s with
  | EmptyString => EmptyString
  | String c s' => String (lower_char c) (lower s')
  end.

(** [re.sub(r"[^\d]", "", text)]. *)
Fixpoint sub_non_digits (text : string) : string :=
  match text with
  | EmptyString => EmptyString
  | String c s' =>
      if is_digit c then String c (sub_non_digits s') else sub_non_digits s'
  end.

(** [re.sub(r"\s+", " ", s)]; [in_run] tells that the previous character
    belonged to the run of white space being replaced. *)
Fixpoint sub_space_runs (in_run : bool) (s : string) : string :=
  match s with
  | EmptyString => EmptyString
  | String c s' =>
      if is_space c
      then if in_run then sub_space_runs true s'
           else String " " (sub_space_runs true s')
      else String c (sub_space_runs false s')
  end.

(** ** Normalizers *)

(** The number that decimal digits denote, most significant first. *)
Fixpoint int_digits (acc : Z) (digits : string) : Z :=
  match digits with
  | EmptyString => acc
  | String c s' => int_digits (acc * 10 + digit_val c) s'
  end.

(** The digits that [int] and [str] convert at most:
    [sys.int_info.default_max_str_digits]. *)
Definition max_str_digits : Z := 4300.

(** [int(digits)] on a string of decimal digits. *)
Definition py_int (digits : string) : result Z :=
  if max_str_digits <? Z.of_nat (String.length digits)
  then Raise (ValueError (ExceedsDigitLimit (String.length digits)))
  else Ok (int_digits 0 digits).

Definition _clean_int (text : string) : result Z :=
  let digits := sub_non_digits text in
  if String.eqb digits "" then Raise (ValueError (CouldNotParseInt text))
  else py_int digits.

(** [str(n)] for an [int] of at most [max_str_digits] digits, where [str]
    returns: decimal digits, most significant first. *)
Definition digit_char (d : Z) : ascii := ascii_of_N (Z.to_N (48 + d)).

Fixpoint dec_digits (fuel : nat) (n : Z) (acc : string) : string :=
  match fuel with
  | O => acc
  | S fuel' =>
      let acc' := String (digit_char (n mod 10)) acc in
      if n <? 10 then acc' else dec_digits fuel' (n / 10) acc'
  end.

Definition str_nonneg (n : Z) : string :=
  dec_digits (S (Z.to_nat (Z.log2 n))) n "".

Definition str_int (n : Z) : string :=
  if n <? 0 then "-" ++ str_nonneg (- n) else str_nonneg n.

(** ** Floats *)

(** The quotient [n / d] ([0 < d]) rounded to the nearest integer, a tie
    going to the even one. *)
Definition half_even (n d : Z) : Z :=
  let q := n / d in
  match 2 * (n mod d) ?= d with
  | Lt => q
  | Gt => q + 1
  | Eq => if Z.even q then q else q + 1
  end.

Definition sign_str (s : bool) : string := if s then "-" else "".

(** The hundredths in [m * 2 ^ e], to the nearest, a tie going to the even
    number of them. *)
Definition hundredths (m : positive) (e : Z) : Z :=
  half_even (100 * Zpos m * 2 ^ Z.max e 0) (2 ^ Z.max (- e) 0).

(** [k] hundredths written with two decimal places, after the sign. *)
Definition fixed2 (s : bool) (k : Z) : string :=
  sign_str s ++ str_nonneg (k / 100) ++ "."
    ++ String (digit_char (k / 10 mod 10)) (String (digit_char (k mod 10)) "").

(** [f"{x:.2f}"]: the decimal expansion of [x] correctly rounded to two
    places. *)
Definition format_2f (x : spec_float) : string :=
  match x with
  | S754_nan => "nan"
  | S754_infinity s => sign_str s ++ "inf"
  | S754_zero s => sign_str s ++ "0.00"
  | S754_finite s m e => fixed2 s (hundredths m e)
  end.

Definition _format_rating (rating : spec_float) : string :=
  rstrip_char "." (rstrip_char "0" (format_2f rating)).

(** A float is an IEEE binary64 number: 53 bits of precision, exponents
    below 1024. *)
Definition is_float (x : spec_float) : bool := valid_binary 53 1024 x.

(** The exponent of the leading bit of [n / d] for [0 < n] and [0 < d]:
    the [l] with [2 ^ l <= n / d < 2 ^ (l + 1)]. *)
Definition floor_log2 (n d : Z) : Z :=
  let l := Z.log2 n - Z.log2 d in
  if n * 2 ^ Z.max (- l) 0 <? d * 2 ^ Z.max l 0 then l - 1 else l.

(** The binary64 number nearest to [n / d] for [0 < n] and [0 < d], a tie
    going to the even mantissa: an infinity from the middle between the
    largest float and [2 ^ 1024] on, a zero up to the middle between zero and
    the least float. *)
Definition nearest_float (s : bool) (n d : Z) : spec_float :=
  let e := Z.max (floor_log2 n d - 52) (-1074) in
  let m := half_even (n * 2 ^ Z.max (- e) 0) (d * 2 ^ Z.max e 0) in
  if m =? 0 then S754_zero s
  else
    let '(m', e') := if m =? 2 ^ 53 then (2 ^ 52, e + 1) else (m, e) in
    if 971 <? e' then S754_infinity s else S754_finite s (Z.to_pos m') e'.

(** The value [m * 10 ^ e] of a decimal literal, as a float. *)
Definition float_of_decimal (s : bool) (m e : Z) : spec_float :=
  if m =? 0 then S754_zero s
  else nearest_float s (m * 10 ^ Z.max e 0) (10 ^ Z.max (- e) 0).

Fixpoint span_digits (s : string) : string * string :=
  match s with
  | EmptyString => (EmptyString, EmptyString)
  | String c s' =>
      if is_digit c
      then let '(ds, rest) := span_digits s' in (String c ds, rest)
      else (EmptyString, s)
  end.

Definition parse_sign (s : string) : bool * string :=
  match s with
  | String "-" s' => (true, s')
  | String "+" s' => (false, s')
  | _ => (false, s)
  end.

(** An underscore may stand between two digits and nowhere else; [prev] is
    the character before [s]. *)
Fixpoint drop_underscores (prev : ascii) (s : string) : option string :=
  match s with
  | EmptyString => if Ascii.eqb prev "_" then None else Some EmptyString
  | String c s' =>
      if Ascii.eqb c "_"
      then if is_digit prev then drop_underscores c s' else None
      else if Ascii.eqb prev "_" && negb (is_digit c) then None
           else option_map (String c) (drop_underscores c s')
  end.

(** [inf], [infinity] and [nan], in any case, after the sign. *)
Definition parse_inf_nan (neg : bool) (s : string) : option spec_float :=
  let l := lower s in
  if String.eqb l "inf" || String.eqb l "infinity" then Some (S754_infinity neg)
  else if String.eqb l "nan" then Some S754_nan
  else None.

(** Digits with at most one point among them, then an optional exponent. *)
Definition parse_decimal (neg : bool) (s : string) : option spec_float :=
  let '(ip, r1) := span_digits s in
  let '(fp, r2) :=
    match r1 with
    | String "." r => span_digits r
    | _ => (EmptyString, r1)
    end in
  if String.eqb (ip ++ fp) "" then None
  else
    let m := int_digits 0 (ip ++ fp) in
    let scale := - Z.of_nat (String.length fp) in
    match r2 with
    | EmptyString => Some (float_of_decimal neg m scale)
    | String c r3 =>
        if Ascii.eqb c "e" || Ascii.eqb c "E"
        then
          let '(eneg, r4) := parse_sign r3 in
          let '(ed, r5) := span_digits r4 in
          if String.eqb ed "" || negb (String.eqb r5 "") then None
          else
            let x := int_digits 0 ed in
            Some (float_of_decimal neg m ((if eneg then - x else x) + scale))
        else None
    end.

(** White space that [float] drops at both ends of its argument. *)
Definition float_space (c : ascii) : bool :=
  let n := code c in
  ((9 <=? n) && (n <=? 13)) || (n =? 32) || (n =? 133) || (n =? 160).

(** The built-in [float] on a string. *)
Definition py_float (text : string) : result spec_float :=
  let s := rstrip float_space (lstrip float_space text) in
  let parsed :=
    match drop_underscores zero s with
    | None => None
    | Some s' =>
        let '(neg, body) := parse_sign s' in
        match parse_inf_nan neg body with
        | Some x => Some x
        | None => parse_decimal neg body
        end
    end in
  match parsed with
  | Some x => Ok x
  | None => Raise (ValueError (CouldNotConvertToFloat text))
  end.

Definition _clean_float (text : string) : result spec_float :=
  let t := replace_char "," "." (strip text) in
  py_float t.

(** ** Dictionaries keyed by Python objects *)

(** The exact value of a finite float. *)
Definition finite_value (s : bool) (m : positive) (e : Z) : Q :=
  let n := if s then Zneg m else Zpos m in
  match e with
  | Zneg p => Qmake n (2 ^ p)
  | _ => inject_Z (n * 2 ^ e)
  end.

Inductive number : Type :=
| Finite (q : Q)
| Infinite (s : bool)
| NotANumber.

Definition number_of (v : json) : option number :=
  match v with
  | JBool b => Some (Finite (inject_Z (if b then 1 else 0)))
  | JInt z => Some (Finite (inject_Z z))
  | JFloat (S754_zero _) => Some (Finite 0%Q)
  | JFloat (S754_infinity s) => Some (Infinite s)
  | JFloat S754_nan => Some NotANumber
  | JFloat (S754_finite s m e) => Some (Finite (finite_value s m e))
  | _ => None
  end.

(** [a == b] between hashable objects: numbers (among them [True] and
    [False]) by value, strings by content, [None] with itself. *)
Definition key_eq (a b : json) : bool :=
  match a, b with
  | JNull, JNull => true
  | JStr s, JStr t => String.eqb s t
  | _, _ =>
      match number_of a, number_of b with
      | Some (Finite p), Some (Finite q) => Qeq_bool p q
      | Some (Infinite s), Some (Infinite t) => Bool.eqb s t
      | _, _ => false
      end
  end.

(** Lists and dictionaries have no hash. *)
Definition hashable (v : json) : bool :=
  match v with
  | JArr _ | JObj _ => false
  | _ => true
  end.

(** A dictionary in insertion order.  A key is found by [==]; CPython also
    finds a key that is the very object looked up, which differs for the
    float [nan] only. *)
Definition pydict (V : Type) : Type := list (json * V).

Fixpoint find {V : Type} (d : pydict V) (k : json) : option V :=
  match d with
  | [] => None
  | (k', v) :: d' => if key_eq k' k then Some v else find d' k
  end.

(** [d[k]] where present, with the hashing of [k] that comes first. *)
Definition lookup {V : Type} (d : pydict V) (k : json) : result (option V) :=
  if hashable k then Ok (find d k) else Raise TypeError_unhashable.

Fixpoint replace {V : Type} (d : pydict V) (k : json) (v : V) : pydict V :=
  match d with
  | [] => [(k, v)]
  | (k', v') :: d' =>
      if key_eq k' k then (k', v) :: d' else (k', v') :: replace d' k v
  end.

(** [d[k] = v]. *)
Definition setitem {V : Type} (d : pydict V) (k : json) (v : V)
  : result (pydict V) :=
  if hashable k then Ok (replace d k v) else Raise TypeError_unhashable.

(** [d.setdefault(k, v)], for the dictionary it leaves. *)
Definition setdefault {V : Type} (d : pydict V) (k : json) (v : V)
  : result (pydict V) :=
  if hashable k
  then Ok (match find d k with Some _ => d | None => (d ++ [(k, v)])%list end)
  else Raise TypeError_unhashable.

Definition keys {V : Type} (d : pydict V) : list json := map fst d.

(** ** Site extractors: the ratings count of the secondary site *)

(** [key_norm in ("ratings :", "ratings:", "ratings")] for the text [key]
    of a list item. *)
Definition key_norm (key : string) : string :=
  lower (strip (sub_space_runs false key)).

Definition is_ratings_label (key : string) : bool :=
  let k := key_norm key in
  String.eqb k "ratings :" || String.eqb k "ratings:" || String.eqb k "ratings".

(** The loop over [enumerate(lis)], on the texts of the items: [None] when
    it ends without a [break]. *)
Fixpoint find_rating_count (lis : list string) : result (option Z) :=
  match lis with
  | [] => Ok None
  | key :: rest =>
      if is_ratings_label key
      then match rest with
           | val_text :: _ =>
               rating_count <- _clean_int val_text ;; Ok (Some rating_count)
           | [] => find_rating_count rest
           end
      else find_rating_count rest
  end.

(** Lines 106-123 of [scrape_royalroad]: [styled] are the texts of the items
    that [soup.select("ul.list-unstyled li")] returns, [all] those of
    [soup.find_all("li")]. *)
Definition scrape_royalroad_count (styled all : list string) : result Z :=
  let lis := match styled with [] => all | _ => styled end in
  rating_count <- find_rating_count lis ;;
  match rating_count with
  | None => Raise (ValueError CouldNotLocateRatingsCount)
  | Some n => Ok n
  end.

(** ** Target Builder *)

Definition source_truthy (source : option string) : bool :=
  match source with
  | Some s => negb (String.eqb s "")
  | None => false
  end.

Fixpoint build_targets_from (targets : pydict string) (all_books : list book)
  : result (pydict string) :=
  match all_books with
  | [] => Ok targets
  | b :: rest =>
      '(source, url) <- pick_source_url b ;;
      match source with
      | Some src =>
          if negb (source_truthy source) || negb (truthy url)
          then build_targets_from targets rest
          else targets' <- setdefault targets url src ;;
               build_targets_from targets' rest
      | None => build_targets_from targets rest
      end
  end.

Definition build_targets (all_books : list book) : result (pydict string) :=
  build_targets_from [] all_books.

(** ** Scrape Driver *)

Section ScrapeDriver.

(** The two extractors fetch a page over the network: their outcome at a
    URL is given. *)
Variables scrape_goodreads scrape_royalroad : json -> result (spec_float * Z).

(** The body of the [try]. *)
Definition scrape_into (cache : pydict (string * string))
    (url : json) (source : string) : result (pydict (string * string)) :=
  '(rating, count) <-
     (if String.eqb source "goodreads" then scrape_goodreads url
      else scrape_royalroad url) ;;
  setitem cache url (_format_rating rating, str_int count).

(** The loop of [scrape_targets] over [targets.items()], on the pair
    [(cache, failures)]. *)
Fixpoint scrape_loop (items : pydict string)
    (st : pydict (string * string) * Z) : pydict (string * string) * Z :=
  match items with
  | [] => st
  | (url, source) :: rest =>
      let '(cache, failures) := st in
      scrape_loop rest
        (try_except
           (cache' <- scrape_into cache url source ;; Ok (cache', failures))
           (fun _ => (cache, failures + 1)))
  end.

(** [scrape_targets]; the pause after each target and the advisory
    [print] leave the cache as it is. *)
Definition scrape_targets (targets : pydict string)
  : pydict (string * string) :=
  fst (scrape_loop targets ([], 0)).

Definition scrape_failures (targets : pydict string) : Z :=
  snd (scrape_loop targets ([], 0)).

End ScrapeDriver.

(** ** Reconciler *)

(** [v != s] for a string [s]. *)
Definition ne_str (v : json) (s : string) : bool :=
  match v with
  | JStr t => negb (String.eqb t s)
  | _ => true
  end.

(** One turn of the loop of [apply_cache]: the record as the turn leaves it,
    and whether it assigned to it. *)
Definition apply_cache_step (b : book) (cache : pydict (string * string))
  : result (book * bool) :=
  '(source, url) <- pick_source_url b ;;
  if negb (truthy url) then Ok (b, false)
  else
    entry <- lookup cache url ;;
    match entry with
    | None => Ok (b, false)
    | Some (rating_str, count_str) =>
        if ne_str (get_default b "rating" (JStr "")) rating_str
           || ne_str (get_default b "r_count" (JStr "")) count_str
        then Ok (dict_set (dict_set b "rating" (JStr rating_str))
                   "r_count" (JStr count_str), true)
        else Ok (b, false)
    end.

(** [apply_cache] updates the records in place: it gives their final state
    and either the flag it returns or the exception that ended it. *)
Fixpoint apply_cache_from (changed : bool) (books : list book)
    (cache : pydict (string * string)) : list book * result bool :=
  match books with
  | [] => ([], Ok changed)
  | b :: rest =>
      match apply_cache_step b cache with
      | Raise e => (b :: rest, Raise e)
      | Ok (b', assigned) =>
          let '(rest', r) :=
            apply_cache_from (assigned || changed) rest cache in
          (b' :: rest', r)
      end
  end.

Definition apply_cache (books : list book) (cache : pydict (string * string))
  : list book * result bool :=
  apply_cache_from false books cache.

(** ** The catalog record, as the data model reads it *)

(** A field is present and non-empty when it is there and holds a true
    value: neither [null] nor an empty string (nor another empty or zero
    value). *)
Definition present_nonempty (field : option json) : bool :=
  match field with
  | Some v => truthy v
  | None => false
  end.

(** The nested field [vendors.rr.url]. *)
Definition vendors_rr_url (b : book) : option json :=
  match dict_get b "vendors" with
  | Some (JObj vendors) =>
      match dict_get vendors "rr" with
      | Some (JObj rr) => dict_get rr "url"
      | _ => None
      end
  | _ => None
  end.

(** [vendors], where set, is a mapping, and so is its [rr]. *)
Definition vendors_nested (b : book) : bool :=
  match get b "vendors" with
  | JObj vendors =>
      match get vendors "rr" with
      | JObj _ => true
      | rr => negb (truthy rr)
      end
  | vendors => negb (truthy vendors)
  end.

(** Three records: both sources set, the secondary one only, none. *)
Definition book_both : book :=
  [("title", JStr "A"); ("url", JStr "https://g.example/1");
   ("vendors", JObj [("rr", JObj [("url", JStr "https://rr.example/1")])])].

Definition book_secondary : book :=
  [("title", JStr "B"); ("url", JNull);
   ("vendors", JObj [("rr", JObj [("url", JStr "https://rr.example/2")])])].

Definition book_unlisted : book :=
  [("title", JStr "C"); ("url", JStr ""); ("vendors", JObj [("rr", JNull)])].

(** ** Notions of the specification *)

(** The digits of a text, in the order they stand in it. *)
Definition digits_of (text : string) : list ascii :=
  filter is_digit (list_ascii_of_string text).

(** The number that decimal digits denote, most significant first. *)
Fixpoint base10 (ds : list ascii) : Z :=
  match ds with
  | [] => 0
  | d :: ds' => digit_val d * 10 ^ Z.of_nat (List.length ds') + base10 ds'
  end.

(** A text without its last character, where that is a colon. *)
Fixpoint drop_last_colon (s : string) : string :=
  match s with
  | EmptyString => EmptyString
  | String c EmptyString => if Ascii.eqb c ":" then EmptyString else s
  | String c s' => String c (drop_last_colon s')
  end.

(** The normalized text of a label: white space collapsed and trimmed, case
    folded, a trailing colon (and the space before it) stripped. *)
Definition label_norm (key : string) : string :=
  rstrip is_space (drop_last_colon (lower (strip (sub_space_runs false key)))).

Fixpoint all_chars (p : ascii -> bool) (s : string) : bool :=
  match s with
  | EmptyString => true
  | String c s' => p c && all_chars p s'
  end.

(** The first character of a text, if any, satisfies [p]. *)
Definition starts_with (p : ascii -> bool) (s : string) : bool :=
  match s with
  | String c _ => p c
  | EmptyString => false
  end.

(** White space stands alone and is the plain space. *)
Fixpoint tidy (s : string) : bool :=
  match s with
  | EmptyString => true
  | String c s' =>
      (if is_space c
       then Ascii.eqb c " "
            && match s' with
               | String c' _ => negb (is_space c')
               | EmptyString => true
               end
       else true)
      && tidy s'
  end.

(** A URL field holds a string or nothing. *)
Definition url_or_unset (field : option json) : bool :=
  match field with
  | None | Some JNull | Some (JStr _) => true
  | _ => false
  end.

(** A record of the catalog: its two URL fields hold a string or nothing,
    and [vendors] is the nested mapping of the data model. *)
Definition record_ok (b : book) : bool :=
  url_or_unset (dict_get b "url") && vendors_nested b
  && url_or_unset (vendors_rr_url b).

(** Every key is a string. *)
Definition str_keyed {V : Type} (d : pydict V) : Prop :=
  Forall (fun k => exists s, k = JStr s) (keys d).

(** [b] is the first of [books] with a target, and that is [(source, url)]. *)
Definition first_resolving (books : list book) (url : json) (source : string)
  : Prop :=
  exists pre b post,
    books = (pre ++ b :: post)%list
    /\ pick_source_url b = Ok (Some source, url)
    /\ Forall (fun b' => forall s, pick_source_url b' <> Ok (Some s, url)) pre.

(** A record whose secondary URL is the primary URL of [book_both], and a
    sequence of records where the two meet. *)
Definition book_conflict : book :=
  [("title", JStr "D");
   ("vendors", JObj [("rr", JObj [("url", JStr "https://g.example/1")])])].

Definition catalog_books : list book :=
  [book_both; book_unlisted; book_conflict; book_secondary; book_both].

(** What every dictionary satisfies: its keys have a hash, and none equals
    a later one. *)
Fixpoint dict_wf {V : Type} (d : pydict V) : bool :=
  match d with
  | [] => true
  | (k, _) :: d' =>
      hashable k && negb (existsb (key_eq k) (keys d')) && dict_wf d'
  end.

(** The outcome of the extractor that a target is dispatched to, and the
    cache entry that a success is due. *)
Definition outcome_at (scrape_goodreads scrape_royalroad
                         : json -> result (spec_float * Z))
    (target : json * string) : result (spec_float * Z) :=
  if String.eqb (snd target) "goodreads" then scrape_goodreads (fst target)
  else scrape_royalroad (fst target).

Definition succeeded (scrape_goodreads scrape_royalroad
                        : json -> result (spec_float * Z))
    (target : json * string) : bool :=
  is_ok (outcome_at scrape_goodreads scrape_royalroad target).

Definition failed (scrape_goodreads scrape_royalroad
                     : json -> result (spec_float * Z))
    (target : json * string) : bool :=
  negb (succeeded scrape_goodreads scrape_royalroad target).

Definition entry_of (target : json * string)
    (outcome : result (spec_float * Z)) : list (json * (string * string)) :=
  match outcome with
  | Ok (rating, count) =>
      [(fst target, (_format_rating rating, str_int count))]
  | Raise _ => []
  end.

Definition entries (scrape_goodreads scrape_royalroad
                      : json -> result (spec_float * Z))
    (target : json * string) : list (json * (string * string)) :=
  entry_of target (outcome_at scrape_goodreads scrape_royalroad target).

(** Three targets, and extractors of which the second target's fails. *)
Definition three_targets : pydict string :=
  [(JStr "https://g.example/1", "goodreads");
   (JStr "https://rr.example/2", "royalroad");
   (JStr "https://g.example/3", "goodreads")].

Definition goodreads_up (url : json) : result (spec_float * Z) :=
  Ok (S754_finite false 5066549580791808 (-50), 12345).

Definition royalroad_down (url : json) : result (spec_float * Z) :=
  Raise (ValueError ScoreSpanNotFound).

(** What a record stores in a field; an absent field reads as the empty
    string. *)
Definition stored (b : book) (field : string) : json :=
  match dict_get b field with
  | Some v => v
  | None => JStr ""
  end.

(** The cache entry of the URL that a record resolves to, where it resolves
    to a URL and the cache has that key. *)
Definition resolved_entry (cache : pydict (string * string)) (b : book)
  : option (string * string) :=
  match pick_source_url b with
  | Ok (_, url) => if truthy url then find cache url else None
  | Raise _ => None
  end.

(** A record with both of its rating fields overwritten. *)
Definition overwritten (b : book) (entry : string * string) : book :=
  dict_set (dict_set b "rating" (JStr (fst entry)))
    "r_count" (JStr (snd entry)).

(** What the reconciler is to make of a record: [b'] is [b] after it. *)
Definition reconciled (cache : pydict (string * string)) (b b' : book) : Prop :=
  match resolved_entry cache b with
  | None => b' = b
  | Some entry =>
      (stored b "rating" = JStr (fst entry)
       /\ stored b "r_count" = JStr (snd entry) -> b' = b)
      /\ (stored b "rating" <> JStr (fst entry)
          \/ stored b "r_count" <> JStr (snd entry) ->
          b' = overwritten b entry /\ b' <> b)
  end.

(** The fields of a record other than the two rating fields, as they
    stand. *)
Definition other_fields (b : book) : dict :=
  filter (fun kv => negb (String.eqb (fst kv) "rating"
                          || String.eqb (fst kv) "r_count")) b.

(** A record that stores the rating 4.2, one that stores the cached pair
    already, and a cache for both. *)
Definition book_stale : book :=
  [("title", JStr "E"); ("url", JStr "https://g.example/1");
   ("rating", JStr "4.2"); ("pages", JInt 320)].

Definition book_fresh : book :=
  [("url", JStr "https://g.example/3"); ("rating", JStr "3.97");
   ("r_count", JStr "88")].

Definition ratings_cache : pydict (string * string) :=
  [(JStr "https://g.example/1", ("4.5", "12345"));
   (JStr "https://g.example/3", ("3.97", "88"))].

(** [b'] has the fields of [b], but for the two rating fields. *)
Definition same_but_ratings (b b' : book) : Prop :=
  other_fields b' = other_fields b
  /\ forall k, k <> "rating" -> k <> "r_count" -> dict_get b' k = dict_get b k.

(** How many characters of a text satisfy [p]. *)
Fixpoint count_chars (p : ascii -> bool) (s : string) : nat :=
  match s with
  | EmptyString => O
  | String c s' => ((if p c then 1 else 0) + count_chars p s')%nat
  end.

(** A comma or a period. *)
Definition is_separator (c : ascii) : bool :=
  Ascii.eqb c "," || Ascii.eqb c ".".

Definition is_point (c : ascii) : bool := Ascii.eqb c ".".

(** The characters of a number written with digits, a sign and a point. *)
Definition is_numeric (c : ascii) : bool :=
  is_digit c || Ascii.eqb c "-" || Ascii.eqb c ".".

(** The float 4.5. *)
Definition four_and_a_half : spec_float :=
  S754_finite false 5066549580791808 (-50).

(** A record whose [vendors] is a text. *)
Definition book_malformed : book :=
  [("title", JStr "F"); ("vendors", JStr "rr")].

(** A record stores the pair that the cache has for its URL, where the cache
    has one. *)
Definition in_sync (cache : pydict (string * string)) (b : book) : Prop :=
  forall entry,
    resolved_entry cache b = Some entry ->
    stored b "rating" = JStr (fst entry)
    /\ stored b "r_count" = JStr (snd entry).

(** The outcome of a second run after a first run with outcome [r]. *)
Definition settled (r : result bool) : result bool :=
  match r with
  | Ok _ => Ok false
  | Raise e => Raise e
  end.

(** A work list as [build_targets] makes them: a dictionary whose keys are
    non-empty strings and whose values are the two sources. *)
Definition work_list (targets : pydict string) : Prop :=
  dict_wf targets = true
  /\ Forall (fun t => (exists u, fst t = JStr u /\ u <> "")
                      /\ (snd t = "goodreads" \/ snd t = "royalroad"))
       targets.

(** ** Entry point *)

Definition BOOKS_FILES : list string :=
  ["books(full-list).json"; "books(book-club).json"].

(** The catalog files as [load_json] finds them: the array of records that
    [json.load] returns for a path, or [None] where [open] or [json.load]
    raises. *)
Definition files : Type := string -> option (list book).

Definition load_json (fs : files) (path : string) : option (list book) :=
  fs path.

(** [write_json] where it returns: the file holds the data, and what was
    dumped is what [load_json] loads afterwards.  Where [open] or
    [json.dump] raises instead, the file is left as it was, emptied or cut
    short: whether a call raises is given to [main] as [write_raises]. *)
Definition write_json (fs : files) (path : string) (data : list book)
  : files :=
  fun p => if String.eqb p path then Some data else fs p.

(** The files after the calls of [write_json] in [log], first call first,
    where each of them returned. *)
Definition written (fs : files) (log : list (string * list book)) : files :=
  fold_left (fun fs' w => write_json fs' (fst w) (snd w)) log fs.

(** What ends [main] early: [load_json] raised at a path, an exception of
    a callee went through, or [write_json] raised at a path. *)
Inductive main_exn : Type :=
| LoadError (path : string)
| Uncaught (e : exn)
| WriteError (path : string).

(** The last line that [main] prints. *)
Inductive report : Type :=
| NoScrapeableEntries
| UpdatesWritten
| NoUpdatesNeeded.

(** [data_by_file[path] = books]. *)
Fixpoint set_file (data_by_file : list (string * list book))
    (path : string) (books : list book) : list (string * list book) :=
  match data_by_file with
  | [] => [(path, books)]
  | (p, bs) :: rest =>
      if String.eqb p path then (p, books) :: rest
      else (p, bs) :: set_file rest path books
  end.

(** The loop that loads the files. *)
Fixpoint load_files (fs : files) (paths : list string)
    (data_by_file : list (string * list book))
  : main_exn + list (string * list book) :=
  match paths with
  | [] => inr data_by_file
  | path :: rest =>
      match load_json fs path with
      | None => inl (LoadError path)
      | Some books => load_files fs rest (set_file data_by_file path books)
      end
  end.

(** The records of all files, in the order of the files. *)
Definition combined (data_by_file : list (string * list book)) : list book :=
  flat_map snd data_by_file.

(** The loop that applies the cache to each file, on [any_written]; with
    the calls of [write_json] that it makes, first call first: a call that
    raises is the last one. *)
Fixpoint apply_files (write_raises : string -> list book -> bool)
    (cache : pydict (string * string))
    (items : list (string * list book)) (any_written : bool)
  : list (string * list book) * (main_exn + bool) :=
  match items with
  | [] => ([], inr any_written)
  | (path, books) :: rest =>
      match apply_cache books cache with
      | (_, Raise e) => ([], inl (Uncaught e))
      | (books', Ok changed) =>
          if changed
          then if write_raises path books'
               then ([(path, books')], inl (WriteError path))
               else let '(log, r) :=
                      apply_files write_raises cache rest true in
                    ((path, books') :: log, r)
          else apply_files write_raises cache rest any_written
      end
  end.

Section Main.

Variables scrape_goodreads scrape_royalroad : json -> result (spec_float * Z).

(** Whether [write_json] raises when it is called with a path and the
    records to dump there. *)
Variable write_raises : string -> list book -> bool.

(** [main], on the files that it finds: the calls of [write_json] that it
    makes, and how it ends. *)
Definition main (fs : files)
  : list (string * list book) * (main_exn + report) :=
  match load_files fs BOOKS_FILES [] with
  | inl e => ([], inl e)
  | inr data_by_file =>
      match build_targets (combined data_by_file) with
      | Raise e => ([], inl (Uncaught e))
      | Ok targets =>
          match targets with
          | [] => ([], inr NoScrapeableEntries)
          | _ :: _ =>
              let cache :=
                scrape_targets scrape_goodreads scrape_royalroad targets in
              let '(log, r) :=
                apply_files write_raises cache data_by_file false in
              (log,
               match r with
               | inl e => inl e
               | inr any_written =>
                   inr (if any_written then UpdatesWritten
                        else NoUpdatesNeeded)
               end)
          end
      end
  end.

End Main.

(** How a second run ends after a first run that ended with [r]. *)
Definition quiet (r : main_exn + report) : main_exn + report :=
  match r with
  | inr UpdatesWritten => inr NoUpdatesNeeded
  | _ => r
  end.

(** Two catalog files that share a book, and a place without files. *)
Definition two_catalogs : files :=
  fun p =>
    if String.eqb p "books(full-list).json" then Some [book_stale; book_fresh]
    else if String.eqb p "books(book-club).json" then Some [book_stale]
    else None.

Definition no_catalogs : files := fun _ => None.

(** A place where every file can be written, and one where the second
    catalog cannot. *)
Definition writable (path : string) (data : list book) : bool := false.

Definition book_club_locked (path : string) (data : list book) : bool :=
  String.eqb path "books(book-club).json".

(** ** Site extractors: the pages *)

(** The patterns of [scrape_royalroad], as [re] matches them: a pattern is
    tried at a position of the text by going through the ways in which its
    parts can match, a repetition or an optional part taking as much as it
    can first and giving back after. *)
Inductive regex : Type :=
| Eps
| Chr (p : ascii -> bool)
| Many (p : ascii -> bool)
| Cat (a b : regex)
| Opt (a : regex).

(** The ways in which [[p]*] matches at the start of [s], longest first:
    what is matched and what is left. *)
Fixpoint many (p : ascii -> bool) (s : string) : list (string * string) :=
  match s with
  | EmptyString => [(EmptyString, EmptyString)]
  | String c s' =>
      if p c
      then (map (fun mr => (String c (fst mr), snd mr)) (many p s')
            ++ [(EmptyString, s)])%list
      else [(EmptyString, s)]
  end.

(** The ways in which a pattern matches at the start of [s], in the order
    in which they are tried. *)
Fixpoint matches (r : regex) (s : string) : list (string * string) :=
  match r with
  | Eps => [(EmptyString, s)]
  | Chr p =>
      match s with
      | String c s' => if p c then [(String c EmptyString, s')] else []
      | EmptyString => []
      end
  | Many p => many p s
  | Cat a b =>
      flat_map
        (fun mr1 =>
           map (fun mr2 => (fst mr1 ++ fst mr2, snd mr2))
             (matches b (snd mr1)))
        (matches a s)
  | Opt a => (matches a s ++ [(EmptyString, s)])%list
  end.

(** A match of [(group)tail] at the start of [s]: what the group holds. *)
Definition match_group (group tail : regex) (s : string) : option string :=
  option_map fst
    (List.find (fun mr => match matches tail (snd mr) with
                          | [] => false
                          | _ :: _ => true
                          end)
       (matches group s)).

(** [re.search] for [(group)tail]: the match at the first position that
    has one; [m.group(1)] of it. *)
Fixpoint search (group tail : regex) (s : string) : option string :=
  match match_group group tail s with
  | Some g => Some g
  | None =>
      match s with
      | EmptyString => None
      | String _ s' => search group tail s'
      end
  end.

(** A text, one character after the other; with [re.IGNORECASE]. *)
Fixpoint literal (ignore_case : bool) (w : string) : regex :=
  match w with
  | EmptyString => Eps
  | String x w' =>
      Cat (Chr (fun c => if ignore_case
                         then Ascii.eqb (lower_char c) (lower_char x)
                         else Ascii.eqb c x))
        (literal ignore_case w')
  end.

(** [[0-9]+(?:[.,][0-9]+)?] *)
Definition score_number : regex :=
  Cat (Cat (Chr is_digit) (Many is_digit))
    (Opt (Cat (Chr is_separator) (Cat (Chr is_digit) (Many is_digit)))).

(** [\s*stars], with [re.IGNORECASE]. *)
Definition stars_tail : regex := Cat (Many is_space) (literal true "stars").

(** [\s*/\s*5] *)
Definition out_of_5_tail : regex :=
  Cat (Many is_space)
    (Cat (literal false "/") (Cat (Many is_space) (literal false "5"))).

(** Lines 91-99 of [scrape_royalroad]: [score_value] after the two
    searches. *)
Definition scrape_royalroad_score (aria data_content : string)
  : result (option spec_float) :=
  match search score_number stars_tail aria with
  | Some g => score_value <- _clean_float g ;; Ok (Some score_value)
  | None =>
      match search score_number out_of_5_tail data_content with
      | Some g => score_value <- _clean_float g ;; Ok (Some score_value)
      | None => Ok None
      end
  end.

(** What [scrape_goodreads] asks of the page it fetched: the text of the
    first [div] of class [RatingStatistics__rating], that of the first
    [div] with that name in its class, and that of the first [span] whose
    [data-testid] is [ratingsCount]; [None] where [find] returns [None]. *)
Record goodreads_soup : Type := {
  rating_div_text : option string;
  rating_div_like_text : option string;
  count_span_text : option string
}.

(** What [scrape_royalroad] asks of the page it fetched: the attributes
    [aria-label] and [data-content] of its [span] elements, in the order of
    the document, [None] for an attribute that is not there; and the texts
    of the list items, as for [scrape_royalroad_count]. *)
Record royalroad_soup : Type := {
  spans : list (option string * option string);
  styled_items : list string;
  all_items : list string
}.

(** [needle in s]. *)
Fixpoint contains (needle s : string) : bool :=
  String.prefix needle s
  || match s with
     | EmptyString => false
     | String _ s' => contains needle s'
     end.

(** [soup.select_one('span[aria-label*="stars"]')]: the first [span] whose
    [aria-label] is there and holds the text [stars], in small letters as
    the selector has it. *)
Definition select_score_span (soup : royalroad_soup)
  : option (option string * option string) :=
  List.find (fun span => match fst span with
                         | Some label => contains "stars" label
                         | None => false
                         end)
    (spans soup).

(** [x or ""] for an attribute. *)
Definition or_empty (x : option string) : string :=
  match x with
  | Some s => s
  | None => EmptyString
  end.

Section SiteExtractors.

(** Fetching and parsing a page: [requests.get], [raise_for_status] and
    [BeautifulSoup], with the exception that they end in. *)
Variable get_goodreads : json -> result goodreads_soup.
Variable get_royalroad : json -> result royalroad_soup.

Definition scrape_goodreads (url : json) : result (spec_float * Z) :=
  soup <- get_goodreads url ;;
  let rating_div :=
    match rating_div_text soup with
    | Some text => Some text
    | None => rating_div_like_text soup
    end in
  match rating_div with
  | None => Raise (ValueError RatingElementNotFound)
  | Some text =>
      rating_value <- _clean_float text ;;
      match count_span_text soup with
      | None => Raise (ValueError RatingsCountElementNotFound)
      | Some count_text =>
          rating_count <- _clean_int count_text ;;
          Ok (rating_value, rating_count)
      end
  end.

Definition scrape_royalroad (url : json) : result (spec_float * Z) :=
  soup <- get_royalroad url ;;
  match select_score_span soup with
  | None => Raise (ValueError ScoreSpanNotFound)
  | Some (aria_label, data) =>
      let aria := strip (or_empty aria_label) in
      let data_content := strip (or_empty data) in
      score_value <- scrape_royalroad_score aria data_content ;;
      match score_value with
      | None => Raise (ValueError (CouldNotParseScore aria data_content))
      | Some score =>
          rating_count <-
            scrape_royalroad_count (styled_items soup) (all_items soup) ;;
          Ok (score, rating_count)
      end
  end.

End SiteExtractors.

(** A float that is a number, or infinite, and not below zero. *)
Definition unsigned_float (x : spec_float) : bool :=
  match x with
  | S754_nan => false
  | S754_zero s | S754_infinity s | S754_finite s _ _ => negb s
  end.

(** A number as [score_number] matches it: digits, and after them perhaps
    a comma or a period and digits. *)
Definition score_text (g : string) : Prop :=
  exists ip frac,
    g = ip ++ frac /\ all_chars is_digit ip = true /\ ip <> ""
    /\ (frac = ""
        \/ exists sep fp,
             frac = String sep fp /\ is_separator sep = true
             /\ all_chars is_digit fp = true /\ fp <> "").


(** The errors of [_clean_int] on a text: its own for a text without a
    digit, and that of [int] for a text of more digits than it converts. *)
Definition count_error (text : string) (e : exn) : Prop :=
  e = ValueError (CouldNotParseInt text)
  \/ exists digits : nat,
       max_str_digits < Z.of_nat digits
       /\ e = ValueError (ExceedsDigitLimit digits).

(** Two pages, and what fetching gives. *)
Definition goodreads_sample : goodreads_soup :=
  {| rating_div_text := Some "4,50";
     rating_div_like_text := None;
     count_span_text := Some "12,345 ratings" |}.

Definition royalroad_sample : royalroad_soup :=
  {| spans := [(None, None); (Some "Overall Score", None);
               (Some "Rating: 4.5 stars", Some "4.5 / 5")];
     styled_items := [];
     all_items := ["Followers :"; "1,024"; "Ratings :"; "217"] |}.

Definition goodreads_fetched (url : json) : result goodreads_soup :=
  Ok goodreads_sample.

Definition royalroad_fetched (url : json) : result royalroad_soup :=
  Ok royalroad_sample.

(** The decimals of a rating as it is written: none for no hundredths, one
    for whole tenths, two otherwise; [r] is the number of hundredths after
    the whole part. *)
Definition decimals (r : Z) : string :=
  if r =? 0 then ""
  else if r mod 10 =? 0 then String "." (String (digit_char (r / 10)) "")
       else String "." (String (digit_char (r / 10))
                          (String (digit_char (r mod 10)) "")).

(** What a written rating shows of a float: that it is no number, or the
    sign and that it is infinite, or the sign and the hundredths. *)
Inductive shown : Type :=
| ShownNan
| ShownInf (s : bool)
| ShownHundredths (s : bool) (k : Z).

Definition shown_of (x : spec_float) : shown :=
  match x with
  | S754_nan => ShownNan
  | S754_infinity s => ShownInf s
  | S754_zero s => ShownHundredths s 0
  | S754_finite s m e => ShownHundredths s (hundredths m e)
  end.

(** How [shown] is written. *)
Definition written_rating (v : shown) : string :=
  match v with
  | ShownNan => "nan"
  | ShownInf s => sign_str s ++ "inf"
  | ShownHundredths s k =>
      sign_str s ++ str_nonneg (k / 100) ++ decimals (k mod 100)
  end.

(** A digit or a period. *)
Definition is_plain (c : ascii) : bool := is_digit c || is_point c.

(** A letter of the English alphabet, small or capital. *)
Definition is_letter (c : ascii) : bool :=
  (97 <=? code (lower_char c)) && (code (lower_char c) <=? 122).

(** ** Scrape Driver: the warning *)

(** The literal [0.3]. *)
Definition three_tenths : spec_float := float_of_decimal false 3 (-1).

(** [float(n)] for an [int] within the range of the floats, as the product
    of an [int] and a float takes it: the nearest float. *)
Definition float_of_int (n : Z) : spec_float :=
  if n =? 0 then S754_zero false else nearest_float (n <? 0) (Z.abs n) 1.

(** [x * y] for floats: the product, correctly rounded. *)
Definition float_mul (x y : spec_float) : spec_float :=
  match x, y with
  | S754_nan, _ | _, S754_nan => S754_nan
  | S754_infinity sx, S754_infinity sy => S754_infinity (xorb sx sy)
  | S754_infinity sx, S754_finite sy _ _ => S754_infinity (xorb sx sy)
  | S754_finite sx _ _, S754_infinity sy => S754_infinity (xorb sx sy)
  | S754_infinity _, S754_zero _ => S754_nan
  | S754_zero _, S754_infinity _ => S754_nan
  | S754_finite sx _ _, S754_zero sy => S754_zero (xorb sx sy)
  | S754_zero sx, S754_finite sy _ _ => S754_zero (xorb sx sy)
  | S754_zero sx, S754_zero sy => S754_zero (xorb sx sy)
  | S754_finite sx mx ex, S754_finite sy my ey =>
      let e := ex + ey in
      nearest_float (xorb sx sy) (Zpos mx * Zpos my * 2 ^ Z.max e 0)
        (2 ^ Z.max (- e) 0)
  end.

(** [n > x] for an [int] and a float: the comparison of the two numbers. *)
Definition int_gt_float (n : Z) (x : spec_float) : bool :=
  match x with
  | S754_nan => false
  | S754_infinity s => s
  | S754_zero _ => 0 <? n
  | S754_finite s m e =>
      (if s then Zneg m else Zpos m) * 2 ^ Z.max e 0 <? n * 2 ^ Z.max (- e) 0
  end.

(** [total > 0 and failures > total * 0.3] *)
Definition many_failures (total failures : Z) : bool :=
  (0 <? total)
  && int_gt_float failures (float_mul (float_of_int total) three_tenths).

(** Whether [scrape_targets] prints its warning. *)
Definition scrape_warns
    (scrape_goodreads scrape_royalroad : json -> result (spec_float * Z))
    (targets : pydict string) : bool :=
  many_failures (Z.of_nat (List.length targets))
    (scrape_failures scrape_goodreads scrape_royalroad targets).

(** A text of [n] times the character [c]. *)
Fixpoint repeat_char (c : ascii) (n : nat) : string :=
  match n with
  | O => EmptyString
  | S n' => String c (repeat_char c n')
  end.

(** The text of a count of 4301 digits. *)
Definition long_count_text : string := repeat_char "7" 4301 ++ " ratings".

(** * Properties *)

(** ** Source Resolver *)

Lemma dict_get_get (d : dict) (k : string) (v : json) :
  dict_get d k = Some v -> get d k = v.
Proof. unfold get, get_default. now intros ->. Qed.

Lemma dict_get_nonempty (d : dict) (k : string) (v : json) :
  dict_get d k = Some v -> truthy (JObj d) = true.
Proof. destruct d; [discriminate | reflexivity]. Qed.

Lemma present_nonempty_get (d : dict) (k : string) :
  present_nonempty (dict_get d k) = truthy (get d k).
Proof. unfold get, get_default. now destruct (dict_get d k). Qed.

Lemma pick_source_url_primary (b : book) :
  truthy (get b "url") = true ->
  pick_source_url b = Ok (Some "goodreads", get b "url").
Proof. unfold pick_source_url. now intros ->. Qed.

Lemma pick_source_url_secondary (b : book) (u : json) :
  truthy (get b "url") = false ->
  vendors_rr_url b = Some u -> truthy u = true ->
  pick_source_url b = Ok (Some "royalroad", u).
Proof.
  intros Hp Hn Hu. unfold pick_source_url. rewrite Hp.
  unfold vendors_rr_url in Hn.
  destruct (dict_get b "vendors") as [[| | | | |  | vendors] |] eqn:Hv;
    try discriminate.
  destruct (dict_get vendors "rr") as [[| | | | | | rr] |] eqn:Hr;
    try discriminate.
  rewrite (dict_get_get _ _ Hv). unfold py_or.
  rewrite (dict_get_nonempty _ _ Hr). cbn [method_get bind].
  rewrite (dict_get_get _ _ Hr), (dict_get_nonempty _ _ Hn).
  cbn [method_get bind]. now rewrite (dict_get_get _ _ Hn), Hu.
Qed.

Lemma pick_source_url_none (b : book) :
  truthy (get b "url") = false ->
  vendors_nested b = true ->
  present_nonempty (vendors_rr_url b) = false ->
  pick_source_url b = Ok (None, JNull).
Proof.
  intros Hp Hs Hn. unfold pick_source_url. rewrite Hp.
  unfold vendors_nested in Hs. unfold vendors_rr_url in Hn.
  unfold get at 1, get_default. unfold get, get_default in Hs.
  destruct (dict_get b "vendors") as [vendors |]; [| reflexivity].
  unfold py_or.
  destruct vendors as [| | | | | | vendors];
    try (apply negb_true_iff in Hs; rewrite Hs; reflexivity).
  destruct (truthy (JObj vendors)); [| reflexivity].
  cbn [method_get bind]. unfold get, get_default.
  destruct (dict_get vendors "rr") as [rr |]; [| reflexivity].
  destruct rr as [| | | | | | rr];
    try (apply negb_true_iff in Hs; rewrite Hs; reflexivity).
  destruct (truthy (JObj rr)); [| reflexivity].
  cbn [method_get bind]. rewrite present_nonempty_get in Hn.
  now rewrite Hn.
Qed.

(** C1.  The resolver gives the primary source with [record.url] whenever
    that field is present and non-empty, whatever [vendors.rr.url] holds;
    otherwise the secondary source with [vendors.rr.url] whenever that nested
    field is present and non-empty; otherwise, on a record whose [vendors]
    and [rr] are mappings where set, no source and no URL. *)
Theorem pick_source_url_priority (b : book) :
  (present_nonempty (dict_get b "url") = true ->
   pick_source_url b = Ok (Some "goodreads", get b "url"))
  /\ (present_nonempty (dict_get b "url") = false ->
      forall u, vendors_rr_url b = Some u -> truthy u = true ->
      pick_source_url b = Ok (Some "royalroad", u))
  /\ (present_nonempty (dict_get b "url") = false ->
      present_nonempty (vendors_rr_url b) = false ->
      vendors_nested b = true ->
      pick_source_url b = Ok (None, JNull)).
Proof.
  rewrite present_nonempty_get. repeat split.
  - apply pick_source_url_primary.
  - intros Hp u. now apply pick_source_url_secondary.
  - intros Hp Hn Hs. now apply pick_source_url_none.
Qed.

Lemma pick_source_url_priority_witness :
  pick_source_url book_both
    = Ok (Some "goodreads", JStr "https://g.example/1")
  /\ pick_source_url book_secondary
    = Ok (Some "royalroad", JStr "https://rr.example/2")
  /\ pick_source_url book_unlisted = Ok (None, JNull).
Proof.
  split; [| split].
  - apply (proj1 (pick_source_url_priority book_both)). reflexivity.
  - apply (proj1 (proj2 (pick_source_url_priority book_secondary)));
      reflexivity.
  - apply (proj2 (proj2 (pick_source_url_priority book_unlisted)));
      reflexivity.
Defined.

(** ** Normalizers: [_clean_int] *)

Lemma eqb_empty (s : string) :
  String.eqb s "" = match s with EmptyString => true | _ => false end.
Proof. now destruct s. Qed.

Lemma sub_non_digits_digits_of (text : string) :
  list_ascii_of_string (sub_non_digits text) = digits_of text.
Proof.
  unfold digits_of. induction text as [| c s IH]; [reflexivity |].
  cbn. destruct (is_digit c); cbn; now rewrite IH.
Qed.

Lemma int_digits_base10 (s : string) (acc : Z) :
  int_digits acc s
  = acc * 10 ^ Z.of_nat (String.length s) + base10 (list_ascii_of_string s).
Proof.
  revert acc. induction s as [| c s IH]; intros acc.
  - cbn. lia.
  - cbn [int_digits String.length list_ascii_of_string base10].
    rewrite IH, Nat2Z.inj_succ, Z.pow_succ_r by lia.
    replace (List.length (list_ascii_of_string s)) with (String.length s).
    + ring.
    + clear. induction s; cbn; congruence.
Qed.

Lemma digits_of_nil (text : string) :
  digits_of text = [] <->
  Forall (fun c => is_digit c = false) (list_ascii_of_string text).
Proof.
  unfold digits_of. induction (list_ascii_of_string text) as [| c l IH].
  - split; [constructor | reflexivity].
  - cbn. destruct (is_digit c) eqn:Hc.
    + split; [discriminate | intros H; inversion H; congruence].
    + rewrite IH. split; [now constructor | now inversion 1].
Qed.

Lemma filter_length_string (text : string) :
  List.length (digits_of text) = String.length (sub_non_digits text).
Proof.
  rewrite <- sub_non_digits_digits_of.
  induction (sub_non_digits text) as [| c s IH]; cbn; congruence.
Qed.

Lemma clean_int_spec (text : string) :
  _clean_int text
  = match digits_of text with
    | [] => Raise (ValueError (CouldNotParseInt text))
    | ds =>
        if max_str_digits <? Z.of_nat (List.length ds)
        then Raise (ValueError (ExceedsDigitLimit (List.length ds)))
        else Ok (base10 ds)
    end.
Proof.
  unfold _clean_int, py_int.
  rewrite eqb_empty, int_digits_base10, <- filter_length_string.
  rewrite <- sub_non_digits_digits_of.
  destruct (sub_non_digits text); [reflexivity |].
  cbn [list_ascii_of_string]. now rewrite Z.mul_0_l, Z.add_0_l.
Qed.

(** C7.  [_clean_int] reads the number that the digits of the text denote in
    base ten, whatever stands between them, where they are at most 4300; it
    raises its own [ValueError] exactly when the text holds no digit, and
    the [ValueError] of [int] exactly when it holds more than 4300. *)
Theorem clean_int_reads_digits (text : string) :
  _clean_int text
  = match digits_of text with
    | [] => Raise (ValueError (CouldNotParseInt text))
    | ds =>
        if max_str_digits <? Z.of_nat (List.length ds)
        then Raise (ValueError (ExceedsDigitLimit (List.length ds)))
        else Ok (base10 ds)
    end
  /\ (_clean_int text = Raise (ValueError (CouldNotParseInt text)) <->
      Forall (fun c => is_digit c = false) (list_ascii_of_string text))
  /\ (is_ok (_clean_int text) = false <->
      digits_of text = []
      \/ max_str_digits < Z.of_nat (List.length (digits_of text)))
  /\ _clean_int "12,345 ratings" = Ok 12345.
Proof.
  pose proof (clean_int_spec text) as H.
  split; [exact H | split; [| split; [| reflexivity]]].
  - rewrite H, <- digits_of_nil. destruct (digits_of text) as [| d ds].
    + now split.
    + cbv iota zeta. split; [| discriminate].
      destruct (max_str_digits <? Z.of_nat (List.length (d :: ds)));
        intros E; discriminate E.
  - rewrite H. destruct (digits_of text) as [| d ds].
    + split; [now left | reflexivity].
    + cbv iota zeta.
      destruct (Z.ltb_spec max_str_digits (Z.of_nat (List.length (d :: ds))));
        cbn [is_ok]; split; intros Hc;
        try reflexivity; try discriminate Hc.
      * now right.
      * destruct Hc as [Hc | Hc]; [discriminate Hc | lia].
Qed.

Lemma clean_int_reads_digits_witness :
  _clean_int "n/a" = Raise (ValueError (CouldNotParseInt "n/a"))
  /\ is_ok (_clean_int "4 stars") = true.
Proof.
  split.
  - apply (proj1 (proj2 (clean_int_reads_digits "n/a"))).
    repeat constructor.
  - rewrite (proj1 (clean_int_reads_digits "4 stars")). reflexivity.
Defined.

(** A text of 4301 digits, which [int] does not convert: [_clean_int] fails
    on it, and not for want of a digit. *)
Lemma clean_int_reads_digits_counterexample :
  _clean_int long_count_text = Raise (ValueError (ExceedsDigitLimit 4301))
  /\ ~ (is_ok (_clean_int long_count_text) = false <->
        Forall (fun c => is_digit c = false)
          (list_ascii_of_string long_count_text)).
Proof.
  assert (H : _clean_int long_count_text
              = Raise (ValueError (ExceedsDigitLimit 4301)))
    by (vm_compute; reflexivity).
  split; [exact H |]. rewrite H. intros [Hno _].
  specialize (Hno eq_refl).
  change long_count_text
    with (String "7" (repeat_char "7" 4300 ++ " ratings")) in Hno.
  cbn [list_ascii_of_string] in Hno. inversion Hno as [| c l Hc _].
  discriminate Hc.
Qed.

(** ** Text: stripping *)

Lemma append_empty_r (s : string) : s ++ "" = s.
Proof. induction s; cbn; congruence. Qed.

Lemma append_assoc (a b c : string) : (a ++ b) ++ c = a ++ b ++ c.
Proof. induction a; cbn; congruence. Qed.

Lemma rstrip_all (p : ascii -> bool) (w : string) :
  all_chars p w = true -> rstrip p w = "".
Proof.
  induction w as [| c w IH]; [reflexivity |]. cbn.
  intros [Hc Hw]%andb_true_iff. now rewrite IH, Hc.
Qed.

(** Stripping on the right looks at the last part first. *)
Lemma rstrip_app (p : ascii -> bool) (a b : string) :
  rstrip p (a ++ b)
  = match rstrip p b with
    | EmptyString => rstrip p a
    | r => a ++ r
    end.
Proof.
  induction a as [| c a IH]; cbn.
  - now destruct (rstrip p b).
  - rewrite IH. destruct (rstrip p b); [reflexivity |].
    now destruct a.
Qed.

Lemma rstrip_decomp (p : ascii -> bool) (s : string) :
  exists w, s = rstrip p s ++ w /\ all_chars p w = true.
Proof.
  induction s as [| c s (w & Hs & Hw)]; [now exists "" |]. cbn.
  destruct (rstrip p s) as [| c' r] eqn:Hr.
  - destruct (p c) eqn:Hc.
    + exists (String c s). split; [reflexivity |].
      cbn. rewrite Hc. cbn in Hs. now rewrite Hs.
    + exists w. split; [| assumption]. cbn. now rewrite Hs at 1.
  - exists w. split; [| assumption]. cbn. now rewrite Hs at 1.
Qed.

Lemma rstrip_idem (p : ascii -> bool) (s : string) :
  rstrip p (rstrip p s) = rstrip p s.
Proof.
  induction s as [| c s IH]; [reflexivity |]. cbn.
  destruct (rstrip p s) as [| c' r] eqn:Hr.
  - destruct (p c) eqn:Hc; cbn; now rewrite ?Hc.
  - cbn [rstrip] in *. rewrite IH. reflexivity.
Qed.

Lemma lower_char_space (c : ascii) : is_space (lower_char c) = is_space c.
Proof. destruct c as [[] [] [] [] [] [] [] []]; reflexivity. Qed.

Lemma lower_char_fix (c : ascii) : is_space c = true -> lower_char c = c.
Proof.
  destruct c as [[] [] [] [] [] [] [] []]; (reflexivity || discriminate).
Qed.

Lemma rstrip_lower (s : string) :
  rstrip is_space (lower s) = lower (rstrip is_space s).
Proof.
  induction s as [| c s IH]; [reflexivity |]. cbn. rewrite IH.
  destruct (rstrip is_space s); cbn; [| reflexivity].
  rewrite lower_char_space. now destruct (is_space c).
Qed.

(** ** Site extractors: the label of the ratings count *)

Lemma sub_space_runs_tidy (s : string) (in_run : bool) :
  tidy (sub_space_runs in_run s) = true
  /\ (in_run = true -> starts_with is_space (sub_space_runs in_run s) = false).
Proof.
  revert in_run. induction s as [| c s IH]; intros in_run; [now split |].
  cbn [sub_space_runs]. destruct (is_space c) eqn:Hc.
  - destruct in_run.
    + apply IH.
    + split; [| discriminate]. destruct (IH true) as [Ht Hs].
      specialize (Hs eq_refl). cbn. rewrite Ht.
      destruct (sub_space_runs true s); [reflexivity |].
      cbn in Hs. now rewrite Hs.
  - destruct (IH false) as [Ht _]. split; [| intros _; cbn; exact Hc].
    cbn [tidy]. now rewrite Hc, Ht.
Qed.

Lemma tidy_tail (c : ascii) (s : string) :
  tidy (String c s) = true -> tidy s = true.
Proof. cbn [tidy]. now intros [_ H]%andb_true_iff. Qed.

Lemma tidy_lstrip (p : ascii -> bool) (s : string) :
  tidy s = true -> tidy (lstrip p s) = true.
Proof.
  induction s as [| c s IH]; [reflexivity |]. cbn [lstrip]. intros H.
  destruct (p c); [apply IH; eapply tidy_tail; eassumption | assumption].
Qed.

Lemma tidy_rstrip (p : ascii -> bool) (s : string) :
  tidy s = true -> tidy (rstrip p s) = true.
Proof.
  induction s as [| c s IH]; [reflexivity |]. intros H.
  pose proof (tidy_tail _ _ H) as Hs. specialize (IH Hs).
  cbn [rstrip]. destruct (rstrip p s) as [| c' r] eqn:Hr.
  - destruct (p c); [reflexivity |]. cbn [tidy] in *.
    apply andb_true_iff in H as [H _]. rewrite andb_true_r.
    destruct (is_space c); [| reflexivity].
    apply andb_true_iff in H as [-> _]. reflexivity.
  - destruct (rstrip_decomp p s) as (w & Hd & _). rewrite Hr in Hd.
    cbn [tidy] in *. rewrite IH, andb_true_r.
    apply andb_true_iff in H as [H _]. rewrite Hd in H. exact H.
Qed.

Lemma tidy_lower (s : string) : tidy (lower s) = tidy s.
Proof.
  induction s as [| c s IH]; [reflexivity |]. cbn [lower tidy].
  rewrite IH, lower_char_space. destruct (is_space c) eqn:Hc; [| reflexivity].
  rewrite (lower_char_fix _ Hc). destruct s; [reflexivity |].
  cbn [lower]. now rewrite lower_char_space.
Qed.

Lemma key_norm_tidy (key : string) : tidy (key_norm key) = true.
Proof.
  unfold key_norm, strip. rewrite tidy_lower.
  apply tidy_rstrip, tidy_lstrip, sub_space_runs_tidy.
Qed.

Lemma key_norm_rstrip (key : string) :
  rstrip is_space (key_norm key) = key_norm key.
Proof.
  unfold key_norm, strip. now rewrite rstrip_lower, rstrip_idem.
Qed.

Lemma drop_last_colon_cases (s : string) :
  drop_last_colon s = s \/ s = drop_last_colon s ++ ":".
Proof.
  induction s as [| c s IH]; [now left |]. cbn [drop_last_colon].
  destruct s as [| c' s].
  - destruct (Ascii.eqb_spec c ":") as [-> |]; [now right | now left].
  - destruct IH as [IH | IH]; [left | right].
    + now rewrite IH.
    + cbn [append]. now rewrite <- IH.
Qed.

(** The three spellings that the script accepts are the texts that
    normalize to [ratings]. *)
Lemma is_ratings_label_norm (key : string) :
  is_ratings_label key = true <-> label_norm key = "ratings".
Proof.
  unfold is_ratings_label, label_norm. cbv zeta. fold (key_norm key).
  pose proof (key_norm_tidy key) as Ht.
  pose proof (key_norm_rstrip key) as Hr.
  set (k := key_norm key) in *. clearbody k. split.
  - rewrite !orb_true_iff, !String.eqb_eq. now intros [[-> | ->] | ->].
  - intros H. destruct (drop_last_colon_cases k) as [Hd | Hd].
    + rewrite Hd, Hr in H. now rewrite H.
    + destruct (rstrip_decomp is_space (drop_last_colon k)) as (w & Hw & Hs).
      rewrite H in Hw. rewrite Hw in Hd. rewrite Hd in Ht. rewrite Hd.
      clear - Ht Hs. destruct w as [| c w]; [reflexivity |].
      cbn in Hs. apply andb_true_iff in Hs as [Hc Hs].
      cbn in Ht. rewrite Hc in Ht. destruct w as [| c' w].
      * cbn in Ht. apply andb_true_iff in Ht as [Ht _].
        apply andb_true_iff in Ht as [Ht _].
        apply Ascii.eqb_eq in Ht as ->. reflexivity.
      * cbn in Hs. apply andb_true_iff in Hs as [Hc' _].
        cbn in Ht. rewrite Hc' in Ht. cbn in Ht.
        now rewrite andb_false_r in Ht.
Qed.

Lemma find_rating_count_skip (pre rest : list string) :
  Forall (fun k => label_norm k <> "ratings") pre ->
  find_rating_count (pre ++ rest)%list = find_rating_count rest.
Proof.
  induction 1 as [| k pre Hk _ IH]; [reflexivity |].
  cbn [app find_rating_count].
  destruct (is_ratings_label k) eqn:E; [| exact IH].
  now apply is_ratings_label_norm in E.
Qed.

(** C5.  The ratings count of the secondary site is [_clean_int] of the
    text of the item that follows the first item whose normalized text is
    [ratings]; where no item is such a label, or the label is the last item,
    the extractor raises its "could not locate" [ValueError]. *)
Theorem scrape_royalroad_count_rule (styled all : list string) :
  let lis := match styled with [] => all | _ => styled end in
  (forall pre key val_text post,
      lis = (pre ++ key :: val_text :: post)%list ->
      Forall (fun k => label_norm k <> "ratings") pre ->
      label_norm key = "ratings" ->
      scrape_royalroad_count styled all = _clean_int val_text)
  /\ (Forall (fun k => label_norm k <> "ratings") lis ->
      scrape_royalroad_count styled all
      = Raise (ValueError CouldNotLocateRatingsCount))
  /\ (forall pre key,
      lis = (pre ++ [key])%list ->
      Forall (fun k => label_norm k <> "ratings") pre ->
      label_norm key = "ratings" ->
      scrape_royalroad_count styled all
      = Raise (ValueError CouldNotLocateRatingsCount)).
Proof.
  intros lis. unfold scrape_royalroad_count. fold lis. clearbody lis.
  split; [| split].
  - intros pre key val_text post -> Hpre Hkey.
    rewrite (find_rating_count_skip _ Hpre). cbn [find_rating_count].
    apply is_ratings_label_norm in Hkey. rewrite Hkey.
    now destruct (_clean_int val_text).
  - intros Hall. rewrite <- (app_nil_r lis).
    now rewrite (find_rating_count_skip _ Hall).
  - intros pre key -> Hpre Hkey.
    rewrite (find_rating_count_skip _ Hpre). cbn [find_rating_count].
    apply is_ratings_label_norm in Hkey. now rewrite Hkey.
Qed.

Lemma scrape_royalroad_count_rule_witness :
  scrape_royalroad_count ["Followers :"; "1,200"; "RATINGS  :"; "3,456"] []
  = Ok 3456
  /\ scrape_royalroad_count [] ["Pages"; "120"]
     = Raise (ValueError CouldNotLocateRatingsCount)
  /\ scrape_royalroad_count [] ["Pages"; "Ratings:"]
     = Raise (ValueError CouldNotLocateRatingsCount).
Proof.
  split; [| split].
  - apply (proj1 (scrape_royalroad_count_rule
                    ["Followers :"; "1,200"; "RATINGS  :"; "3,456"] [])
             ["Followers :"; "1,200"] "RATINGS  :" "3,456" []);
      [reflexivity | repeat constructor; discriminate | reflexivity].
  - apply (proj1 (proj2 (scrape_royalroad_count_rule [] ["Pages"; "120"]))).
    repeat constructor; discriminate.
  - apply (proj2 (proj2 (scrape_royalroad_count_rule [] ["Pages"; "Ratings:"]))
             ["Pages"] "Ratings:");
      [reflexivity | repeat constructor; discriminate | reflexivity].
Defined.


(** ** Dictionaries with string keys *)

Lemma find_none_str {V : Type} (d : pydict V) (u : string) :
  str_keyed d -> find d (JStr u) = None -> ~ In (JStr u) (keys d).
Proof.
  unfold str_keyed, keys. induction d as [| [k v] d IH]; cbn; [tauto |].
  intros Hk Hf. inversion Hk as [| ? ? [s ->] Hd]; subst.
  cbn in Hf. destruct (String.eqb_spec s u) as [-> | Hne]; [discriminate |].
  intros [E | Hin]; [congruence | now apply IH].
Qed.

Lemma find_some_str {V : Type} (d : pydict V) (u : string) (v : V) :
  str_keyed d -> find d (JStr u) = Some v -> In (JStr u) (keys d).
Proof.
  unfold str_keyed, keys. induction d as [| [k w] d IH]; cbn; [discriminate |].
  intros Hk Hf. inversion Hk as [| ? ? [s ->] Hd]; subst.
  cbn in Hf. destruct (String.eqb_spec s u) as [-> | Hne]; [now left |].
  right. now apply IH.
Qed.

(** ** Target Builder *)

Lemma record_ok_resolves (b : book) :
  record_ok b = true ->
  pick_source_url b = Ok (None, JNull)
  \/ exists source u,
       pick_source_url b = Ok (Some source, JStr u)
       /\ source_truthy (Some source) = true /\ truthy (JStr u) = true.
Proof.
  unfold record_ok. intros [[Hu Hs]%andb_true_iff Hn]%andb_true_iff.
  destruct (truthy (get b "url")) eqn:Hp.
  - right. exists "goodreads", match get b "url" with JStr u => u | _ => "" end.
    rewrite (pick_source_url_primary _ Hp).
    unfold get, get_default in *.
    destruct (dict_get b "url") as [[| | | | u | |] |];
      try discriminate; now rewrite Hp.
  - destruct (present_nonempty (vendors_rr_url b)) eqn:Hr.
    + right. destruct (vendors_rr_url b) as [[| | | | u | |] |] eqn:E;
        try discriminate.
      exists "royalroad", u. now rewrite (pick_source_url_secondary _ Hp E Hr).
    + left. now apply pick_source_url_none.
Qed.

Lemma first_resolving_nil (url : json) (source : string) :
  ~ first_resolving [] url source.
Proof. intros (pre & b & post & E & _). now destruct pre. Qed.

Lemma first_resolving_cons (b : book) (rest : list book)
    (url : json) (source : string) :
  first_resolving (b :: rest) url source <->
  pick_source_url b = Ok (Some source, url)
  \/ ((forall s, pick_source_url b <> Ok (Some s, url))
      /\ first_resolving rest url source).
Proof.
  split.
  - intros (pre & b' & post & E & Hb & Hpre). destruct pre as [| p pre].
    + injection E as <- _. now left.
    + injection E as <- ->. inversion Hpre; subst. right.
      split; [assumption |]. now exists pre, b', post.
  - intros [Hb | (Hb & pre & b' & post & -> & Hb' & Hpre)].
    + exists [], b, rest. now repeat split.
    + exists (b :: pre), b', post. repeat split; [assumption |].
      now constructor.
Qed.

Lemma build_targets_from_skip (b : book) (pre post : list book)
    (targets : pydict string) :
  pick_source_url b = Ok (None, JNull) ->
  build_targets_from targets (pre ++ b :: post)
  = build_targets_from targets (pre ++ post).
Proof.
  intros Hb. revert targets. induction pre as [| p pre IH]; intros targets.
  - cbn. now rewrite Hb.
  - cbn [app build_targets_from].
    destruct (pick_source_url p) as [[[src |] url] | e]; cbn [bind];
      [| apply IH | reflexivity].
    destruct (negb _ || negb _); [apply IH |].
    destruct (setdefault targets url src); cbn [bind]; [apply IH | reflexivity].
Qed.

Lemma build_targets_from_spec (books : list book) :
  forall targets : pydict string,
    Forall (fun b => record_ok b = true) books ->
    str_keyed targets -> NoDup (keys targets) ->
    exists targets',
      build_targets_from targets books = Ok targets'
      /\ str_keyed targets' /\ NoDup (keys targets')
      /\ forall url source,
           In (url, source) targets' <->
           In (url, source) targets
           \/ (~ In url (keys targets) /\ first_resolving books url source).
Proof.
  induction books as [| b rest IH]; intros targets Hok Hstr Hnd.
  - exists targets. repeat split; try assumption; [now left |].
    intros [H | [_ H]]; [assumption | now apply first_resolving_nil in H].
  - inversion Hok as [| ? ? Hb Hrest]; subst. cbn [build_targets_from].
    destruct (record_ok_resolves _ Hb) as [E | (src & u & E & Hsrc & Hu)];
      rewrite E; cbn [bind].
    + destruct (IH targets Hrest Hstr Hnd) as (t & Ht & Hts & Htn & Hin).
      exists t. repeat split; try assumption; intros H.
      * apply Hin in H as [H | [Hk H]]; [now left | right].
        split; [assumption |]. apply first_resolving_cons. right.
        split; [congruence | assumption].
      * apply Hin. destruct H as [H | [Hk H]]; [now left | right].
        split; [assumption |].
        apply first_resolving_cons in H as [H | [_ H]]; congruence.
    + rewrite Hsrc, Hu. cbn [negb orb]. unfold setdefault. cbn [hashable bind].
      destruct (find targets (JStr u)) as [v |] eqn:Hf.
      * pose proof (find_some_str _ Hstr Hf) as Hk.
        destruct (IH targets Hrest Hstr Hnd) as (t & Ht & Hts & Htn & Hin).
        exists t. repeat split; try assumption; intros H.
        -- apply Hin in H as [H | [Hn H]]; [now left | right].
           split; [assumption |]. apply first_resolving_cons. right.
           split; [| assumption]. intros s Hs. congruence.
        -- apply Hin. destruct H as [H | [Hn H]]; [now left | right].
           split; [assumption |].
           apply first_resolving_cons in H as [H | [_ H]];
             [congruence | assumption].
      * pose proof (find_none_str _ Hstr Hf) as Hk.
        assert (Hstr' : str_keyed (targets ++ [(JStr u, src)])%list).
        { unfold str_keyed, keys in *. rewrite map_app. apply Forall_app.
          split; [assumption |]. constructor; [now exists u | constructor]. }
        assert (Hnd' : NoDup (keys (targets ++ [(JStr u, src)])%list)).
        { unfold keys in *. rewrite map_app. cbn.
          apply NoDup_app; [assumption | repeat constructor; intros [] |].
          intros a Ha [<- | []]. contradiction. }
        destruct (IH _ Hrest Hstr' Hnd') as (t & Ht & Hts & Htn & Hin).
        exists t. repeat split; try assumption; intros H.
        -- apply Hin in H as [H | [Hn H]].
           ++ apply in_app_or in H as [H | [H | []]]; [now left | right].
              injection H as <- <-. split; [assumption |].
              apply first_resolving_cons. now left.
           ++ unfold keys in Hn. rewrite map_app, in_app_iff in Hn. cbn in Hn.
              right. split; [tauto |]. apply first_resolving_cons. right.
              split; [| assumption]. intros s Hs. rewrite E in Hs.
              injection Hs as _ <-. tauto.
        -- apply Hin. destruct H as [H | [Hn H]].
           ++ left. apply in_or_app. now left.
           ++ apply first_resolving_cons in H as [H | [Hb' H]].
              ** left. apply in_or_app. right. left. congruence.
              ** right. split; [| assumption].
                 unfold keys. rewrite map_app, in_app_iff. cbn.
                 intros [H' | [<- | []]]; [contradiction |].
                 now apply (Hb' src).
Qed.

(** C4.  On records of the catalog [build_targets] raises nothing; its work
    list holds each URL once, and holds [(url, source)] exactly when the
    first record that resolves to [url] resolves to it with [source]; a
    record that resolves to nothing can be left out of the sequence without
    changing the work list. *)
Theorem build_targets_first_seen (all_books : list book) :
  Forall (fun b => record_ok b = true) all_books ->
  (exists targets,
      build_targets all_books = Ok targets
      /\ NoDup (keys targets)
      /\ forall url source,
           In (url, source) targets <-> first_resolving all_books url source)
  /\ (forall pre b post,
        all_books = (pre ++ b :: post)%list ->
        pick_source_url b = Ok (None, JNull) ->
        build_targets all_books = build_targets (pre ++ post)).
Proof.
  intros Hok. split.
  - destruct (@build_targets_from_spec all_books [] Hok)
      as (t & Ht & _ & Hnd & Hin); [constructor | constructor |].
    exists t. repeat split; [assumption | assumption | |].
    + intros H. apply Hin in H as [[] | [_ H]]. assumption.
    + intros H. apply Hin. right. split; [intros [] | assumption].
  - intros pre b post -> Hb. now apply build_targets_from_skip.
Qed.

Lemma build_targets_first_seen_witness :
  (exists targets,
      build_targets catalog_books = Ok targets
      /\ NoDup (keys targets)
      /\ forall url source,
           In (url, source) targets
           <-> first_resolving catalog_books url source)
  /\ (forall pre b post,
        catalog_books = (pre ++ b :: post)%list ->
        pick_source_url b = Ok (None, JNull) ->
        build_targets catalog_books = build_targets (pre ++ post)).
Proof. apply build_targets_first_seen. repeat constructor. Defined.

Example build_targets_catalog_books :
  build_targets catalog_books
  = Ok [(JStr "https://g.example/1", "goodreads");
        (JStr "https://rr.example/2", "royalroad")].
Proof. reflexivity. Qed.


(** ** Numbers as text *)

Lemma digit_char_digit (d : Z) :
  0 <= d < 10 -> is_digit (digit_char d) = true /\ digit_val (digit_char d) = d.
Proof.
  intros H.
  assert (E : d = 0 \/ d = 1 \/ d = 2 \/ d = 3 \/ d = 4 \/ d = 5 \/ d = 6
              \/ d = 7 \/ d = 8 \/ d = 9) by lia.
  repeat (destruct E as [-> | E]; [now split |]). now subst.
Qed.

Lemma all_chars_app (p : ascii -> bool) (a b : string) :
  all_chars p (a ++ b) = all_chars p a && all_chars p b.
Proof.
  induction a as [| c a IH]; [reflexivity |]. cbn.
  now rewrite IH, andb_assoc.
Qed.

Lemma dec_digits_digits (fuel : nat) (n : Z) (acc : string) :
  all_chars is_digit acc = true ->
  all_chars is_digit (dec_digits fuel n acc) = true.
Proof.
  revert n acc. induction fuel as [| fuel IH]; intros n acc Hacc;
    [assumption |].
  cbn [dec_digits].
  assert (Hd : all_chars is_digit (String (digit_char (n mod 10)) acc) = true).
  { cbn. rewrite Hacc.
    now rewrite (proj1 (digit_char_digit (Z.mod_pos_bound n 10 eq_refl))). }
  destruct (n <? 10); [assumption | now apply IH].
Qed.

Lemma dec_digits_nonempty (fuel : nat) (n : Z) (acc : string) :
  acc <> "" -> dec_digits fuel n acc <> "".
Proof.
  revert n acc. induction fuel as [| fuel IH]; intros n acc Hacc;
    [assumption |].
  cbn [dec_digits]. destruct (n <? 10); [discriminate |].
  apply IH. discriminate.
Qed.

Lemma str_nonneg_digits (n : Z) : all_chars is_digit (str_nonneg n) = true.
Proof. now apply dec_digits_digits. Qed.

Lemma str_nonneg_nonempty (n : Z) : str_nonneg n <> "".
Proof.
  unfold str_nonneg. cbn [dec_digits].
  destruct (n <? 10); [discriminate | apply dec_digits_nonempty; discriminate].
Qed.

Lemma append_nonempty_r (a b : string) : b <> "" -> a ++ b <> "".
Proof. destruct a; [trivial | discriminate]. Qed.

Lemma append_nonempty_l (a b : string) : a <> "" -> a ++ b <> "".
Proof. destruct a; [congruence | discriminate]. Qed.

Lemma str_int_nonempty (n : Z) : str_int n <> "".
Proof.
  unfold str_int. destruct (n <? 0); [discriminate | apply str_nonneg_nonempty].
Qed.

(** Stripping leaves a text alone that does not end in a stripped
    character. *)
Lemma rstrip_none (p : ascii -> bool) (s : string) :
  all_chars (fun c => negb (p c)) s = true -> rstrip p s = s.
Proof.
  induction s as [| c s IH]; [reflexivity |]. cbn.
  intros [Hc Hs]%andb_true_iff. rewrite (IH Hs).
  apply negb_true_iff in Hc. rewrite Hc. now destruct s.
Qed.

Lemma all_chars_impl (p q : ascii -> bool) (s : string) :
  (forall c, p c = true -> q c = true) ->
  all_chars p s = true -> all_chars q s = true.
Proof.
  intros Hpq. induction s as [| c s IH]; [reflexivity |]. cbn.
  intros [Hc Hs]%andb_true_iff. now rewrite (Hpq _ Hc), IH.
Qed.

Lemma rstrip_nonempty_prefix (p : ascii -> bool) (a b : string) :
  a <> "" -> all_chars (fun c => negb (p c)) a = true ->
  rstrip p (a ++ b) <> "".
Proof.
  intros Ha Hp. rewrite rstrip_app, (rstrip_none _ _ Hp).
  destruct (rstrip p b); [assumption |].
  apply append_nonempty_l; assumption.
Qed.

Lemma not_point_digit (c : ascii) :
  is_digit c = true -> negb (Ascii.eqb "." c) = true.
Proof.
  destruct (Ascii.eqb_spec "." c) as [<- |]; [discriminate | reflexivity].
Qed.

Lemma sign_str_no_point (s : bool) :
  all_chars (fun c => negb (Ascii.eqb "." c)) (sign_str s) = true.
Proof. now destruct s. Qed.

(** A text with a point in it keeps what stands before the point when its
    zeros and then its points are stripped from the right. *)
Lemma strip_zeros_point_nonempty (a f : string) :
  a <> "" -> all_chars (fun c => negb (Ascii.eqb "." c)) a = true ->
  rstrip_char "." (rstrip_char "0" (a ++ String "." f)) <> "".
Proof.
  intros Ha Hp. unfold rstrip_char. rewrite rstrip_app.
  cbn [rstrip]. destruct (rstrip (Ascii.eqb "0") f); cbn [Ascii.eqb];
    now apply rstrip_nonempty_prefix.
Qed.

Lemma _format_rating_nonempty (rating : spec_float) :
  _format_rating rating <> "".
Proof.
  unfold _format_rating. destruct rating as [s | s | | s m e].
  - now destruct s.
  - now destruct s.
  - discriminate.
  - cbn [format_2f]. unfold fixed2. rewrite <- append_assoc.
    apply strip_zeros_point_nonempty.
    + apply append_nonempty_r, str_nonneg_nonempty.
    + rewrite all_chars_app, sign_str_no_point.
      apply (all_chars_impl _ _ _ not_point_digit), str_nonneg_digits.
Qed.

(** ** Scrape Driver *)

Lemma replace_fresh {V : Type} (d : pydict V) (k : json) (v : V) :
  Forall (fun k' => key_eq k' k = false) (keys d) ->
  replace d k v = (d ++ [(k, v)])%list.
Proof.
  unfold keys. induction d as [| [k' v'] d IH]; [reflexivity |].
  cbn. intros H. inversion H as [| ? ? Hk Hd]; subst.
  now rewrite Hk, IH.
Qed.

Lemma dict_wf_cons {V : Type} (k : json) (v : V) (d : pydict V) :
  dict_wf ((k, v) :: d) = true ->
  hashable k = true
  /\ Forall (fun k' => key_eq k k' = false) (keys d)
  /\ dict_wf d = true.
Proof.
  cbn [dict_wf]. intros [[Hh Hk]%andb_true_iff Hd]%andb_true_iff.
  repeat split; try assumption.
  apply negb_true_iff in Hk. apply Forall_forall. intros k' Hin.
  destruct (key_eq k k') eqn:E; [| reflexivity].
  rewrite <- Hk. symmetry. apply existsb_exists. now exists k'.
Qed.

Section ScrapeDriverProperties.

Variables scrape_goodreads scrape_royalroad : json -> result (spec_float * Z).

Lemma scrape_loop_spec (items : pydict string) :
  forall (cache : pydict (string * string)) (failures : Z),
    dict_wf items = true ->
    Forall (fun k => Forall (fun k' => key_eq k k' = false) (keys items))
      (keys cache) ->
    scrape_loop scrape_goodreads scrape_royalroad items (cache, failures)
    = ((cache
        ++ flat_map (entries scrape_goodreads scrape_royalroad) items)%list,
       failures
       + Z.of_nat (List.length
                     (filter (failed scrape_goodreads scrape_royalroad)
                        items))).
Proof.
  induction items as [| [url source] items IH]; intros cache failures Hwf Hc.
  - cbn. now rewrite app_nil_r, Z.add_0_r.
  - apply dict_wf_cons in Hwf as (Hh & Hk & Hwf).
    cbn [scrape_loop flat_map filter]. unfold scrape_into, entries at 1.
    unfold failed at 1, succeeded, outcome_at. cbn [fst snd].
    destruct (if String.eqb source "goodreads" then scrape_goodreads url
              else scrape_royalroad url) as [[rating count] | e];
      cbn [bind try_except is_ok negb entry_of].
    + unfold setitem. rewrite Hh, replace_fresh; cbn [bind try_except].
      * rewrite IH; [now rewrite <- app_assoc | assumption |].
        unfold keys in *. rewrite map_app. apply Forall_app. split.
        -- eapply Forall_impl; [| exact Hc]. cbn.
           intros k H. now inversion H.
        -- now repeat constructor.
      * eapply Forall_impl; [| exact Hc]. cbn. intros k H. now inversion H.
    + rewrite IH; [| assumption |].
      * cbn [List.length app]. f_equal. lia.
      * eapply Forall_impl; [| exact Hc]. cbn. intros k H. now inversion H.
Qed.

(** C3.  [scrape_targets] goes through the whole work list whatever the
    extractors raise: its cache holds, in the order of the work list, one
    entry for each URL whose extraction succeeded and none for the others,
    the entry of a URL is the pair [(_format_rating rating, str count)] of
    what was extracted there, neither part of which is empty, and the
    failures counted are the targets whose extraction raised. *)
Theorem scrape_targets_isolates_failures (targets : pydict string) :
  dict_wf targets = true ->
  scrape_targets scrape_goodreads scrape_royalroad targets
  = flat_map (entries scrape_goodreads scrape_royalroad) targets
  /\ keys (scrape_targets scrape_goodreads scrape_royalroad targets)
     = keys (filter (succeeded scrape_goodreads scrape_royalroad) targets)
  /\ incl (keys (scrape_targets scrape_goodreads scrape_royalroad targets))
       (keys targets)
  /\ (forall url rating_str count_str,
        In (url, (rating_str, count_str))
          (scrape_targets scrape_goodreads scrape_royalroad targets) ->
        rating_str <> "" /\ count_str <> ""
        /\ exists source rating count,
             In (url, source) targets
             /\ outcome_at scrape_goodreads scrape_royalroad (url, source)
                = Ok (rating, count)
             /\ rating_str = _format_rating rating
             /\ count_str = str_int count)
  /\ scrape_failures scrape_goodreads scrape_royalroad targets
     = Z.of_nat (List.length
                   (filter (failed scrape_goodreads scrape_royalroad)
                      targets)).
Proof.
  intros Hwf. unfold scrape_targets, scrape_failures.
  rewrite scrape_loop_spec by (assumption || constructor).
  cbn [fst snd app]. split; [reflexivity |].
  assert (Hkeys :
            keys (flat_map (entries scrape_goodreads scrape_royalroad) targets)
            = keys (filter (succeeded scrape_goodreads scrape_royalroad)
                      targets)).
  { clear Hwf. unfold keys. induction targets as [| t ts IH]; [reflexivity |].
    cbn [flat_map filter]. rewrite map_app, IH.
    unfold entries, succeeded.
    destruct (outcome_at scrape_goodreads scrape_royalroad t)
      as [[rating count] |]; reflexivity. }
  split; [exact Hkeys | split; [| split; [| reflexivity]]].
  - rewrite Hkeys. unfold keys. intros k Hin.
    apply in_map_iff in Hin as (t & <- & Hin).
    apply filter_In in Hin as [Hin _]. now apply in_map.
  - intros url rating_str count_str Hin.
    apply in_flat_map in Hin as ([u source] & Hin & He).
    unfold entries in He.
    destruct (outcome_at scrape_goodreads scrape_royalroad (u, source))
      as [[rating count] |] eqn:E;
      cbn in He; [| contradiction].
    destruct He as [He | []]. injection He as -> <- <-.
    split; [apply _format_rating_nonempty |].
    split; [apply str_int_nonempty |].
    now exists source, rating, count.
Qed.

End ScrapeDriverProperties.

Lemma scrape_targets_isolates_failures_witness :
  scrape_targets goodreads_up royalroad_down three_targets
  = [(JStr "https://g.example/1", ("4.5", "12345"));
     (JStr "https://g.example/3", ("4.5", "12345"))]
  /\ scrape_failures goodreads_up royalroad_down three_targets = 1.
Proof.
  destruct (scrape_targets_isolates_failures goodreads_up royalroad_down
              three_targets eq_refl) as (Hc & _ & _ & _ & Hf).
  split; [exact Hc | exact Hf].
Defined.


(** ** Reconciler *)

Lemma dict_get_set_same (d : dict) (k : string) (v : json) :
  dict_get (dict_set d k v) k = Some v.
Proof.
  induction d as [| [k' v'] d IH]; cbn.
  - now rewrite String.eqb_refl.
  - destruct (String.eqb k' k) eqn:E; cbn; now rewrite E.
Qed.

Lemma dict_get_set_other (d : dict) (k k' : string) (v : json) :
  k <> k' -> dict_get (dict_set d k v) k' = dict_get d k'.
Proof.
  intros Hne. induction d as [| [k0 v0] d IH]; cbn.
  - now apply String.eqb_neq in Hne as ->.
  - destruct (String.eqb_spec k0 k) as [-> | Hk]; cbn.
    + now apply String.eqb_neq in Hne as ->.
    + now rewrite IH.
Qed.

Lemma ne_str_false (v : json) (s : string) :
  ne_str v s = false <-> v = JStr s.
Proof.
  destruct v; cbn; try (split; discriminate).
  rewrite negb_false_iff, String.eqb_eq. split; congruence.
Qed.

Lemma stored_overwritten (b : book) (entry : string * string) :
  stored (overwritten b entry) "rating" = JStr (fst entry)
  /\ stored (overwritten b entry) "r_count" = JStr (snd entry).
Proof.
  unfold stored, overwritten.
  rewrite dict_get_set_other, !dict_get_set_same by discriminate. now split.
Qed.

Lemma apply_cache_step_spec (b : book) (cache : pydict (string * string)) :
  record_ok b = true ->
  exists b' assigned,
    apply_cache_step b cache = Ok (b', assigned)
    /\ reconciled cache b b'
    /\ (if assigned then b' <> b else b' = b).
Proof.
  intros Hok. unfold apply_cache_step, reconciled, resolved_entry.
  destruct (record_ok_resolves _ Hok) as [E | (src & u & E & _ & Hu)];
    rewrite E; cbn [bind].
  - exists b, false. now repeat split.
  - rewrite Hu. cbn [negb lookup hashable bind].
    destruct (find cache (JStr u)) as [[rating_str count_str] |].
    + change (get_default b "rating" (JStr "")) with (stored b "rating").
      change (get_default b "r_count" (JStr "")) with (stored b "r_count").
      cbn [fst snd].
      destruct (ne_str (stored b "rating") rating_str) eqn:Hr;
        [| destruct (ne_str (stored b "r_count") count_str) eqn:Hc];
        cbn [orb].
      * assert (Hne : overwritten b (rating_str, count_str) <> b).
        { intros Heq.
          pose proof (stored_overwritten b (rating_str, count_str)) as [H _].
          rewrite Heq in H. apply ne_str_false in H. cbn in H. congruence. }
        exists (overwritten b (rating_str, count_str)), true.
        split; [reflexivity | split; [split | assumption]].
        -- intros [H _]. apply ne_str_false in H. congruence.
        -- now split.
      * assert (Hne : overwritten b (rating_str, count_str) <> b).
        { intros Heq.
          pose proof (stored_overwritten b (rating_str, count_str)) as [_ H].
          rewrite Heq in H. apply ne_str_false in H. cbn in H. congruence. }
        exists (overwritten b (rating_str, count_str)), true.
        split; [reflexivity | split; [split | assumption]].
        -- intros [_ H]. apply ne_str_false in H. congruence.
        -- now split.
      * apply ne_str_false in Hr, Hc. exists b, false.
        split; [reflexivity | split; [split | reflexivity]].
        -- reflexivity.
        -- intros [H | H]; contradiction.
    + exists b, false. now repeat split.
Qed.

Lemma apply_cache_from_spec (books : list book)
    (cache : pydict (string * string)) :
  forall changed : bool,
    Forall (fun b => record_ok b = true) books ->
    exists books' changed',
      apply_cache_from changed books cache = (books', Ok changed')
      /\ Forall2 (reconciled cache) books books'
      /\ (changed' = true <-> changed = true \/ books' <> books).
Proof.
  induction books as [| b rest IH]; intros changed Hok.
  - exists [], changed. repeat split; [constructor | tauto |].
    intros [H | H]; congruence.
  - inversion Hok as [| ? ? Hb Hrest]; subst. cbn [apply_cache_from].
    destruct (@apply_cache_step_spec b cache Hb) as (b' & a & -> & Hrec & Ha).
    destruct (IH (a || changed)%bool Hrest) as (rest' & ch & -> & Hall & Hch).
    exists (b' :: rest'), ch. repeat split; [now constructor | |].
    + intros H. apply Hch in H as [H | H].
      * apply orb_true_iff in H as [-> | H]; [right | now left]. congruence.
      * right. congruence.
    + intros H. apply Hch. rewrite orb_true_iff.
      destruct H as [H | H]; [tauto |].
      destruct a; [tauto |]. subst b'. right. congruence.
Qed.

(** C2.  On records of the catalog [apply_cache] returns a flag and leaves
    each record reconciled: untouched where its resolved URL is absent or no
    key of the cache; left as it is where the cache has that URL and both
    stored strings equal the cached pair; with both fields overwritten by the
    cached pair, and thereby changed, where either stored string differs (an
    absent field reading as the empty string).  The flag is true exactly when
    a record was changed. *)
Theorem apply_cache_reconciles (books : list book)
    (cache : pydict (string * string)) :
  Forall (fun b => record_ok b = true) books ->
  exists books' changed,
    apply_cache books cache = (books', Ok changed)
    /\ Forall2 (reconciled cache) books books'
    /\ (changed = true <-> books' <> books).
Proof.
  intros Hok.
  destruct (@apply_cache_from_spec books cache false Hok)
    as (books' & ch & E & H & Hc).
  exists books', ch. repeat split; try assumption.
  - intros Ht. apply Hc in Ht as [Ht | Ht]; [discriminate | assumption].
  - intros Hne. apply Hc. now right.
Qed.

Lemma apply_cache_reconciles_witness :
  exists books' changed,
    apply_cache [book_stale; book_unlisted; book_fresh] ratings_cache
    = (books', Ok changed)
    /\ Forall2 (reconciled ratings_cache)
         [book_stale; book_unlisted; book_fresh] books'
    /\ (changed = true <-> books' <> [book_stale; book_unlisted; book_fresh]).
Proof. apply apply_cache_reconciles. repeat constructor. Defined.

Example apply_cache_writes_on_diff :
  apply_cache [book_stale; book_unlisted; book_fresh] ratings_cache
  = ([[("title", JStr "E"); ("url", JStr "https://g.example/1");
       ("rating", JStr "4.5"); ("pages", JInt 320);
       ("r_count", JStr "12345")];
      book_unlisted; book_fresh], Ok true)
  /\ apply_cache [book_unlisted; book_fresh] ratings_cache
     = ([book_unlisted; book_fresh], Ok false).
Proof. split; reflexivity. Qed.

Lemma other_fields_dict_set (d : dict) (k : string) (v : json) :
  k = "rating" \/ k = "r_count" ->
  other_fields (dict_set d k v) = other_fields d.
Proof.
  intros Hk.
  assert (E : negb (String.eqb k "rating" || String.eqb k "r_count") = false).
  { destruct Hk as [-> | ->]; reflexivity. }
  unfold other_fields. induction d as [| [k' v'] d IH]; cbn.
  - now rewrite E.
  - destruct (String.eqb_spec k' k) as [-> | Hne]; cbn.
    + now rewrite E.
    + now rewrite IH.
Qed.

Lemma other_fields_overwritten (b : book) (entry : string * string) :
  other_fields (overwritten b entry) = other_fields b.
Proof.
  unfold overwritten. rewrite !other_fields_dict_set; auto.
Qed.

Lemma dict_get_overwritten (b : book) (entry : string * string) (k : string) :
  k <> "rating" -> k <> "r_count" ->
  dict_get (overwritten b entry) k = dict_get b k.
Proof.
  intros H1 H2. unfold overwritten.
  rewrite !dict_get_set_other; congruence.
Qed.

Lemma apply_cache_step_frame (b b' : book) (cache : pydict (string * string))
    (assigned : bool) :
  apply_cache_step b cache = Ok (b', assigned) ->
  b' = b \/ exists entry, b' = overwritten b entry.
Proof.
  unfold apply_cache_step.
  destruct (pick_source_url b) as [[source url] |]; cbn [bind];
    [| discriminate].
  destruct (negb (truthy url)); [left; congruence |].
  destruct (lookup cache url) as [[[rating_str count_str] |] |]; cbn [bind];
    [| left; congruence | discriminate].
  destruct (_ || _); intros [= <- _]; [right | now left].
  now exists (rating_str, count_str).
Qed.

Lemma apply_cache_from_frame (books : list book)
    (cache : pydict (string * string)) (changed : bool) :
  Forall2 same_but_ratings books (fst (apply_cache_from changed books cache)).
Proof.
  assert (Hrefl : forall l : list book, Forall2 same_but_ratings l l).
  { induction l; constructor; [now split | assumption]. }
  revert changed. induction books as [| b rest IH]; intros changed;
    [constructor |].
  cbn [apply_cache_from].
  destruct (apply_cache_step b cache) as [[b' assigned] | e] eqn:E;
    [| apply Hrefl].
  specialize (IH (assigned || changed)%bool).
  destruct (apply_cache_from (assigned || changed) rest cache) as [rest' r].
  cbn [fst] in *. constructor; [| assumption].
  apply apply_cache_step_frame in E as [-> | [entry ->]]; [now split |].
  split; [apply other_fields_overwritten |].
  intros k. apply dict_get_overwritten.
Qed.

(** C9.  Whatever the records and the cache, and whether [apply_cache]
    returns or raises, it leaves as many records as it was given, and each
    of them with its fields other than [rating] and [r_count] as they stood:
    the same keys in the same order with the same values. *)
Theorem apply_cache_frame (books : list book)
    (cache : pydict (string * string)) :
  List.length (fst (apply_cache books cache)) = List.length books
  /\ Forall2 same_but_ratings books (fst (apply_cache books cache)).
Proof.
  pose proof (apply_cache_from_frame books cache false) as H.
  split; [| exact H]. symmetry. exact (Forall2_length H).
Qed.


(** ** Text: stripping and replacing *)

Lemma lstrip_app (p : ascii -> bool) (a b : string) :
  lstrip p (a ++ b) = if all_chars p a then lstrip p b else lstrip p a ++ b.
Proof.
  induction a as [| c a IH]; [reflexivity |]. cbn.
  destruct (p c); [exact IH | reflexivity].
Qed.

Lemma lstrip_none (p : ascii -> bool) (s : string) :
  all_chars (fun c => negb (p c)) s = true -> lstrip p s = s.
Proof.
  destruct s as [| c s]; [reflexivity |]. cbn.
  intros [Hc _]%andb_true_iff. apply negb_true_iff in Hc. now rewrite Hc.
Qed.

Lemma lstrip_all (p : ascii -> bool) (s : string) :
  all_chars p s = true -> lstrip p s = "".
Proof.
  induction s as [| c s IH]; [reflexivity |]. cbn.
  intros [-> Hs]%andb_true_iff. now apply IH.
Qed.

(** White space around a text does not show in what [strip] leaves. *)
Lemma strip_around (l text r : string) :
  all_chars is_space l = true -> all_chars is_space r = true ->
  strip (l ++ text ++ r) = strip text.
Proof.
  intros Hl Hr. unfold strip. rewrite lstrip_app, Hl, lstrip_app.
  destruct (all_chars is_space text) eqn:Ht.
  - now rewrite (lstrip_all _ _ Hr), (lstrip_all _ _ Ht).
  - now rewrite rstrip_app, (rstrip_all _ _ Hr).
Qed.

Lemma replace_char_none (a b : ascii) (s : string) :
  all_chars (fun c => negb (Ascii.eqb c a)) s = true ->
  replace_char a b s = s.
Proof.
  induction s as [| c s IH]; [reflexivity |]. cbn.
  intros [Hc Hs]%andb_true_iff. apply negb_true_iff in Hc.
  now rewrite Hc, IH.
Qed.

Lemma replace_char_idem (a b : ascii) (s : string) :
  a <> b -> replace_char a b (replace_char a b s) = replace_char a b s.
Proof.
  intros Hab. induction s as [| c s IH]; [reflexivity |]. cbn. rewrite IH.
  destruct (Ascii.eqb_spec c a) as [-> | Hc].
  - apply not_eq_sym, Ascii.eqb_neq in Hab. now rewrite Hab.
  - apply Ascii.eqb_neq in Hc. now rewrite Hc.
Qed.

Lemma lstrip_replace (p : ascii -> bool) (a b : ascii) (s : string) :
  p a = false -> p b = false ->
  lstrip p (replace_char a b s) = replace_char a b (lstrip p s).
Proof.
  intros Ha Hb. induction s as [| c s IH]; [reflexivity |]. cbn.
  destruct (Ascii.eqb_spec c a) as [-> | Hc].
  - now rewrite Ha, Hb; cbn; rewrite Ascii.eqb_refl.
  - destruct (p c); [exact IH |]. cbn.
    apply Ascii.eqb_neq in Hc. now rewrite Hc.
Qed.

Lemma rstrip_replace (p : ascii -> bool) (a b : ascii) (s : string) :
  p a = false -> p b = false ->
  rstrip p (replace_char a b s) = replace_char a b (rstrip p s).
Proof.
  intros Ha Hb. induction s as [| c s IH]; [reflexivity |]. cbn. rewrite IH.
  destruct (rstrip p s); cbn; [| reflexivity].
  destruct (Ascii.eqb_spec c a) as [-> | Hc].
  - rewrite Ha, Hb. cbn. now rewrite Ascii.eqb_refl.
  - destruct (p c); [reflexivity |]. cbn.
    apply Ascii.eqb_neq in Hc. now rewrite Hc.
Qed.

Lemma strip_replace_comma (s : string) :
  strip (replace_char "," "." s) = replace_char "," "." (strip s).
Proof.
  unfold strip. now rewrite lstrip_replace, rstrip_replace.
Qed.

(** ** Text: counting *)

Lemma count_chars_app (p : ascii -> bool) (a b : string) :
  count_chars p (a ++ b) = (count_chars p a + count_chars p b)%nat.
Proof. induction a as [| c a IH]; cbn; [reflexivity | rewrite IH; lia]. Qed.

Lemma count_chars_all (p q : ascii -> bool) (s : string) :
  (forall c, q c = true -> p c = false) ->
  all_chars q s = true -> count_chars p s = O.
Proof.
  intros Hpq. induction s as [| c s IH]; [reflexivity |]. cbn.
  intros [Hc Hs]%andb_true_iff. now rewrite (Hpq _ Hc), IH.
Qed.

Lemma lstrip_decomp (p : ascii -> bool) (s : string) :
  exists w, s = w ++ lstrip p s /\ all_chars p w = true.
Proof.
  induction s as [| c s (w & Hs & Hw)]; [now exists "" |]. cbn.
  destruct (p c) eqn:Hc; [| now exists ""].
  exists (String c w). cbn. now rewrite Hc, Hw, <- Hs.
Qed.

(** Stripping characters that [p] does not count keeps the count. *)
Lemma count_chars_lstrip (p q : ascii -> bool) (s : string) :
  (forall c, q c = true -> p c = false) ->
  count_chars p (lstrip q s) = count_chars p s.
Proof.
  intros Hpq. destruct (lstrip_decomp q s) as (w & Hs & Hw).
  rewrite Hs at 2. now rewrite count_chars_app, (count_chars_all _ _ _ Hpq Hw).
Qed.

Lemma count_chars_rstrip (p q : ascii -> bool) (s : string) :
  (forall c, q c = true -> p c = false) ->
  count_chars p (rstrip q s) = count_chars p s.
Proof.
  intros Hpq. destruct (rstrip_decomp q s) as (w & Hs & Hw).
  rewrite Hs at 2.
  rewrite count_chars_app, (count_chars_all _ _ _ Hpq Hw). lia.
Qed.

Lemma count_chars_replace_comma (s : string) :
  count_chars is_point (replace_char "," "." s) = count_chars is_separator s.
Proof.
  induction s as [| c s IH]; [reflexivity |]. cbn. rewrite IH.
  unfold is_separator, is_point.
  destruct (Ascii.eqb_spec c ",") as [-> |]; reflexivity.
Qed.

Lemma space_no_separator (c : ascii) :
  is_space c = true -> is_separator c = false.
Proof.
  destruct c as [[] [] [] [] [] [] [] []]; (reflexivity || discriminate).
Qed.

Lemma float_space_space (c : ascii) :
  float_space c = true -> is_space c = true.
Proof.
  destruct c as [[] [] [] [] [] [] [] []]; (reflexivity || discriminate).
Qed.

(** ** The built-in [float]: one point at most *)

Lemma span_digits_spec (s : string) :
  s = fst (span_digits s) ++ snd (span_digits s)
  /\ all_chars is_digit (fst (span_digits s)) = true
  /\ starts_with is_digit (snd (span_digits s)) = false.
Proof.
  induction s as [| c s (IHs & IHd & IHr)]; [now repeat split |].
  cbn [span_digits]. destruct (is_digit c) eqn:Hc.
  - destruct (span_digits s) as [ds rest]. cbn [fst snd] in *.
    cbn [append all_chars]. rewrite Hc, IHd.
    repeat split; [now rewrite IHs at 1 | assumption].
  - cbn. now rewrite Hc.
Qed.

Lemma digit_no_point (c : ascii) : is_digit c = true -> is_point c = false.
Proof.
  destruct c as [[] [] [] [] [] [] [] []]; (reflexivity || discriminate).
Qed.

Lemma space_no_point (c : ascii) : is_space c = true -> is_point c = false.
Proof.
  destruct c as [[] [] [] [] [] [] [] []]; (reflexivity || discriminate).
Qed.

Lemma lower_char_point (c : ascii) : is_point (lower_char c) = is_point c.
Proof. destruct c as [[] [] [] [] [] [] [] []]; reflexivity. Qed.

Lemma count_points_lower (s : string) :
  count_chars is_point (lower s) = count_chars is_point s.
Proof.
  induction s as [| c s IH]; [reflexivity |]. cbn.
  now rewrite IH, lower_char_point.
Qed.

Lemma count_points_drop_underscores (s s' : string) (prev : ascii) :
  drop_underscores prev s = Some s' ->
  count_chars is_point s' = count_chars is_point s.
Proof.
  revert prev s'. induction s as [| c s IH]; intros prev s'; cbn.
  - destruct (Ascii.eqb prev "_"); [discriminate | now intros [= <-]].
  - destruct (Ascii.eqb_spec c "_") as [-> | Hc].
    + destruct (is_digit prev); [apply IH | discriminate].
    + destruct (Ascii.eqb prev "_" && negb (is_digit c)); [discriminate |].
      destruct (drop_underscores c s) as [t |] eqn:E; [| discriminate].
      cbn. intros [= <-]. cbn. now rewrite (IH _ _ E).
Qed.

Lemma count_points_parse_sign (s : string) :
  count_chars is_point (snd (parse_sign s)) = count_chars is_point s.
Proof.
  destruct s as [| c s]; [reflexivity |].
  destruct c as [[] [] [] [] [] [] [] []]; reflexivity.
Qed.

Lemma count_points_inf_nan (neg : bool) (s : string) (x : spec_float) :
  parse_inf_nan neg s = Some x -> count_chars is_point s = O.
Proof.
  unfold parse_inf_nan. rewrite <- count_points_lower.
  destruct (String.eqb_spec (lower s) "inf") as [-> |]; [reflexivity |].
  destruct (String.eqb_spec (lower s) "infinity") as [-> |]; [reflexivity |].
  destruct (String.eqb_spec (lower s) "nan") as [-> |];
    [reflexivity | discriminate].
Qed.

Lemma count_points_digits (s : string) :
  all_chars is_digit s = true -> count_chars is_point s = O.
Proof. apply count_chars_all, digit_no_point. Qed.

Lemma count_points_decimal (neg : bool) (s : string) (x : spec_float) :
  parse_decimal neg s = Some x -> (count_chars is_point s <= 1)%nat.
Proof.
  unfold parse_decimal.
  destruct (span_digits_spec s) as (Hs & Hip & _).
  destruct (span_digits s) as [ip r1]. cbn [fst snd] in *.
  rewrite Hs, count_chars_app, (count_points_digits _ Hip). clear Hs Hip.
  assert (Hexp : forall r2 m scale,
             match r2 with
             | EmptyString => Some (float_of_decimal neg m scale)
             | String c r3 =>
                 if Ascii.eqb c "e" || Ascii.eqb c "E"
                 then
                   let '(eneg, r4) := parse_sign r3 in
                   let '(ed, r5) := span_digits r4 in
                   if String.eqb ed "" || negb (String.eqb r5 "") then None
                   else
                     let x := int_digits 0 ed in
                     Some (float_of_decimal neg m
                             ((if eneg then - x else x) + scale))
                 else None
             end = Some x -> count_chars is_point r2 = O).
  { intros [| c r3] m scale; [reflexivity |].
    destruct (Ascii.eqb c "e" || Ascii.eqb c "E") eqn:Hc; [| discriminate].
    pose proof (count_points_parse_sign r3) as Hsign.
    destruct (parse_sign r3) as [eneg r4]. cbn [snd] in Hsign.
    destruct (span_digits_spec r4) as (Hr4 & Hed & _).
    destruct (span_digits r4) as [ed r5]. cbn [fst snd] in *.
    destruct (String.eqb ed ""); [discriminate |].
    destruct (String.eqb_spec r5 "") as [-> |]; [| discriminate].
    intros _. cbn [count_chars]. rewrite <- Hsign, Hr4, count_chars_app.
    rewrite (count_points_digits _ Hed).
    apply orb_true_iff in Hc as [Hc | Hc]; apply Ascii.eqb_eq in Hc as ->;
      reflexivity. }
  destruct r1 as [| c r].
  - destruct (String.eqb (ip ++ "") ""); [discriminate |].
    intros _. cbn. lia.
  - destruct (Ascii.eqb_spec c ".") as [-> | Hc].
    + destruct (span_digits_spec r) as (Hr & Hfp & _).
      destruct (span_digits r) as [fp r2]. cbn [fst snd] in *.
      destruct (String.eqb (ip ++ fp) ""); [discriminate |].
      intros H. apply Hexp in H. cbn [count_chars is_point].
      rewrite Hr, count_chars_app, (count_points_digits _ Hfp), H.
      cbn. lia.
    + replace (match c with
               | "."%char => span_digits r
               | _ => (EmptyString, String c r)
               end) with (EmptyString, String c r).
      * destruct (String.eqb (ip ++ "") ""); [discriminate |].
        intros H. apply (Hexp (String c r)) in H. rewrite H. lia.
      * destruct c as [[] [] [] [] [] [] [] []]; try reflexivity.
        now contradiction Hc.
Qed.

(** A text that [float] accepts holds one point at most. *)
Lemma py_float_one_point (text : string) (x : spec_float) :
  py_float text = Ok x -> (count_chars is_point text <= 1)%nat.
Proof.
  unfold py_float.
  rewrite <- (count_chars_lstrip is_point float_space text),
    <- (count_chars_rstrip is_point float_space)
    by (intros c Hc; apply space_no_point, float_space_space, Hc).
  destruct (drop_underscores zero _) as [s' |] eqn:E; [| discriminate].
  rewrite <- (count_points_drop_underscores _ _ E).
  rewrite <- count_points_parse_sign.
  destruct (parse_sign s') as [neg body]. cbn [snd].
  destruct (parse_inf_nan neg body) as [y |] eqn:Hi.
  - intros _. rewrite (count_points_inf_nan _ _ Hi). lia.
  - destruct (parse_decimal neg body) as [y |] eqn:Hd; [| discriminate].
    intros _. exact (count_points_decimal _ _ Hd).
Qed.

(** ** The built-in [float] on plain decimals *)

Lemma numeric_char (c : ascii) :
  is_numeric c = true ->
  is_space c = false /\ float_space c = false
  /\ Ascii.eqb c "_" = false /\ Ascii.eqb c "," = false
  /\ lower_char c = c.
Proof.
  destruct c as [[] [] [] [] [] [] [] []]; try discriminate;
    intros _; repeat split.
Qed.

Lemma drop_underscores_none (s : string) (prev : ascii) :
  Ascii.eqb prev "_" = false ->
  all_chars (fun c => negb (Ascii.eqb c "_")) s = true ->
  drop_underscores prev s = Some s.
Proof.
  revert prev. induction s as [| c s IH]; intros prev Hp; cbn.
  - now rewrite Hp.
  - intros [Hc Hs]%andb_true_iff. apply negb_true_iff in Hc.
    rewrite Hc, Hp. cbn. now rewrite (IH c Hc Hs).
Qed.

Lemma span_digits_app (ds rest : string) :
  all_chars is_digit ds = true -> starts_with is_digit rest = false ->
  span_digits (ds ++ rest) = (ds, rest).
Proof.
  intros Hds Hrest. induction ds as [| c ds IH]; cbn.
  - destruct rest as [| c rest]; [reflexivity |]. cbn in *.
    now rewrite Hrest.
  - cbn in Hds. apply andb_true_iff in Hds as [Hc Hds].
    now rewrite Hc, (IH Hds).
Qed.

Lemma span_digits_all (ds : string) :
  all_chars is_digit ds = true -> span_digits ds = (ds, "").
Proof.
  intros H. rewrite <- (append_empty_r ds) at 1. now apply span_digits_app.
Qed.

(** Nothing is stripped or replaced in a numeric text, and [float] reads it
    from its sign on. *)
Lemma numeric_unchanged (s : string) :
  all_chars is_numeric s = true ->
  strip s = s /\ replace_char "," "." s = s
  /\ rstrip float_space (lstrip float_space s) = s
  /\ drop_underscores zero s = Some s.
Proof.
  intros H.
  assert (Hs : all_chars (fun c => negb (is_space c)) s = true).
  { revert H. apply all_chars_impl. intros c Hc.
    now rewrite (proj1 (numeric_char _ Hc)). }
  assert (Hf : all_chars (fun c => negb (float_space c)) s = true).
  { revert H. apply all_chars_impl. intros c Hc.
    destruct (numeric_char _ Hc) as (_ & -> & _). reflexivity. }
  assert (Hu : all_chars (fun c => negb (Ascii.eqb c "_")) s = true).
  { revert H. apply all_chars_impl. intros c Hc.
    destruct (numeric_char _ Hc) as (_ & _ & -> & _). reflexivity. }
  assert (Hk : all_chars (fun c => negb (Ascii.eqb c ",")) s = true).
  { revert H. apply all_chars_impl. intros c Hc.
    destruct (numeric_char _ Hc) as (_ & _ & _ & -> & _). reflexivity. }
  repeat split.
  - unfold strip. now rewrite lstrip_none, rstrip_none.
  - now apply replace_char_none.
  - now rewrite lstrip_none, rstrip_none.
  - now apply drop_underscores_none.
Qed.

Lemma parse_inf_nan_numeric (neg : bool) (c : ascii) (s : string) :
  is_numeric c = true -> parse_inf_nan neg (String c s) = None.
Proof.
  intros Hc. unfold parse_inf_nan. cbn [lower].
  destruct (numeric_char _ Hc) as (_ & _ & _ & _ & ->).
  destruct c as [[] [] [] [] [] [] [] []]; try discriminate; reflexivity.
Qed.

Lemma parse_sign_str (neg : bool) (body : string) :
  starts_with (fun c => Ascii.eqb c "-" || Ascii.eqb c "+") body = false ->
  parse_sign (sign_str neg ++ body) = (neg, body).
Proof.
  destruct neg; [reflexivity |]. destruct body as [| c body]; [reflexivity |].
  cbn. destruct c as [[] [] [] [] [] [] [] []]; try discriminate; reflexivity.
Qed.

Lemma all_digits_numeric (s : string) :
  all_chars is_digit s = true -> all_chars is_numeric s = true.
Proof.
  apply all_chars_impl. intros c Hc. unfold is_numeric. now rewrite Hc.
Qed.

Lemma sign_str_numeric (neg : bool) :
  all_chars is_numeric (sign_str neg) = true.
Proof. now destruct neg. Qed.

Lemma digit_not_sign (c : ascii) :
  is_digit c = true -> Ascii.eqb c "-" || Ascii.eqb c "+" = false.
Proof.
  destruct c as [[] [] [] [] [] [] [] []]; (reflexivity || discriminate).
Qed.

(** [float] on digits with a point among them, after an optional [-]. *)
Lemma py_float_point (neg : bool) (ip fp : string) :
  all_chars is_digit ip = true -> all_chars is_digit fp = true ->
  ip ++ fp <> "" ->
  py_float (sign_str neg ++ ip ++ String "." fp)
  = Ok (float_of_decimal neg (int_digits 0 (ip ++ fp))
          (- Z.of_nat (String.length fp))).
Proof.
  intros Hip Hfp Hne. unfold py_float.
  assert (Hnum : all_chars is_numeric (sign_str neg ++ ip ++ String "." fp)
                 = true).
  { rewrite !all_chars_app, sign_str_numeric, (all_digits_numeric _ Hip).
    cbn. now rewrite (all_digits_numeric _ Hfp). }
  destruct (numeric_unchanged _ Hnum) as (_ & _ & -> & ->).
  rewrite parse_sign_str.
  2:{ destruct ip as [| c ip]; [reflexivity |]. cbn in *.
      apply andb_true_iff in Hip as [Hc _]. now apply digit_not_sign. }
  assert (Hinf : parse_inf_nan neg (ip ++ String "." fp) = None).
  { destruct ip as [| c ip]; [now apply parse_inf_nan_numeric |].
    cbn in *. apply andb_true_iff in Hip as [Hc _].
    apply parse_inf_nan_numeric. unfold is_numeric. now rewrite Hc. }
  rewrite Hinf. unfold parse_decimal.
  rewrite (@span_digits_app ip (String "." fp) Hip eq_refl).
  rewrite (span_digits_all _ Hfp).
  destruct (String.eqb_spec (ip ++ fp) ""); [contradiction | reflexivity].
Qed.

(** [float] on digits alone, after an optional [-]. *)
Lemma py_float_digits (neg : bool) (ip : string) :
  all_chars is_digit ip = true -> ip <> "" ->
  py_float (sign_str neg ++ ip)
  = Ok (float_of_decimal neg (int_digits 0 ip) 0).
Proof.
  intros Hip Hne. unfold py_float.
  assert (Hnum : all_chars is_numeric (sign_str neg ++ ip) = true).
  { now rewrite all_chars_app, sign_str_numeric, (all_digits_numeric _ Hip). }
  destruct (numeric_unchanged _ Hnum) as (_ & _ & -> & ->).
  destruct ip as [| c ip]; [contradiction |].
  pose proof Hip as Hc. cbn in Hc. apply andb_true_iff in Hc as [Hc _].
  rewrite parse_sign_str by (now apply digit_not_sign).
  rewrite parse_inf_nan_numeric by (unfold is_numeric; now rewrite Hc).
  unfold parse_decimal. rewrite (span_digits_all _ Hip), append_empty_r.
  reflexivity.
Qed.

(** ** Rounding to the nearest integer *)

Lemma half_even_spec (n d : Z) :
  0 < d -> - d <= 2 * (half_even n d * d - n) <= d.
Proof.
  intros Hd. unfold half_even. cbv zeta.
  pose proof (Z.div_mod n d ltac:(lia)) as Hn.
  pose proof (Z.mod_pos_bound n d Hd) as Hr.
  set (q := n / d) in *. set (r := n mod d) in *. clearbody q r.
  replace (d * q) with (q * d) in Hn by ring. subst n.
  destruct (Z.compare_spec (2 * r) d) as [E | E | E];
    [destruct (Z.even q) | |]; lia.
Qed.

Lemma half_even_unique (n d j : Z) :
  0 < d -> - d < 2 * (j * d - n) < d -> half_even n d = j.
Proof.
  intros Hd Hj. unfold half_even. cbv zeta.
  pose proof (Z.div_mod n d ltac:(lia)) as Hn.
  pose proof (Z.mod_pos_bound n d Hd) as Hr.
  set (q := n / d) in *. set (r := n mod d) in *. clearbody q r.
  replace (d * q) with (q * d) in Hn by ring. subst n.
  assert (Hq : j = q \/ j = q + 1).
  { assert (q - 1 < j) by nia. assert (j < q + 2) by nia. lia. }
  destruct (Z.compare_spec (2 * r) d) as [E | E | E];
    destruct Hq as [-> | ->]; lia.
Qed.

Lemma half_even_scale (c n d : Z) :
  0 < c -> 0 < d -> half_even (c * n) (c * d) = half_even n d.
Proof.
  intros Hc Hd. unfold half_even. cbv zeta.
  rewrite Z.div_mul_cancel_l, Zmult_mod_distr_l by lia.
  replace (2 * (c * (n mod d))) with (c * (2 * (n mod d))) by ring.
  now rewrite <- Zmult_compare_compat_l by lia.
Qed.

Lemma half_even_nonneg (n d : Z) : 0 <= n -> 0 < d -> 0 <= half_even n d.
Proof.
  intros Hn Hd. pose proof (half_even_spec n Hd) as H.
  destruct (Z.neg_nonneg_cases (half_even n d)); [nia | assumption].
Qed.

(** Powers of two in a quotient, with no exponent below zero. *)
Lemma pow2_split (e a : Z) :
  0 <= a -> 0 <= e + a ->
  2 ^ a = 2 ^ (a - Z.max (- e) 0) * 2 ^ Z.max (- e) 0
  /\ 2 ^ (e + a) = 2 ^ (a - Z.max (- e) 0) * 2 ^ Z.max e 0
  /\ 0 < 2 ^ (a - Z.max (- e) 0).
Proof.
  intros Ha He. rewrite <- !Z.pow_add_r by lia. repeat split.
  - f_equal. lia.
  - f_equal. lia.
  - apply Z.pow_pos_nonneg; lia.
Qed.

Lemma half_even_pow2_num (n e a : Z) :
  0 <= a -> 0 <= e + a ->
  half_even (n * 2 ^ Z.max e 0) (2 ^ Z.max (- e) 0)
  = half_even (n * 2 ^ (e + a)) (2 ^ a).
Proof.
  intros Ha He. destruct (pow2_split e Ha He) as (-> & -> & Hc).
  rewrite <- (half_even_scale (n * 2 ^ Z.max e 0) Hc)
    by (apply Z.pow_pos_nonneg; lia).
  f_equal. ring.
Qed.

Lemma half_even_pow2_den (n d e a : Z) :
  0 < d -> 0 <= a -> 0 <= e + a ->
  half_even (n * 2 ^ Z.max (- e) 0) (d * 2 ^ Z.max e 0)
  = half_even (n * 2 ^ a) (d * 2 ^ (e + a)).
Proof.
  intros Hd Ha He. destruct (pow2_split e Ha He) as (-> & -> & Hc).
  rewrite <- (half_even_scale (n * 2 ^ Z.max (- e) 0) Hc).
  - f_equal; ring.
  - apply Z.mul_pos_pos; [assumption | apply Z.pow_pos_nonneg; lia].
Qed.

(** ** Floats: what a valid float is *)

Lemma digits2_pos_spec (m : positive) :
  2 ^ (Zpos (digits2_pos m) - 1) <= Zpos m < 2 ^ Zpos (digits2_pos m).
Proof.
  induction m as [m IH | m IH |]; cbn [digits2_pos]; [| | now cbn].
  - rewrite Pos2Z.inj_succ.
    replace (Z.succ (Zpos (digits2_pos m)) - 1)
      with (Z.succ (Zpos (digits2_pos m) - 1)) by lia.
    rewrite !Z.pow_succ_r by lia. lia.
  - rewrite Pos2Z.inj_succ.
    replace (Z.succ (Zpos (digits2_pos m)) - 1)
      with (Z.succ (Zpos (digits2_pos m) - 1)) by lia.
    rewrite !Z.pow_succ_r by lia. lia.
Qed.

(** The mantissa of a float has 53 bits, all of which a float above the
    least exponent uses. *)
Lemma float_bounds (s : bool) (m : positive) (e : Z) :
  is_float (S754_finite s m e) = true ->
  Zpos m < 2 ^ 53 /\ -1074 <= e <= 971 /\ (-1074 < e -> 2 ^ 52 <= Zpos m).
Proof.
  unfold is_float, valid_binary, bounded, canonical_mantissa, fexp, emin.
  intros [Hc He]%andb_true_iff.
  apply Z.leb_le in He. apply Z.eqb_eq in Hc.
  change IntDef.Z.max with Z.max in Hc.
  pose proof (digits2_pos_spec m) as [Hlo Hhi].
  set (D := Zpos (digits2_pos m)) in *.
  assert (HD : 0 < D) by (unfold D; lia). clearbody D.
  assert (Hcase : (D = 53 /\ -1074 <= e) \/ (D < 53 /\ e = -1074)) by lia.
  destruct Hcase as [[-> He'] | [HD' ->]].
  - change (53 - 1) with 52 in Hlo. lia.
  - assert (2 ^ D <= 2 ^ 52) by (apply Z.pow_le_mono_r; lia).
    assert (2 ^ 52 < 2 ^ 53) by reflexivity. lia.
Qed.

(** ** Floats: the leading bit of a quotient *)

Lemma floor_log2_spec (n d : Z) :
  0 < n -> 0 < d ->
  let l := floor_log2 n d in
  d * 2 ^ Z.max l 0 <= n * 2 ^ Z.max (- l) 0 < 2 * (d * 2 ^ Z.max l 0).
Proof.
  intros Hn Hd. unfold floor_log2. cbv zeta.
  destruct (Z.log2_spec n Hn) as [Hn1 Hn2].
  destruct (Z.log2_spec d Hd) as [Hd1 Hd2].
  pose proof (Z.log2_nonneg n) as Ha. pose proof (Z.log2_nonneg d) as Hb.
  set (a := Z.log2 n) in *. set (b := Z.log2 d) in *. clearbody a b.
  rewrite !Z.pow_succ_r in * by lia.
  destruct (Z.le_gt_cases b a) as [Hab | Hab].
  - (* the quotient is at least one half *)
    replace (Z.max (- (a - b)) 0) with 0 by lia.
    replace (Z.max (a - b) 0) with (a - b) by lia.
    assert (Ea : 2 ^ a = 2 ^ b * 2 ^ (a - b)).
    { rewrite <- Z.pow_add_r by lia. f_equal. lia. }
    assert (Hp : 0 < 2 ^ (a - b)) by (apply Z.pow_pos_nonneg; lia).
    change (2 ^ 0) with 1. rewrite Z.mul_1_r.
    destruct (Z.ltb_spec n (d * 2 ^ (a - b))) as [Hlt | Hge].
    + destruct (Z.eq_dec a b) as [-> | Hne].
      * replace (b - b - 1) with (-1) by lia. rewrite Z.sub_diag in *.
        change (Z.max (- -1) 0) with 1. change (Z.max (-1) 0) with 0.
        change (2 ^ 0) with 1 in *. change (2 ^ 1) with 2. lia.
      * replace (Z.max (a - b - 1) 0) with (a - b - 1) by lia.
        replace (Z.max (- (a - b - 1)) 0) with 0 by lia.
        change (2 ^ 0) with 1. rewrite Z.mul_1_r.
        assert (Ep : 2 ^ (a - b) = 2 * 2 ^ (a - b - 1)).
        { rewrite <- Z.pow_succ_r by lia. f_equal. lia. }
        rewrite Ep in *. nia.
    + replace (Z.max (- (a - b)) 0) with 0 by lia.
      replace (Z.max (a - b) 0) with (a - b) by lia.
      change (2 ^ 0) with 1. rewrite Z.mul_1_r. nia.
  - (* the quotient is below one *)
    replace (Z.max (- (a - b)) 0) with (b - a) by lia.
    replace (Z.max (a - b) 0) with 0 by lia.
    assert (Eb : 2 ^ b = 2 ^ a * 2 ^ (b - a)).
    { rewrite <- Z.pow_add_r by lia. f_equal. lia. }
    assert (Hp : 0 < 2 ^ (b - a)) by (apply Z.pow_pos_nonneg; lia).
    change (2 ^ 0) with 1. rewrite Z.mul_1_r.
    destruct (Z.ltb_spec (n * 2 ^ (b - a)) d) as [Hlt | Hge].
    + replace (Z.max (a - b - 1) 0) with 0 by lia.
      replace (Z.max (- (a - b - 1)) 0) with (Z.succ (b - a)) by lia.
      rewrite Z.pow_succ_r by lia. change (2 ^ 0) with 1. nia.
    + replace (Z.max (- (a - b)) 0) with (b - a) by lia.
      replace (Z.max (a - b) 0) with 0 by lia.
      change (2 ^ 0) with 1. nia.
Qed.

(** ** Floats: what [nearest_float] gives is a float *)

Lemma half_even_le (n d j : Z) :
  0 < d -> n <= j * d -> half_even n d <= j.
Proof. intros Hd Hj. pose proof (@half_even_spec n d Hd). nia. Qed.

Lemma half_even_ge (n d j : Z) :
  0 < d -> j * d <= n -> j <= half_even n d.
Proof. intros Hd Hj. pose proof (@half_even_spec n d Hd). nia. Qed.

(** The inequalities of [floor_log2_spec] with all exponents shifted by
    [a]. *)
Lemma floor_log2_shifted (n d a : Z) :
  0 < n -> 0 < d -> 0 <= a -> 0 <= floor_log2 n d + a ->
  d * 2 ^ (floor_log2 n d + a) <= n * 2 ^ a
  < 2 * (d * 2 ^ (floor_log2 n d + a)).
Proof.
  intros Hn Hd Ha Hl. pose proof (floor_log2_spec Hn Hd) as H.
  cbv zeta in H. destruct (pow2_split (floor_log2 n d) Ha Hl) as (-> & -> & Hc).
  nia.
Qed.

Lemma valid_mantissa (s : bool) (m e : Z) :
  0 < m < 2 ^ 53 -> -1074 <= e <= 971 -> (-1074 < e -> 2 ^ 52 <= m) ->
  is_float (S754_finite s (Z.to_pos m) e) = true.
Proof.
  intros Hm He Hnorm.
  unfold is_float, valid_binary, bounded, canonical_mantissa, fexp, emin.
  apply andb_true_iff. split; [| apply Z.leb_le; lia].
  apply Z.eqb_eq. change IntDef.Z.max with Z.max.
  pose proof (digits2_pos_spec (Z.to_pos m)) as [Hlo Hhi].
  rewrite Z2Pos.id in Hlo, Hhi by lia.
  set (D := Zpos (digits2_pos (Z.to_pos m))) in *.
  assert (HD : 0 < D) by (unfold D; lia). clearbody D.
  assert (HD53 : D <= 53).
  { assert (D - 1 < 53); [| lia].
    apply (Z.pow_lt_mono_r_iff 2); lia. }
  destruct (Z.eq_dec e (-1074)) as [-> | Hne]; [lia |].
  assert (52 < D); [| lia].
  apply (Z.pow_lt_mono_r_iff 2); lia.
Qed.

Lemma nearest_float_is_float (s : bool) (n d : Z) :
  0 < n -> 0 < d -> is_float (nearest_float s n d) = true.
Proof.
  intros Hn Hd. unfold nearest_float. cbv zeta.
  set (lg := floor_log2 n d).
  set (e := Z.max (lg - 52) (-1074)).
  set (a := Z.max (- lg) 0 + 1200).
  pose proof (@floor_log2_shifted n d a Hn Hd) as Hs. fold lg in Hs.
  specialize (Hs ltac:(lia) ltac:(lia)).
  rewrite (@half_even_pow2_den n d e a Hd) by lia.
  assert (HD : 0 < d * 2 ^ (e + a)).
  { apply Z.mul_pos_pos; [assumption | apply Z.pow_pos_nonneg; lia]. }
  assert (Ee : 2 ^ (e + a) = 2 ^ (e - (lg - 52)) * 2 ^ (lg - 52 + a)).
  { rewrite <- Z.pow_add_r by lia. f_equal. lia. }
  assert (Hc : 1 <= 2 ^ (e - (lg - 52))).
  { change 1 with (2 ^ 0). apply Z.pow_le_mono_r; lia. }
  assert (El : 2 ^ (lg + a) = 2 ^ 52 * 2 ^ (lg - 52 + a)).
  { rewrite <- Z.pow_add_r by lia. f_equal. lia. }
  assert (Hp : 0 < 2 ^ (lg - 52 + a)) by (apply Z.pow_pos_nonneg; lia).
  change (2 ^ 53) with 9007199254740992.
  change (2 ^ 52) with 4503599627370496 in *.
  assert (Hup : half_even (n * 2 ^ a) (d * 2 ^ (e + a)) <= 9007199254740992).
  { apply half_even_le; [assumption |]. rewrite Ee, El in *. nia. }
  assert (Hlow : -1074 < e ->
                 4503599627370496 <= half_even (n * 2 ^ a) (d * 2 ^ (e + a))).
  { intros Hnorm. apply half_even_ge; [assumption |].
    replace e with (lg - 52) by lia. rewrite El in Hs. nia. }
  assert (H0 : 0 <= half_even (n * 2 ^ a) (d * 2 ^ (e + a))).
  { apply half_even_nonneg; [| assumption].
    apply Z.mul_nonneg_nonneg; [lia | apply Z.pow_nonneg; lia]. }
  assert (He : -1074 <= e) by (unfold e; lia).
  clearbody e. clear Ee Hc El Hp Hs HD.
  set (m := half_even (n * 2 ^ a) (d * 2 ^ (e + a))) in *. clearbody m.
  destruct (Z.eqb_spec m 0) as [| Hm0]; [reflexivity |].
  destruct (Z.eqb_spec m 9007199254740992) as [-> | Hm53].
  - destruct (Z.ltb_spec 971 (e + 1)); [reflexivity |].
    apply valid_mantissa; [split; reflexivity | lia |]. intros _.
    apply Z.le_refl.
  - destruct (Z.ltb_spec 971 e); [reflexivity |].
    apply valid_mantissa; [| lia |].
    + change (2 ^ 53) with 9007199254740992. lia.
    + change (2 ^ 52) with 4503599627370496. assumption.
Qed.

(** A finite float that [nearest_float] gives for [n / d] is within half a
    unit of its last place of [n / d]. *)
Lemma nearest_float_close (s : bool) (n d : Z) (m : positive) (e : Z) :
  0 < n -> 0 < d ->
  nearest_float s n d = S754_finite s m e ->
  - (d * 2 ^ Z.max e 0)
  <= 2 * (Zpos m * (d * 2 ^ Z.max e 0) - n * 2 ^ Z.max (- e) 0)
  <= d * 2 ^ Z.max e 0.
Proof.
  intros Hn Hd. unfold nearest_float. cbv zeta.
  set (e0 := Z.max (floor_log2 n d - 52) (-1074)). clearbody e0.
  assert (HD : 0 < d * 2 ^ Z.max e0 0).
  { apply Z.mul_pos_pos; [assumption | apply Z.pow_pos_nonneg; lia]. }
  assert (HN : 0 <= n * 2 ^ Z.max (- e0) 0).
  { apply Z.mul_nonneg_nonneg; [lia | apply Z.pow_nonneg; lia]. }
  pose proof (@half_even_spec (n * 2 ^ Z.max (- e0) 0)
                (d * 2 ^ Z.max e0 0) HD) as Hh.
  pose proof (@half_even_nonneg (n * 2 ^ Z.max (- e0) 0)
                (d * 2 ^ Z.max e0 0) HN HD) as H0.
  set (h := half_even (n * 2 ^ Z.max (- e0) 0) (d * 2 ^ Z.max e0 0)) in *.
  clearbody h.
  destruct (Z.eqb_spec h 0) as [| Hne]; [discriminate |].
  destruct (Z.eqb_spec h (2 ^ 53)) as [-> | _].
  - destruct (Z.ltb_spec 971 (e0 + 1)); [discriminate |].
    intros [= <- <-].
    change (Z.to_pos (2 ^ 52)) with 4503599627370496%positive.
    change (2 ^ 53) with 9007199254740992 in Hh.
    destruct (Z.neg_nonneg_cases e0) as [Hneg | Hnn].
    + replace (Z.max (e0 + 1) 0) with 0 by lia.
      replace (Z.max e0 0) with 0 in Hh by lia.
      replace (Z.max (- (e0 + 1)) 0) with (- e0 - 1) by lia.
      replace (Z.max (- e0) 0) with (Z.succ (- e0 - 1)) in Hh by lia.
      rewrite Z.pow_succ_r in Hh by lia.
      change (2 ^ 0) with 1 in *. rewrite Z.mul_1_r in *. lia.
    + replace (Z.max (e0 + 1) 0) with (Z.succ e0) by lia.
      replace (Z.max e0 0) with e0 in Hh by lia.
      replace (Z.max (- (e0 + 1)) 0) with 0 by lia.
      replace (Z.max (- e0) 0) with 0 in Hh by lia.
      rewrite Z.pow_succ_r by lia.
      change (2 ^ 0) with 1 in *. rewrite Z.mul_1_r in *. lia.
  - destruct (Z.ltb_spec 971 e0); [discriminate |].
    intros [= <- <-]. rewrite Z2Pos.id by lia. exact Hh.
Qed.

(** ** The built-in [float]: what it gives is a float *)

Lemma int_digits_nonneg (s : string) (acc : Z) :
  all_chars is_digit s = true -> 0 <= acc -> 0 <= int_digits acc s.
Proof.
  revert acc. induction s as [| c s IH]; intros acc Hs Hacc; [assumption |].
  cbn in *. apply andb_true_iff in Hs as [Hc Hs]. apply IH; [assumption |].
  unfold is_digit in Hc. apply andb_true_iff in Hc as [Hc _].
  apply Z.leb_le in Hc. unfold digit_val. lia.
Qed.

Lemma float_of_decimal_is_float (s : bool) (m e : Z) :
  0 <= m -> is_float (float_of_decimal s m e) = true.
Proof.
  intros Hm. unfold float_of_decimal.
  destruct (Z.eqb_spec m 0) as [| Hne]; [reflexivity |].
  apply nearest_float_is_float.
  - apply Z.mul_pos_pos; [lia | apply Z.pow_pos_nonneg; lia].
  - apply Z.pow_pos_nonneg; lia.
Qed.

Lemma parse_decimal_is_float (neg : bool) (s : string) (x : spec_float) :
  parse_decimal neg s = Some x -> is_float x = true.
Proof.
  unfold parse_decimal.
  destruct (span_digits_spec s) as (_ & Hip & _).
  destruct (span_digits s) as [ip r1]. cbn [fst snd] in Hip.
  assert (Hfp : all_chars is_digit
                  (fst match r1 with
                       | String "." r => span_digits r
                       | _ => (EmptyString, r1)
                       end) = true).
  { destruct r1 as [| c r]; [reflexivity |].
    destruct (Ascii.eqb_spec c ".") as [-> | Hc].
    - apply span_digits_spec.
    - destruct c as [[] [] [] [] [] [] [] []]; try reflexivity.
      now contradiction Hc. }
  destruct (match r1 with
            | String "." r => span_digits r
            | _ => (EmptyString, r1)
            end) as [fp r2].
  cbn [fst] in Hfp.
  assert (Hm : 0 <= int_digits 0 (ip ++ fp)).
  { apply int_digits_nonneg; [| lia]. now rewrite all_chars_app, Hip. }
  destruct (String.eqb (ip ++ fp) ""); [discriminate |].
  destruct r2 as [| c r3].
  - intros [= <-]. now apply float_of_decimal_is_float.
  - destruct (Ascii.eqb c "e" || Ascii.eqb c "E"); [| discriminate].
    destruct (parse_sign r3) as [eneg r4].
    destruct (span_digits r4) as [ed r5].
    destruct (String.eqb ed "" || negb (String.eqb r5 "")); [discriminate |].
    intros [= <-]. now apply float_of_decimal_is_float.
Qed.

Lemma py_float_is_float (text : string) (x : spec_float) :
  py_float text = Ok x -> is_float x = true.
Proof.
  unfold py_float.
  destruct (drop_underscores zero _) as [s' |]; [| discriminate].
  destruct (parse_sign s') as [neg body].
  destruct (parse_inf_nan neg body) as [y |] eqn:Hi.
  - intros [= <-]. unfold parse_inf_nan in Hi.
    destruct (_ || _); [now injection Hi as <- |].
    destruct (String.eqb _ "nan"); [now injection Hi as <- | discriminate].
  - destruct (parse_decimal neg body) as [y |] eqn:Hd; [| discriminate].
    intros [= <-]. exact (parse_decimal_is_float _ _ Hd).
Qed.

(** ** Normalizers: [_clean_float] *)

Lemma replace_char_app (a b : ascii) (x y : string) :
  replace_char a b (x ++ y) = replace_char a b x ++ replace_char a b y.
Proof. induction x as [| c x IH]; cbn; [reflexivity | now rewrite IH]. Qed.

Lemma clean_float_numeric (s : string) :
  all_chars is_numeric s = true -> _clean_float s = py_float s.
Proof.
  intros H. unfold _clean_float.
  destruct (numeric_unchanged _ H) as (-> & -> & _). reflexivity.
Qed.

Lemma clean_float_replaced (text : string) :
  _clean_float (replace_char "," "." text) = _clean_float text.
Proof.
  unfold _clean_float.
  now rewrite strip_replace_comma, replace_char_idem by discriminate.
Qed.

Lemma clean_float_raises (text : string) :
  is_ok (_clean_float text) = false ->
  _clean_float text
  = Raise (ValueError
             (CouldNotConvertToFloat (replace_char "," "." (strip text)))).
Proof.
  unfold _clean_float, py_float.
  destruct (match drop_underscores zero _ with Some _ => _ | None => _ end);
    [discriminate | reflexivity].
Qed.

Lemma count_separators_strip (text : string) :
  count_chars is_point (replace_char "," "." (strip text))
  = count_chars is_separator text.
Proof.
  rewrite count_chars_replace_comma. unfold strip.
  now rewrite count_chars_rstrip, count_chars_lstrip
    by apply space_no_separator.
Qed.

(** C10.  [_clean_float] reads every comma as a period: it gives to [float]
    a text with a period wherever the text had a comma or a period, so that
    a text reads the same with its commas replaced, and a text with two or
    more commas and periods, such as [1,234.5], raises the [ValueError] of
    [float]. *)
Theorem clean_float_every_comma (text : string) :
  count_chars is_point (replace_char "," "." (strip text))
  = count_chars is_separator text
  /\ _clean_float (replace_char "," "." text) = _clean_float text
  /\ ((2 <= count_chars is_separator text)%nat ->
      _clean_float text
      = Raise (ValueError
                 (CouldNotConvertToFloat (replace_char "," "." (strip text)))))
  /\ _clean_float "1,234.5"
     = Raise (ValueError (CouldNotConvertToFloat "1.234.5")).
Proof.
  split; [apply count_separators_strip |].
  split; [apply clean_float_replaced |].
  split; [| reflexivity].
  intros H. apply clean_float_raises.
  destruct (_clean_float text) as [x |] eqn:E; [| reflexivity].
  unfold _clean_float in E. apply py_float_one_point in E.
  rewrite count_separators_strip in E. lia.
Qed.

Lemma clean_float_every_comma_witness :
  _clean_float "1,234.5"
  = Raise (ValueError
             (CouldNotConvertToFloat
                (replace_char "," "." (strip "1,234.5")))).
Proof.
  apply (proj1 (proj2 (proj2 (clean_float_every_comma "1,234.5")))).
  cbn. lia.
Defined.




(** ** Floats: the float of a number of hundredths *)

(** From [100 * n = k * d]: what the rounding of [n * p / d] to [m] says of
    [k * p] and [100 * m]. *)
Lemma hundredths_scaled (n d k p m : Z) :
  0 < d -> 100 * n = k * d ->
  - d <= 2 * (m * d - n * p) <= d ->
  -50 <= 100 * m - k * p <= 50.
Proof.
  intros Hd Hk Hm.
  assert (E : d * (100 * m - k * p) = 100 * (m * d - n * p)).
  { replace (100 * (m * d - n * p)) with (100 * m * d - 100 * n * p) by ring.
    rewrite Hk. ring. }
  nia.
Qed.

Lemma hundredths_positive (n d k : Z) :
  0 < n -> 0 < d -> 100 * n = k * d -> 0 < k /\ d <= 100 * n.
Proof. intros Hn Hd Hk. assert (0 < k) by nia. split; [assumption | nia]. Qed.

(** Below [2 ^ 46] a float is so close to the number of hundredths that it
    is read from that it rounds to the same hundredths. *)
Lemma nearest_float_small (s : bool) (n d k : Z) :
  0 < n -> 0 < d -> 100 * n = k * d ->
  Z.max (floor_log2 n d - 52) (-1074) <= -7 ->
  exists my ey,
    nearest_float s n d = S754_finite s my ey /\ hundredths my ey = k.
Proof.
  intros Hn Hd Hk He. unfold nearest_float. cbv zeta.
  set (e := Z.max (floor_log2 n d - 52) (-1074)) in *.
  assert (He' : -1074 <= e) by (unfold e; lia). clearbody e.
  replace (Z.max (- e) 0) with (- e) by lia.
  replace (Z.max e 0) with 0 by lia.
  change (2 ^ 0) with 1. rewrite Z.mul_1_r.
  destruct (@hundredths_positive n d k Hn Hd Hk) as [Hk0 Hdn].
  assert (HP : 2 ^ 7 <= 2 ^ (- e)) by (apply Z.pow_le_mono_r; lia).
  change (2 ^ 7) with 128 in HP.
  pose proof (@half_even_spec (n * 2 ^ (- e)) d Hd) as Hm.
  set (m := half_even (n * 2 ^ (- e)) d) in *. clearbody m.
  pose proof (@hundredths_scaled n d k (2 ^ (- e)) m Hd Hk Hm) as HX.
  assert (Hm0 : 0 < m) by nia.
  destruct (Z.eqb_spec m 0) as [-> | _]; [lia |].
  destruct (Z.eqb_spec m (2 ^ 53)) as [-> | Hm53].
  - destruct (Z.ltb_spec 971 (e + 1)) as [| _]; [lia |].
    exists (Z.to_pos (2 ^ 52)), (e + 1). split; [reflexivity |].
    unfold hundredths. rewrite Z2Pos.id by reflexivity.
    replace (Z.max (e + 1) 0) with 0 by lia.
    replace (Z.max (- (e + 1)) 0) with (- e - 1) by lia.
    change (2 ^ 0) with 1. rewrite Z.mul_1_r.
    assert (EP : 2 ^ (- e) = 2 * 2 ^ (- e - 1)).
    { rewrite <- Z.pow_succ_r by lia. f_equal. lia. }
    rewrite EP in *. apply half_even_unique; [lia |].
    change (2 ^ 53) with (2 * 2 ^ 52) in HX. lia.
  - destruct (Z.ltb_spec 971 e) as [| _]; [lia |].
    exists (Z.to_pos m), e. split; [reflexivity |].
    unfold hundredths. rewrite Z2Pos.id by assumption.
    replace (Z.max e 0) with 0 by lia.
    replace (Z.max (- e) 0) with (- e) by lia.
    change (2 ^ 0) with 1. rewrite Z.mul_1_r.
    apply half_even_unique; lia.
Qed.

Lemma pow2_compare (a t : Z) :
  0 <= a -> 0 <= t ->
  (a <= t /\ 2 ^ a <= 2 ^ t)
  \/ (a = t + 1 /\ 2 ^ a = 2 * 2 ^ t)
  \/ (a = t + 2 /\ 2 ^ a = 4 * 2 ^ t)
  \/ (t + 3 <= a /\ 8 * 2 ^ t <= 2 ^ a).
Proof.
  intros Ha Ht.
  assert (H : a <= t \/ a = t + 1 \/ a = t + 2 \/ t + 3 <= a) by lia.
  destruct H as [H | [-> | [-> | H]]].
  - left. split; [assumption | apply Z.pow_le_mono_r; lia].
  - right. left. split; [reflexivity |].
    rewrite Z.pow_add_r by lia. change (2 ^ 1) with 2. ring.
  - right. right. left. split; [reflexivity |].
    rewrite Z.pow_add_r by lia. change (2 ^ 2) with 4. ring.
  - right. right. right. split; [assumption |].
    change 8 with (2 ^ 3). rewrite <- Z.pow_add_r by lia.
    apply Z.pow_le_mono_r; lia.
Qed.

(** From [2 ^ 46] on the hundredths are finer than the floats: the float
    read from its own hundredths is itself. *)
Lemma nearest_float_large (s : bool) (mx : positive) (ex n d : Z) :
  is_float (S754_finite s mx ex) = true ->
  0 < n -> 0 < d -> 100 * n = hundredths mx ex * d ->
  -6 <= floor_log2 n d - 52 ->
  nearest_float s n d = S754_finite s mx ex.
Proof.
  intros Hx Hn Hd Hk Hlg.
  destruct (float_bounds _ _ _ Hx) as (Hmx & Hex & Hnorm).
  pose proof (floor_log2_spec Hn Hd) as Hspec. cbv zeta in Hspec.
  unfold nearest_float. cbv zeta.
  set (lg := floor_log2 n d) in *. clearbody lg.
  replace (Z.max (lg - 52) (-1074)) with (lg - 52) by lia.
  replace (Z.max lg 0) with lg in Hspec by lia.
  replace (Z.max (- lg) 0) with 0 in Hspec by lia.
  change (2 ^ 0) with 1 in Hspec. rewrite Z.mul_1_r in Hspec.
  assert (EG : 2 ^ lg = 2 ^ 46 * 2 ^ (lg - 46)).
  { rewrite <- Z.pow_add_r by lia. f_equal. lia. }
  assert (HG : 1 <= 2 ^ (lg - 46)).
  { change 1 with (2 ^ 0). apply Z.pow_le_mono_r; lia. }
  rewrite (@half_even_pow2_den n d (lg - 52) 6 Hd) by lia.
  replace (lg - 52 + 6) with (lg - 46) by lia.
  rewrite EG in Hspec. clear EG.
  change (2 ^ 6) with 64. change (2 ^ 46) with 70368744177664 in Hspec.
  change (2 ^ 53) with 9007199254740992 in *.
  change (2 ^ 52) with 4503599627370496 in *.
  set (k := hundredths mx ex) in *.
  assert (Hk1 : 7036874417766400 * 2 ^ (lg - 46) <= k) by nia.
  assert (Hk2 : k < 14073748835532800 * 2 ^ (lg - 46)) by nia.
  (* the exponent of [x] is not below -7 *)
  assert (Hex7 : -7 <= ex).
  { destruct (Z.le_gt_cases (-7) ex) as [| Hlow]; [assumption | exfalso].
    pose proof (@half_even_spec (100 * Zpos mx * 2 ^ Z.max ex 0)
                  (2 ^ Z.max (- ex) 0)) as Hh.
    fold (hundredths mx ex) in Hh. fold k in Hh.
    replace (Z.max ex 0) with 0 in Hh by lia.
    replace (Z.max (- ex) 0) with (- ex) in Hh by lia.
    change (2 ^ 0) with 1 in Hh. rewrite Z.mul_1_r in Hh.
    assert (HP : 2 ^ 8 <= 2 ^ (- ex)) by (apply Z.pow_le_mono_r; lia).
    set (P := 2 ^ (- ex)) in *. clearbody P.
    specialize (Hh ltac:(lia)). change (2 ^ 8) with 256 in HP. nia. }
  assert (Hm52 : 4503599627370496 <= Zpos mx) by (apply Hnorm; lia).
  (* the hundredths of [x] over 128 *)
  pose proof (@half_even_spec (100 * Zpos mx * 2 ^ (ex + 7)) (2 ^ 7) eq_refl)
    as Hh.
  rewrite <- (@half_even_pow2_num (100 * Zpos mx) ex 7) in Hh by lia.
  fold (hundredths mx ex) in Hh. fold k in Hh. clearbody k.
  change (2 ^ 7) with 128 in Hh.
  (* the exponents of [x] and of the float read *)
  pose proof (@pow2_compare (ex + 7) (lg - 46)) as Hcmp.
  specialize (Hcmp ltac:(lia) ltac:(lia)).
  set (G := 2 ^ (lg - 46)) in *. set (A := 2 ^ (ex + 7)) in *.
  clearbody G A.
  set (m := Zpos mx) in *.
  assert (Emx : mx = Z.to_pos m) by (unfold m; now rewrite Pos2Z.id).
  clearbody m.
  assert (HmA1 : m * A <= 9007199254740991 * A) by nia.
  assert (HmA2 : 4503599627370496 * A <= m * A) by nia.
  destruct Hcmp as [[Hae HAG] | [[Hae HAG] | [[Hae HAG] | [Hae HAG]]]].
  - exfalso. lia.
  - (* the same exponent *)
    assert (Hm : half_even (n * 64) (d * G) = m).
    { apply half_even_unique; [nia |].
      assert (E : 100 * (m * (d * G) - n * 64) = d * (100 * m * G - 64 * k)).
      { replace (100 * (m * (d * G) - n * 64))
          with (100 * m * d * G - 64 * (100 * n)) by ring.
        rewrite Hk. ring. }
      assert (-32 <= 100 * m * G - 64 * k <= 32) by nia.
      nia. }
    rewrite Hm.
    destruct (Z.eqb_spec m 0) as [| _]; [lia |].
    destruct (Z.eqb_spec m 9007199254740992) as [| _]; [lia |].
    destruct (Z.ltb_spec 971 (lg - 52)) as [| _]; [lia |].
    rewrite Emx. f_equal. lia.
  - (* [x] is the power of two above *)
    assert (Hm2 : m = 4503599627370496) by nia.
    assert (Hm : half_even (n * 64) (d * G) = 9007199254740992).
    { apply half_even_unique; [nia |].
      assert (E : 100 * (9007199254740992 * (d * G) - n * 64)
                  = d * (100 * 9007199254740992 * G - 64 * k)).
      { replace (100 * (9007199254740992 * (d * G) - n * 64))
          with (100 * 9007199254740992 * d * G - 64 * (100 * n)) by ring.
        rewrite Hk. ring. }
      assert (-32 <= 100 * 9007199254740992 * G - 64 * k <= 32) by nia.
      nia. }
    rewrite Hm. cbn [Z.eqb Pos.eqb].
    destruct (Z.ltb_spec 971 (lg - 52 + 1)) as [| _]; [lia |].
    rewrite Emx, Hm2. f_equal. lia.
  - exfalso. nia.
Qed.

Lemma nearest_float_hundredths (s : bool) (mx : positive) (ex n d : Z) :
  is_float (S754_finite s mx ex) = true ->
  0 < n -> 0 < d -> 100 * n = hundredths mx ex * d ->
  exists my ey,
    nearest_float s n d = S754_finite s my ey
    /\ hundredths my ey = hundredths mx ex.
Proof.
  intros Hx Hn Hd Hk.
  destruct (Z.le_gt_cases (Z.max (floor_log2 n d - 52) (-1074)) (-7))
    as [He | He].
  - now apply nearest_float_small.
  - exists mx, ex. split; [| reflexivity].
    apply nearest_float_large; trivial. lia.
Qed.

(** ** Numbers as text: reading back what was written *)

Lemma int_digits_app (a b : string) (acc : Z) :
  int_digits acc (a ++ b) = int_digits (int_digits acc a) b.
Proof.
  revert acc. induction a as [| c a IH]; intros acc; [reflexivity |].
  cbn. apply IH.
Qed.

Lemma dec_digits_value (fuel : nat) :
  forall (n : Z) (rest : string),
    0 <= n < 2 ^ Z.of_nat fuel ->
    exists ds,
      dec_digits fuel n rest = ds ++ rest
      /\ forall acc, int_digits acc ds
                     = acc * 10 ^ Z.of_nat (String.length ds) + n.
Proof.
  induction fuel as [| fuel IH]; intros n rest Hn.
  - exists "". split; [reflexivity |]. intros acc. cbn in *. lia.
  - cbn [dec_digits].
    assert (Hd : 0 <= n mod 10 < 10) by (apply Z.mod_pos_bound; lia).
    destruct (digit_char_digit Hd) as [_ Hv].
    destruct (Z.ltb_spec n 10) as [Hlt | Hge].
    + exists (String (digit_char (n mod 10)) ""). split; [reflexivity |].
      intros acc. cbn. rewrite Hv, Z.mod_small by lia. lia.
    + destruct (IH (n / 10) (String (digit_char (n mod 10)) rest))
        as (ds & Eds & Hds).
      { rewrite Nat2Z.inj_succ, Z.pow_succ_r in Hn by lia.
        split; [apply Z.div_pos; lia |].
        apply Z.div_lt_upper_bound; lia. }
      exists (ds ++ String (digit_char (n mod 10)) ""). split.
      * rewrite Eds, append_assoc. reflexivity.
      * intros acc. rewrite int_digits_app, Hds. cbn [int_digits].
        rewrite Hv.
        replace (String.length (ds ++ String (digit_char (n mod 10)) ""))
          with (S (String.length ds)).
        -- rewrite Nat2Z.inj_succ, Z.pow_succ_r by lia.
           pose proof (Z.div_mod n 10 ltac:(lia)). lia.
        -- clear. induction ds as [| c ds IHds]; cbn; [reflexivity |].
           now rewrite <- IHds.
Qed.

Lemma str_nonneg_value (n : Z) :
  0 <= n ->
  forall acc,
    int_digits acc (str_nonneg n)
    = acc * 10 ^ Z.of_nat (String.length (str_nonneg n)) + n.
Proof.
  intros Hn acc. unfold str_nonneg.
  destruct (@dec_digits_value (S (Z.to_nat (Z.log2 n))) n "") as (ds & E & H).
  - split; [assumption |].
    rewrite Nat2Z.inj_succ, Z2Nat.id by apply Z.log2_nonneg.
    destruct (Z.eq_dec n 0) as [-> | Hne]; [reflexivity |].
    apply Z.log2_spec. lia.
  - rewrite E, append_empty_r. apply H.
Qed.

(** ** Normalizers: [_format_rating] *)

Lemma digit_char_zero (d : Z) :
  0 <= d < 10 ->
  Ascii.eqb "0" (digit_char d) = (d =? 0)
  /\ Ascii.eqb "." (digit_char d) = false.
Proof.
  intros H.
  assert (E : d = 0 \/ d = 1 \/ d = 2 \/ d = 3 \/ d = 4 \/ d = 5 \/ d = 6
              \/ d = 7 \/ d = 8 \/ d = 9) by lia.
  repeat (destruct E as [-> | E]; [now split |]). now subst.
Qed.

Lemma sign_digits_no_point (s : bool) (ds : string) :
  all_chars is_digit ds = true ->
  all_chars (fun c => negb (Ascii.eqb "." c)) (sign_str s ++ ds) = true.
Proof.
  intros H. rewrite all_chars_app, sign_str_no_point.
  revert H. apply all_chars_impl, not_point_digit.
Qed.

(** What [_format_rating] leaves of [k] hundredths written with two places:
    the places that are not trailing zeros, and the point if any is left. *)
Lemma strip_fixed2 (s : bool) (k : Z) :
  rstrip_char "." (rstrip_char "0" (fixed2 s k))
  = sign_str s ++ str_nonneg (k / 100)
      ++ (if k mod 10 =? 0
          then if k / 10 mod 10 =? 0 then ""
               else String "." (String (digit_char (k / 10 mod 10)) "")
          else String "." (String (digit_char (k / 10 mod 10))
                             (String (digit_char (k mod 10)) ""))).
Proof.
  unfold fixed2, rstrip_char.
  assert (H1 : 0 <= k / 10 mod 10 < 10) by (apply Z.mod_pos_bound; lia).
  assert (H2 : 0 <= k mod 10 < 10) by (apply Z.mod_pos_bound; lia).
  destruct (digit_char_zero H1) as [Z1 P1].
  destruct (digit_char_zero H2) as [Z2 P2].
  set (d1 := digit_char (k / 10 mod 10)) in *.
  set (d2 := digit_char (k mod 10)) in *. clearbody d1 d2.
  pose proof (@sign_digits_no_point s _ (str_nonneg_digits (k / 100))) as HX.
  cbn [append]. rewrite <- !append_assoc.
  set (X := sign_str s ++ str_nonneg (k / 100)) in *. clearbody X.
  rewrite (rstrip_app (Ascii.eqb "0") X). cbn [append rstrip].
  rewrite Z2, Z1. cbn [Ascii.eqb Bool.eqb].
  destruct (k mod 10 =? 0); [destruct (k / 10 mod 10 =? 0) |];
    rewrite (rstrip_app (Ascii.eqb ".") X); cbn [rstrip];
    rewrite ?P1, ?P2, ?Ascii.eqb_refl; [| reflexivity | reflexivity].
  rewrite append_empty_r. now apply rstrip_none.
Qed.

Lemma float_of_decimal_quotient (s : bool) (m scale : Z) :
  scale <= 0 ->
  float_of_decimal s m scale
  = if m =? 0 then S754_zero s else nearest_float s m (10 ^ (- scale)).
Proof.
  intros H. unfold float_of_decimal.
  replace (Z.max scale 0) with 0 by lia.
  replace (Z.max (- scale) 0) with (- scale) by lia.
  change (10 ^ 0) with 1. now rewrite Z.mul_1_r.
Qed.

(** Reading back [k] hundredths as [_format_rating] leaves them gives the
    float of [k / 100]. *)
Lemma clean_float_fixed2 (s : bool) (k : Z) :
  0 <= k ->
  exists n d,
    0 < d /\ 100 * n = k * d
    /\ _clean_float (rstrip_char "." (rstrip_char "0" (fixed2 s k)))
       = Ok (if n =? 0 then S754_zero s else nearest_float s n d).
Proof.
  intros Hk. rewrite strip_fixed2.
  assert (Hq : 0 <= k / 100) by (apply Z.div_pos; lia).
  pose proof (str_nonneg_digits (k / 100)) as HI.
  pose proof (@str_nonneg_nonempty (k / 100)) as HI0.
  pose proof (str_nonneg_value Hq 0) as HIv. cbn [Z.mul Z.add] in HIv.
  set (I := str_nonneg (k / 100)) in *. clearbody I.
  assert (H1 : 0 <= k / 10 mod 10 < 10) by (apply Z.mod_pos_bound; lia).
  assert (H2 : 0 <= k mod 10 < 10) by (apply Z.mod_pos_bound; lia).
  destruct (digit_char_digit H1) as [D1 V1].
  destruct (digit_char_digit H2) as [D2 V2].
  set (d1 := digit_char (k / 10 mod 10)) in *.
  set (d2 := digit_char (k mod 10)) in *. clearbody d1 d2.
  destruct (Z.eqb_spec (k mod 10) 0) as [E2 | E2];
    [destruct (Z.eqb_spec (k / 10 mod 10) 0) as [E1 | E1] |].
  - exists (k / 100), 1. split; [lia |]. split.
    + clear - E1 E2. Z.div_mod_to_equations. lia.
    + rewrite append_empty_r, clean_float_numeric, py_float_digits; trivial.
      * rewrite HIv, float_of_decimal_quotient by lia. reflexivity.
      * now rewrite all_chars_app, sign_str_numeric, all_digits_numeric.
  - exists (k / 10), 10. split; [lia |]. split.
    + clear - E2. Z.div_mod_to_equations. lia.
    + rewrite clean_float_numeric, py_float_point; trivial.
      * rewrite int_digits_app, HIv. cbn [int_digits String.length].
        rewrite V1, float_of_decimal_quotient by lia.
        replace (k / 100 * 10 + k / 10 mod 10) with (k / 10)
          by (clear; Z.div_mod_to_equations; lia).
        reflexivity.
      * cbn. now rewrite D1.
      * now apply append_nonempty_l.
      * rewrite !all_chars_app, sign_str_numeric, all_digits_numeric by trivial.
        cbn. unfold is_numeric. now rewrite D1.
  - exists k, 100. split; [lia |]. split; [ring |].
    rewrite clean_float_numeric, py_float_point; trivial.
    + rewrite int_digits_app, HIv. cbn [int_digits String.length].
      rewrite V1, V2, float_of_decimal_quotient by lia.
      replace ((k / 100 * 10 + k / 10 mod 10) * 10 + k mod 10) with k
        by (clear; Z.div_mod_to_equations; lia).
      reflexivity.
    + cbn. now rewrite D1, D2.
    + now apply append_nonempty_l.
    + rewrite !all_chars_app, sign_str_numeric, all_digits_numeric by trivial.
      cbn. unfold is_numeric. now rewrite D1, D2.
Qed.

(** C6.  Formatting is stable: the text that [_format_rating] gives for a
    float reads back, by [_clean_float], as a float that [_format_rating]
    gives the same text for. *)
Theorem format_rating_stable (x : spec_float) :
  is_float x = true ->
  exists y,
    _clean_float (_format_rating x) = Ok y
    /\ is_float y = true
    /\ _format_rating y = _format_rating x.
Proof.
  intros Hx.
  cut (exists y, _clean_float (_format_rating x) = Ok y
                 /\ _format_rating y = _format_rating x).
  { intros (y & Hy & E). exists y. repeat split; try assumption.
    exact (py_float_is_float _ Hy). }
  destruct x as [s | s | | s m e].
  - exists (S754_zero s). now destruct s.
  - exists (S754_infinity s). now destruct s.
  - now exists S754_nan.
  - unfold _format_rating at 1 3. cbn [format_2f].
    assert (Hk : 0 <= hundredths m e).
    { apply half_even_nonneg; [| apply Z.pow_pos_nonneg; lia].
      apply Z.mul_nonneg_nonneg; [lia | apply Z.pow_nonneg; lia]. }
    destruct (clean_float_fixed2 s Hk) as (n & d & Hd & Hn & ->).
    destruct (Z.eqb_spec n 0) as [-> | Hn0].
    + exists (S754_zero s). split; [reflexivity |].
      assert (E : hundredths m e = 0) by nia. rewrite E. now destruct s.
    + assert (Hpos : 0 < n) by nia.
      destruct (@nearest_float_hundredths s m e n d Hx Hpos Hd Hn)
        as (my & ey & -> & E).
      exists (S754_finite s my ey). split; [reflexivity |].
      unfold _format_rating. cbn [format_2f]. now rewrite E.
Qed.

Lemma format_rating_stable_witness :
  exists y,
    _clean_float (_format_rating four_and_a_half) = Ok y
    /\ is_float y = true
    /\ _format_rating y = _format_rating four_and_a_half.
Proof. apply format_rating_stable. reflexivity. Defined.

Example format_rating_trims :
  _format_rating four_and_a_half = "4.5"
  /\ _format_rating (S754_finite false 4503599627370496 (-50)) = "4"
  /\ _format_rating (S754_finite false 4503599627370496 (-55)) = "0.12"
  /\ _format_rating (S754_finite true 4503599627370496 (-60)) = "-0".
Proof. repeat split; reflexivity. Qed.

(** * Further properties *)

(** ** Source Resolver: when it raises, and what a result tells *)

Lemma pick_source_url_raises (b : book) :
  truthy (get b "url") = false -> vendors_nested b = false ->
  pick_source_url b = Raise (AttributeError "get").
Proof.
  intros Hp Hs. unfold pick_source_url. rewrite Hp.
  unfold vendors_nested in Hs. unfold py_or.
  destruct (get b "vendors") as [| | | | | | vendors] eqn:Hv;
    try (apply negb_false_iff in Hs; rewrite Hs; reflexivity).
  destruct (truthy (JObj vendors)) eqn:Ht.
  - cbn [method_get bind].
    destruct (get vendors "rr") as [| | | | | | rr];
      try (apply negb_false_iff in Hs; rewrite Hs; reflexivity).
    discriminate.
  - destruct vendors; [| discriminate]. discriminate.
Qed.

Lemma pick_source_url_returns (b : book) :
  truthy (get b "url") = true \/ vendors_nested b = true ->
  is_ok (pick_source_url b) = true.
Proof.
  intros [Hp | Hs].
  - now rewrite (pick_source_url_primary _ Hp).
  - destruct (truthy (get b "url")) eqn:Hp.
    + now rewrite (pick_source_url_primary _ Hp).
    + destruct (present_nonempty (vendors_rr_url b)) eqn:Hn.
      * destruct (vendors_rr_url b) as [u |] eqn:E; [| discriminate].
        now rewrite (pick_source_url_secondary _ Hp E Hn).
      * now rewrite (pick_source_url_none _ Hp Hs Hn).
Qed.

(** X1.  [pick_source_url] raises exactly on a record with no primary URL
    whose [vendors], or the [rr] of whose [vendors], is set to something
    that is no mapping; what it raises then is the [AttributeError] of the
    missing method [get]. *)
Theorem pick_source_url_error (b : book) :
  is_ok (pick_source_url b) = truthy (get b "url") || vendors_nested b
  /\ forall e, pick_source_url b = Raise e -> e = AttributeError "get".
Proof.
  destruct (truthy (get b "url")) eqn:Hp; cbn [orb].
  - rewrite (pick_source_url_primary _ Hp). split; [reflexivity | discriminate].
  - destruct (vendors_nested b) eqn:Hs.
    + pose proof (pick_source_url_returns b (or_intror Hs)) as H.
      split; [assumption |]. intros e He. now rewrite He in H.
    + rewrite (pick_source_url_raises _ Hp Hs).
      split; [reflexivity | now intros e [= <-]].
Qed.

Lemma pick_source_url_error_witness :
  pick_source_url book_malformed = Raise (AttributeError "get").
Proof.
  destruct (pick_source_url book_malformed) as [r | e] eqn:E;
    [discriminate |].
  now rewrite (proj2 (pick_source_url_error book_malformed) e E).
Defined.

Lemma pick_source_url_inv (b : book) (source : option string) (url : json) :
  pick_source_url b = Ok (source, url) ->
  (source = Some "goodreads" /\ url = get b "url" /\ truthy url = true)
  \/ (source = Some "royalroad" /\ vendors_rr_url b = Some url
      /\ truthy url = true /\ truthy (get b "url") = false)
  \/ (source = None /\ url = JNull /\ truthy (get b "url") = false
      /\ present_nonempty (vendors_rr_url b) = false).
Proof.
  destruct (truthy (get b "url")) eqn:Hp.
  - rewrite (pick_source_url_primary _ Hp). intros [= <- <-]. now left.
  - destruct (vendors_nested b) eqn:Hs.
    + destruct (present_nonempty (vendors_rr_url b)) eqn:Hn.
      * destruct (vendors_rr_url b) as [u |] eqn:E; [| discriminate].
        rewrite (pick_source_url_secondary _ Hp E Hn).
        intros [= <- <-]. right. left. now repeat split.
      * rewrite (pick_source_url_none _ Hp Hs Hn).
        intros [= <- <-]. right. right. now repeat split.
    + now rewrite (pick_source_url_raises _ Hp Hs).
Qed.

(** X2.  What [pick_source_url] returns is one of three things: the source
    [goodreads] with the true value of [url]; the source [royalroad] with
    the true value of [vendors.rr.url], on a record without a primary URL;
    or no source and no URL, on a record with neither.  So a source never
    comes without a URL. *)
Theorem pick_source_url_result (b : book) (source : option string)
    (url : json) :
  pick_source_url b = Ok (source, url) ->
  (source = Some "goodreads" /\ url = get b "url" /\ truthy url = true)
  \/ (source = Some "royalroad" /\ vendors_rr_url b = Some url
      /\ truthy url = true /\ truthy (get b "url") = false)
  \/ (source = None /\ url = JNull /\ truthy (get b "url") = false
      /\ present_nonempty (vendors_rr_url b) = false).
Proof. apply pick_source_url_inv. Qed.

Lemma pick_source_url_result_witness :
  (Some "royalroad" = Some "goodreads"
   /\ JStr "https://rr.example/2" = get book_secondary "url"
   /\ truthy (JStr "https://rr.example/2") = true)
  \/ (Some "royalroad" = Some "royalroad"
      /\ vendors_rr_url book_secondary = Some (JStr "https://rr.example/2")
      /\ truthy (JStr "https://rr.example/2") = true
      /\ truthy (get book_secondary "url") = false)
  \/ (Some "royalroad" = None /\ JStr "https://rr.example/2" = JNull
      /\ truthy (get book_secondary "url") = false
      /\ present_nonempty (vendors_rr_url book_secondary) = false).
Proof. apply (@pick_source_url_result book_secondary). reflexivity. Defined.

(** ** Reconciler: running it again, and running into an exception *)

Lemma get_overwritten (b : book) (entry : string * string) (k : string) :
  k <> "rating" -> k <> "r_count" -> get (overwritten b entry) k = get b k.
Proof.
  intros H1 H2. unfold get, get_default.
  now rewrite dict_get_overwritten.
Qed.

(** Writing the rating fields does not change what a record resolves to. *)
Lemma pick_source_url_overwritten (b : book) (entry : string * string) :
  pick_source_url (overwritten b entry) = pick_source_url b.
Proof.
  unfold pick_source_url. now rewrite !get_overwritten by discriminate.
Qed.

Lemma resolved_entry_overwritten (cache : pydict (string * string))
    (b : book) (entry : string * string) :
  resolved_entry cache (overwritten b entry) = resolved_entry cache b.
Proof. unfold resolved_entry. now rewrite pick_source_url_overwritten. Qed.

Lemma ne_str_refl (s : string) : ne_str (JStr s) s = false.
Proof. cbn. now rewrite String.eqb_refl. Qed.

(** What one turn of the loop returns, it returns again on the record it
    left, without another assignment. *)
Lemma apply_cache_step_again (b b' : book) (cache : pydict (string * string))
    (assigned : bool) :
  apply_cache_step b cache = Ok (b', assigned) ->
  apply_cache_step b' cache = Ok (b', false)
  /\ resolved_entry cache b' = resolved_entry cache b
  /\ in_sync cache b'.
Proof.
  unfold apply_cache_step, in_sync, resolved_entry.
  destruct (pick_source_url b) as [[source url] |] eqn:Hp; cbn [bind];
    [| discriminate].
  destruct (truthy url) eqn:Hu; cbn [negb].
  2:{ intros [= <- _]. rewrite Hp. cbn [bind]. rewrite Hu.
      split; [reflexivity | split; [reflexivity | discriminate]]. }
  unfold lookup. destruct (hashable url) eqn:Hh; cbn [bind]; [| discriminate].
  destruct (find cache url) as [[rating_str count_str] |] eqn:Hf.
  2:{ intros [= <- _]. rewrite Hp. cbn [bind]. rewrite Hu, Hh. cbn [negb bind].
      rewrite Hf. split; [reflexivity | split; [reflexivity | discriminate]]. }
  change (get_default b "rating" (JStr "")) with (stored b "rating").
  change (get_default b "r_count" (JStr "")) with (stored b "r_count").
  destruct (ne_str (stored b "rating") rating_str
            || ne_str (stored b "r_count") count_str) eqn:Hne.
  - intros [= <- _].
    change (dict_set (dict_set b "rating" (JStr rating_str)) "r_count"
              (JStr count_str))
      with (overwritten b (rating_str, count_str)).
    rewrite pick_source_url_overwritten, Hp. cbn [bind]. rewrite Hu, Hh.
    cbn [negb bind]. rewrite Hf.
    destruct (stored_overwritten b (rating_str, count_str)) as [Hr Hc].
    cbn [fst snd] in Hr, Hc.
    change (get_default (overwritten b (rating_str, count_str)) "rating"
              (JStr ""))
      with (stored (overwritten b (rating_str, count_str)) "rating").
    change (get_default (overwritten b (rating_str, count_str)) "r_count"
              (JStr ""))
      with (stored (overwritten b (rating_str, count_str)) "r_count").
    rewrite Hr, Hc, !ne_str_refl. cbn [orb].
    split; [reflexivity | split; [reflexivity |]].
    intros en [= <-]. now split.
  - intros [= <- _]. rewrite Hp. cbn [bind]. rewrite Hu, Hh. cbn [negb bind].
    rewrite Hf.
    change (get_default b "rating" (JStr "")) with (stored b "rating").
    change (get_default b "r_count" (JStr "")) with (stored b "r_count").
    rewrite Hne. apply orb_false_iff in Hne as [Hr Hc].
    apply ne_str_false in Hr, Hc.
    split; [reflexivity | split; [reflexivity |]].
    intros en [= <-]. now split.
Qed.

Lemma apply_cache_from_again (books : list book)
    (cache : pydict (string * string)) :
  forall changed changed' : bool,
    apply_cache_from changed'
      (fst (apply_cache_from changed books cache)) cache
    = (fst (apply_cache_from changed books cache),
       match snd (apply_cache_from changed books cache) with
       | Ok _ => Ok changed'
       | Raise e => Raise e
       end).
Proof.
  induction books as [| b rest IH]; intros changed changed'; [reflexivity |].
  cbn [apply_cache_from].
  destruct (apply_cache_step b cache) as [[b' assigned] | e] eqn:E.
  - specialize (IH (assigned || changed)%bool changed').
    destruct (apply_cache_from (assigned || changed) rest cache)
      as [rest' r].
    cbn [fst snd] in *. cbn [apply_cache_from].
    destruct (apply_cache_step_again _ _ E) as (-> & _).
    cbn [orb]. now rewrite IH.
  - cbn [fst snd apply_cache_from]. now rewrite E.
Qed.

(** X3.  Reconciling is idempotent: [apply_cache] run again with the same
    cache on the records that a first run left changes none of them and
    returns [False], or raises what the first run raised. *)
Theorem apply_cache_idempotent (books : list book)
    (cache : pydict (string * string)) :
  apply_cache (fst (apply_cache books cache)) cache
  = (fst (apply_cache books cache), settled (snd (apply_cache books cache))).
Proof. unfold apply_cache. now rewrite apply_cache_from_again. Qed.

Lemma apply_cache_from_in_sync (books : list book)
    (cache : pydict (string * string)) :
  forall (changed : bool) (books' : list book) (r : bool),
    apply_cache_from changed books cache = (books', Ok r) ->
    Forall (in_sync cache) books'
    /\ Forall2 (fun b b' => resolved_entry cache b' = resolved_entry cache b)
         books books'.
Proof.
  induction books as [| b rest IH]; intros changed books' r;
    cbn [apply_cache_from].
  - intros [= <- _]. split; constructor.
  - destruct (apply_cache_step b cache) as [[b' assigned] | e] eqn:E;
      [| discriminate].
    destruct (apply_cache_from (assigned || changed) rest cache)
      as [rest' r'] eqn:Er.
    intros [= <- ->]. destruct (IH _ _ _ Er) as [H1 H2].
    destruct (apply_cache_step_again _ _ E) as (_ & Hres & Hsync).
    split; now constructor.
Qed.

(** X4.  When [apply_cache] returns, the records are in step with the
    cache: every record resolves to what it resolved to before, and every
    record that resolves to a URL of the cache stores the cached pair in
    [rating] and [r_count]. *)
Theorem apply_cache_in_sync (books books' : list book)
    (cache : pydict (string * string)) (changed : bool) :
  apply_cache books cache = (books', Ok changed) ->
  Forall (in_sync cache) books'
  /\ Forall2 (fun b b' => resolved_entry cache b' = resolved_entry cache b)
       books books'.
Proof. apply apply_cache_from_in_sync. Qed.

Lemma apply_cache_in_sync_witness :
  Forall (in_sync ratings_cache)
    (fst (apply_cache [book_stale; book_unlisted; book_fresh] ratings_cache)).
Proof.
  exact (proj1 (@apply_cache_in_sync [book_stale; book_unlisted; book_fresh]
                  _ ratings_cache true eq_refl)).
Defined.

Lemma apply_cache_from_raise (pre post : list book) (bad : book)
    (cache : pydict (string * string)) (e : exn) :
  forall changed : bool,
    Forall (fun b => is_ok (apply_cache_step b cache) = true) pre ->
    apply_cache_step bad cache = Raise e ->
    apply_cache_from changed (pre ++ bad :: post) cache
    = ((fst (apply_cache_from changed pre cache) ++ bad :: post)%list,
       Raise e).
Proof.
  intros changed Hpre Hbad. revert changed.
  induction Hpre as [| b pre Hb _ IH]; intros changed;
    cbn [app apply_cache_from fst].
  - now rewrite Hbad.
  - destruct (apply_cache_step b cache) as [[b' assigned] |];
      [| discriminate].
    rewrite IH.
    now destruct (apply_cache_from (assigned || changed) pre cache).
Qed.

(** X5.  A record whose resolution raises ends the run of [apply_cache]
    with that exception; the records before it have been reconciled by then,
    as a run on them alone would, and the record and those after it are as
    they were. *)
Theorem apply_cache_raises (pre post : list book) (bad : book)
    (cache : pydict (string * string)) (e : exn) :
  Forall (fun b => is_ok (apply_cache_step b cache) = true) pre ->
  pick_source_url bad = Raise e ->
  apply_cache (pre ++ bad :: post) cache
  = ((fst (apply_cache pre cache) ++ bad :: post)%list, Raise e).
Proof.
  intros Hpre Hbad. apply apply_cache_from_raise; [assumption |].
  unfold apply_cache_step. now rewrite Hbad.
Qed.

Lemma apply_cache_raises_witness :
  apply_cache ([book_stale] ++ book_malformed :: [book_fresh]) ratings_cache
  = ((fst (apply_cache [book_stale] ratings_cache)
      ++ book_malformed :: [book_fresh])%list,
     Raise (AttributeError "get")).
Proof.
  apply apply_cache_raises; [repeat constructor | reflexivity].
Defined.

(** ** Target Builder: order, repetition, malformed records *)

Lemma build_targets_from_app (xs ys : list book) :
  forall targets : pydict string,
    build_targets_from targets (xs ++ ys)
    = bind (build_targets_from targets xs)
        (fun targets' => build_targets_from targets' ys).
Proof.
  induction xs as [| b xs IH]; intros targets; [reflexivity |].
  cbn [app build_targets_from].
  destruct (pick_source_url b) as [[[src |] url] | e]; cbn [bind];
    [| apply IH | reflexivity].
  destruct (negb _ || negb _); [apply IH |].
  destruct (setdefault targets url src); cbn [bind]; [apply IH | reflexivity].
Qed.

Lemma build_targets_from_extends (books : list book) :
  forall targets targets' : pydict string,
    build_targets_from targets books = Ok targets' ->
    exists rest, targets' = (targets ++ rest)%list.
Proof.
  induction books as [| b books IH]; intros targets targets';
    cbn [build_targets_from].
  - intros [= <-]. exists []. now rewrite app_nil_r.
  - destruct (pick_source_url b) as [[[src |] url] | e]; cbn [bind];
      [| apply IH | discriminate].
    destruct (negb _ || negb _); [apply IH |].
    unfold setdefault. destruct (hashable url); cbn [bind]; [| discriminate].
    destruct (find targets url).
    + apply IH.
    + intros H. apply IH in H as [rest ->].
      exists ((url, src) :: rest). now rewrite <- app_assoc.
Qed.

(** X6.  The work list is in first-seen order: the work list of a sequence
    of records begins with the work list of any sequence that it begins
    with, entry for entry, so that records further on only add entries at
    the end. *)
Theorem build_targets_prefix (xs ys : list book) (targets' : pydict string) :
  build_targets (xs ++ ys) = Ok targets' ->
  exists targets rest,
    build_targets xs = Ok targets /\ targets' = (targets ++ rest)%list.
Proof.
  unfold build_targets. rewrite build_targets_from_app.
  destruct (build_targets_from [] xs) as [targets |]; cbn [bind];
    [| discriminate].
  intros H. apply build_targets_from_extends in H as [rest ->].
  now exists targets, rest.
Qed.

Lemma build_targets_prefix_witness :
  exists targets rest,
    build_targets [book_both; book_unlisted] = Ok targets
    /\ [(JStr "https://g.example/1", "goodreads");
        (JStr "https://rr.example/2", "royalroad")]
       = (targets ++ rest)%list.
Proof.
  apply (@build_targets_prefix [book_both; book_unlisted]
           [book_conflict; book_secondary; book_both]).
  reflexivity.
Defined.

Lemma str_keyed_wf {V : Type} (d : pydict V) :
  str_keyed d -> NoDup (keys d) -> dict_wf d = true.
Proof.
  unfold str_keyed, keys. induction d as [| [k v] d IH]; [reflexivity |].
  cbn [map fst dict_wf]. intros Hk Hn.
  inversion Hk as [| ? ? [s ->] Hd]; subst.
  inversion Hn as [| ? ? Hnin Hnd]; subst. rewrite (IH Hd Hnd), andb_true_r.
  cbn [hashable andb]. apply negb_true_iff. unfold keys.
  destruct (existsb (key_eq (JStr s)) (map fst d)) eqn:E; [| reflexivity].
  apply existsb_exists in E as (k & Hin & Heq).
  rewrite Forall_forall in Hd. destruct (Hd _ Hin) as [t ->].
  cbn in Heq. apply String.eqb_eq in Heq as ->. contradiction.
Qed.

Lemma truthy_str (u : string) : truthy (JStr u) = true -> u <> "".
Proof. cbn. intros H ->. discriminate. Qed.

(** X7.  On records of the catalog what [build_targets] returns is a
    dictionary fit for the scrape driver: its keys are non-empty strings, no
    two of them equal, and each value is [goodreads] or [royalroad]. *)
Theorem build_targets_work_list (books : list book)
    (targets : pydict string) :
  Forall (fun b => record_ok b = true) books ->
  build_targets books = Ok targets -> work_list targets.
Proof.
  intros Hok Ht.
  destruct (@build_targets_from_spec books [] Hok)
    as (t & Ht' & Hstr & Hnd & Hin); [constructor | constructor |].
  unfold build_targets in Ht. rewrite Ht in Ht'. injection Ht' as <-.
  split; [now apply str_keyed_wf |].
  apply Forall_forall. intros [url source] Hmem.
  unfold str_keyed in Hstr. rewrite Forall_forall in Hstr.
  destruct (Hstr url) as [u ->].
  { unfold keys. apply in_map_iff. now exists (url, source). }
  apply Hin in Hmem as [[] | [_ (pre & b & post & _ & Hb & _)]].
  apply pick_source_url_inv in Hb. cbn [fst snd].
  destruct Hb as [(Hs & _ & Hu) | [(Hs & _ & Hu & _) | (Hs & _)]];
    [| | discriminate]; injection Hs as ->;
    (split; [exists u; split; [reflexivity | now apply truthy_str] | tauto]).
Qed.

Lemma build_targets_work_list_witness :
  work_list [(JStr "https://g.example/1", "goodreads");
             (JStr "https://rr.example/2", "royalroad")].
Proof.
  apply (@build_targets_work_list catalog_books);
    [repeat constructor | reflexivity].
Defined.

Lemma find_app_some {V : Type} (d r : pydict V) (k : json) (v : V) :
  find d k = Some v -> find (d ++ r)%list k = Some v.
Proof.
  induction d as [| [k' v'] d IH]; [discriminate |]. cbn.
  destruct (key_eq k' k); [trivial | exact IH].
Qed.

Lemma find_app_new {V : Type} (d : pydict V) (u : string) (v : V) :
  find d (JStr u) = None ->
  find (d ++ [(JStr u, v)])%list (JStr u) = Some v.
Proof.
  induction d as [| [k' v'] d IH]; cbn.
  - now rewrite String.eqb_refl.
  - destruct (key_eq k' (JStr u)); [discriminate | exact IH].
Qed.

(** Every URL that a record resolves to is a key of the work list. *)
Lemma build_targets_from_covers (books : list book) :
  forall targets targets' : pydict string,
    Forall (fun b => record_ok b = true) books ->
    build_targets_from targets books = Ok targets' ->
    forall b source u,
      In b books -> pick_source_url b = Ok (Some source, JStr u) ->
      find targets' (JStr u) <> None.
Proof.
  induction books as [| b0 books IH]; intros targets targets' Hok Ht b source u;
    [intros [] |].
  inversion Hok as [| ? ? Hb0 Hrest]; subst. cbn [build_targets_from] in Ht.
  intros [<- | Hin] Hb.
  - rewrite Hb in Ht. cbn [bind] in Ht.
    apply pick_source_url_inv in Hb.
    assert (Hs : source_truthy (Some source) = true /\ truthy (JStr u) = true).
    { destruct Hb as [(Hs & _ & Hu) | [(Hs & _ & Hu & _) | (Hs & _)]];
        [| | discriminate]; injection Hs as ->; now split. }
    destruct Hs as [Hs Hu]. rewrite Hs, Hu in Ht. cbn [negb orb] in Ht.
    unfold setdefault in Ht. cbn [hashable bind] in Ht.
    destruct (find targets (JStr u)) as [v |] eqn:Hf.
    + apply build_targets_from_extends in Ht as [rest ->].
      now rewrite (@find_app_some _ _ rest _ _ Hf).
    + apply build_targets_from_extends in Ht as [rest ->].
      now rewrite (@find_app_some _ _ rest _ _ (@find_app_new _ _ _ source Hf)).
  - destruct (record_ok_resolves _ Hb0) as [E | (src & u0 & E & Hs & Hu)];
      rewrite E in Ht; cbn [bind] in Ht.
    + exact (IH _ _ Hrest Ht b source u Hin Hb).
    + rewrite Hs, Hu in Ht. cbn [negb orb] in Ht.
      unfold setdefault in Ht. cbn [hashable bind] in Ht.
      exact (IH _ _ Hrest Ht b source u Hin Hb).
Qed.

(** Records that resolve to keys of the work list leave it as it is. *)
Lemma build_targets_from_known (books : list book) (targets : pydict string) :
  Forall (fun b => record_ok b = true) books ->
  (forall b source u,
      In b books -> pick_source_url b = Ok (Some source, JStr u) ->
      find targets (JStr u) <> None) ->
  build_targets_from targets books = Ok targets.
Proof.
  induction books as [| b books IH]; intros Hok Hknown; [reflexivity |].
  inversion Hok as [| ? ? Hb Hrest]; subst. cbn [build_targets_from].
  assert (IH' : build_targets_from targets books = Ok targets).
  { apply IH; [assumption |]. intros b' s u Hin. apply Hknown. now right. }
  destruct (record_ok_resolves _ Hb) as [E | (src & u & E & Hs & Hu)];
    rewrite E; cbn [bind]; [exact IH' |].
  rewrite Hs, Hu. cbn [negb orb]. unfold setdefault. cbn [hashable].
  specialize (Hknown b src u (or_introl eq_refl) E).
  destruct (find targets (JStr u)); [exact IH' | contradiction].
Qed.

(** X8.  A record that comes again adds nothing: the work list of records
    followed by records that are all among them is the work list of the
    records themselves. *)
Theorem build_targets_repeat (xs ys : list book) :
  Forall (fun b => record_ok b = true) xs -> incl ys xs ->
  build_targets (xs ++ ys)%list = build_targets xs.
Proof.
  intros Hok Hincl. unfold build_targets. rewrite build_targets_from_app.
  destruct (@build_targets_from_spec xs [] Hok) as (t & Ht & _);
    [constructor | constructor |].
  rewrite Ht. cbn [bind]. apply build_targets_from_known.
  - apply Forall_forall. intros b Hin. rewrite Forall_forall in Hok.
    apply Hok, Hincl, Hin.
  - intros b source u Hin Hb.
    exact (@build_targets_from_covers xs [] t Hok Ht b source u
             (Hincl _ Hin) Hb).
Qed.

Lemma build_targets_repeat_witness :
  build_targets (catalog_books ++ [book_secondary; book_both])%list
  = build_targets catalog_books.
Proof.
  apply build_targets_repeat.
  - repeat constructor.
  - intros b [<- | [<- | []]]; cbn; tauto.
Defined.

(** X9.  A record whose resolution raises makes [build_targets] raise the
    same, wherever in the sequence it stands after records that raise
    nothing: no work list is returned. *)
Theorem build_targets_raises (pre post : list book) (bad : book) (e : exn) :
  is_ok (build_targets pre) = true ->
  pick_source_url bad = Raise e ->
  build_targets (pre ++ bad :: post)%list = Raise e.
Proof.
  unfold build_targets. rewrite build_targets_from_app.
  destruct (build_targets_from [] pre); [| discriminate].
  intros _ Hbad. cbn [bind build_targets_from]. now rewrite Hbad.
Qed.

Lemma build_targets_raises_witness :
  build_targets (catalog_books ++ book_malformed :: [book_both])%list
  = Raise (AttributeError "get").
Proof. apply build_targets_raises; reflexivity. Defined.

(** ** Scrape Driver: the account of a run *)

Lemma existsb_incl {A : Type} (p : A -> bool) (xs ys : list A) :
  incl xs ys -> existsb p xs = true -> existsb p ys = true.
Proof.
  intros Hincl [x [Hin Hp]]%existsb_exists. apply existsb_exists.
  exists x. split; [apply Hincl, Hin | exact Hp].
Qed.

Section ScrapeDriverAccount.

Variables scrape_goodreads scrape_royalroad : json -> result (spec_float * Z).

Lemma entries_keys (targets : pydict string) :
  incl (keys (flat_map (entries scrape_goodreads scrape_royalroad) targets))
    (keys targets).
Proof.
  unfold keys. induction targets as [| t ts IH]; [easy |].
  cbn [flat_map map]. rewrite map_app. apply incl_app.
  - unfold entries.
    destruct (outcome_at scrape_goodreads scrape_royalroad t) as [[r c] |];
      cbn; [| easy].
    intros k [<- | []]. now left.
  - now apply incl_tl.
Qed.

Lemma entries_wf (targets : pydict string) :
  dict_wf targets = true ->
  dict_wf (flat_map (entries scrape_goodreads scrape_royalroad) targets)
  = true.
Proof.
  induction targets as [| [url source] ts IH]; [reflexivity |].
  cbn [dict_wf flat_map].
  intros [[Hh Hk]%andb_true_iff Hwf]%andb_true_iff.
  specialize (IH Hwf). unfold entries at 1.
  destruct (outcome_at scrape_goodreads scrape_royalroad (url, source))
    as [[r c] |]; cbn [entry_of app fst]; [| exact IH].
  cbn [dict_wf]. rewrite Hh, IH, andb_true_r. cbn [andb].
  apply negb_true_iff in Hk. apply negb_true_iff.
  destruct (existsb (key_eq url)
              (keys (flat_map (entries scrape_goodreads scrape_royalroad)
                       ts))) eqn:E; [| reflexivity].
  rewrite <- Hk. symmetry. exact (existsb_incl _ (entries_keys ts) E).
Qed.

Lemma entries_count (targets : pydict string) :
  (List.length (flat_map (entries scrape_goodreads scrape_royalroad) targets)
   + List.length (filter (failed scrape_goodreads scrape_royalroad) targets)
   = List.length targets)%nat.
Proof.
  induction targets as [| t ts IH]; [reflexivity |].
  cbn [flat_map filter]. rewrite length_app.
  unfold entries at 1, failed at 1, succeeded.
  destruct (outcome_at scrape_goodreads scrape_royalroad t) as [[r c] |];
    cbn [entry_of is_ok negb List.length]; lia.
Qed.

(** X10.  The account of a run: every target of the work list is either
    an entry of the cache or a counted failure, and the cache is a
    dictionary again (hashable keys, none twice). *)
Theorem scrape_targets_account (targets : pydict string) :
  dict_wf targets = true ->
  Z.of_nat (List.length
              (scrape_targets scrape_goodreads scrape_royalroad targets))
  + scrape_failures scrape_goodreads scrape_royalroad targets
  = Z.of_nat (List.length targets)
  /\ 0 <= scrape_failures scrape_goodreads scrape_royalroad targets
     <= Z.of_nat (List.length targets)
  /\ dict_wf (scrape_targets scrape_goodreads scrape_royalroad targets)
     = true.
Proof.
  intros Hwf. unfold scrape_targets, scrape_failures.
  rewrite scrape_loop_spec by (assumption || constructor).
  cbn [fst snd app]. pose proof (entries_count targets) as Hc.
  split; [lia | split; [lia |]]. now apply entries_wf.
Qed.

End ScrapeDriverAccount.

Lemma scrape_targets_account_witness :
  Z.of_nat (List.length
              (scrape_targets goodreads_up royalroad_down three_targets))
  + scrape_failures goodreads_up royalroad_down three_targets
  = 3.
Proof.
  exact (proj1 (@scrape_targets_account goodreads_up royalroad_down
                  three_targets eq_refl)).
Defined.

(** ** Normalizers: signs, and counts read back *)

Lemma sub_non_digits_digits (s : string) :
  all_chars is_digit s = true -> sub_non_digits s = s.
Proof.
  induction s as [| c s IH]; [reflexivity |]. cbn.
  destruct (is_digit c); [| discriminate]. intros H. now rewrite IH.
Qed.

Lemma sub_non_digits_all_digits (text : string) :
  all_chars is_digit (sub_non_digits text) = true.
Proof.
  induction text as [| c s IH]; [reflexivity |]. cbn [sub_non_digits].
  destruct (is_digit c) eqn:E; [| exact IH]. cbn [all_chars].
  now rewrite E.
Qed.

Lemma int_digits_below (s : string) :
  forall acc : Z,
    all_chars is_digit s = true -> 0 <= acc ->
    int_digits acc s < (acc + 1) * 10 ^ Z.of_nat (String.length s).
Proof.
  induction s as [| c s IH]; intros acc Hs Hacc.
  - cbn. lia.
  - cbn [all_chars] in Hs. apply andb_true_iff in Hs as [Hc Hs].
    unfold is_digit in Hc. apply andb_true_iff in Hc as [Hlo Hhi].
    apply Z.leb_le in Hlo, Hhi.
    cbn [int_digits String.length].
    rewrite Nat2Z.inj_succ, Z.pow_succ_r by lia.
    specialize (IH (acc * 10 + digit_val c) Hs).
    unfold digit_val in *.
    assert (0 < 10 ^ Z.of_nat (String.length s))
      by (apply Z.pow_pos_nonneg; lia).
    nia.
Qed.

Lemma dec_digits_length (fuel : nat) :
  forall (n : Z) (acc : string) (k : nat),
    0 <= n < 10 ^ Z.of_nat k -> (1 <= k)%nat ->
    (String.length (dec_digits fuel n acc) <= k + String.length acc)%nat.
Proof.
  induction fuel as [| fuel IH]; intros n acc k Hn Hk; cbn [dec_digits];
    [lia |].
  destruct (Z.ltb_spec n 10) as [Hlt | Hge]; [cbn [String.length]; lia |].
  destruct k as [| [| k]];
    [lia | change (10 ^ Z.of_nat 1) with 10 in Hn; lia |].
  specialize (IH (n / 10) (String (digit_char (n mod 10)) acc) (S k)).
  cbn [String.length] in IH.
  assert (Hq : 0 <= n / 10 < 10 ^ Z.of_nat (S k)).
  { rewrite (Nat2Z.inj_succ (S k)), Z.pow_succ_r in Hn by lia.
    split; [apply Z.div_pos; lia | apply Z.div_lt_upper_bound; lia]. }
  specialize (IH Hq ltac:(lia)). lia.
Qed.

(** The text of an [int] below [10 ^ k] has at most [k] digits. *)
Lemma str_nonneg_length (n : Z) (k : nat) :
  0 <= n < 10 ^ Z.of_nat k -> (1 <= k)%nat ->
  (String.length (str_nonneg n) <= k)%nat.
Proof.
  intros Hn Hk. unfold str_nonneg.
  pose proof (@dec_digits_length (S (Z.to_nat (Z.log2 n))) n "" k Hn Hk) as H.
  cbn [String.length] in H. lia.
Qed.

Lemma str_nonneg_within (n : Z) :
  0 <= n < 10 ^ max_str_digits ->
  Z.of_nat (String.length (str_nonneg n)) <= max_str_digits.
Proof.
  intros Hn.
  assert (H : (String.length (str_nonneg n) <= Z.to_nat max_str_digits)%nat).
  { apply str_nonneg_length.
    - now rewrite Z2Nat.id by (unfold max_str_digits; lia).
    - unfold max_str_digits. lia. }
  unfold max_str_digits in *. lia.
Qed.

Lemma clean_int_digits (pre s : string) :
  sub_non_digits pre = "" ->
  all_chars is_digit s = true -> s <> "" ->
  Z.of_nat (String.length s) <= max_str_digits ->
  _clean_int (pre ++ s) = Ok (int_digits 0 s).
Proof.
  intros Hpre Hs Hne Hlen. unfold _clean_int, py_int.
  assert (E : sub_non_digits (pre ++ s) = s).
  { rewrite <- (sub_non_digits_digits _ Hs) at 2. clear Hs Hne Hlen.
    induction pre as [| c pre IH]; [reflexivity |]. cbn in *.
    destruct (is_digit c); [discriminate | now apply IH]. }
  rewrite E. destruct (String.eqb s "") eqn:E0.
  - now apply String.eqb_eq in E0.
  - destruct (Z.ltb_spec max_str_digits (Z.of_nat (String.length s)));
      [lia | reflexivity].
Qed.

(** What [_clean_int] returns is an [int] that [str] converts. *)
Lemma clean_int_below (text : string) (n : Z) :
  _clean_int text = Ok n -> 0 <= n < 10 ^ max_str_digits.
Proof.
  unfold _clean_int, py_int.
  destruct (String.eqb (sub_non_digits text) ""); [discriminate |].
  destruct (Z.ltb_spec max_str_digits
              (Z.of_nat (String.length (sub_non_digits text))))
    as [| Hlen]; [discriminate |].
  intros [= <-].
  pose proof (sub_non_digits_all_digits text) as Hd.
  pose proof (@int_digits_below (sub_non_digits text) 0 Hd (Z.le_refl 0))
    as Hb.
  pose proof (@int_digits_nonneg (sub_non_digits text) 0 Hd (Z.le_refl 0))
    as H0.
  split; [exact H0 |].
  eapply Z.lt_le_trans; [exact Hb |]. rewrite Z.add_0_l, Z.mul_1_l.
  apply Z.pow_le_mono_r; lia.
Qed.

Lemma clean_int_str_nonneg (n : Z) (pre : string) :
  sub_non_digits pre = "" -> 0 <= n < 10 ^ max_str_digits ->
  _clean_int (pre ++ str_nonneg n) = Ok n.
Proof.
  intros Hpre Hn.
  rewrite (@clean_int_digits pre (str_nonneg n) Hpre (str_nonneg_digits _)
             (@str_nonneg_nonempty _)).
  - rewrite (@str_nonneg_value n) by lia. f_equal; lia.
  - now apply str_nonneg_within.
Qed.

(** X11.  [_clean_int] reads no sign, and what it returns [str] converts:
    the result is never negative and has at most 4300 digits; the text
    [str(n)] of an integer of at most 4300 digits reads as its absolute
    value; and so a count that was read from a page reads back as itself
    from the text that the cache stores for it. *)
Theorem clean_int_unsigned (n : Z) :
  (Z.abs n < 10 ^ max_str_digits -> _clean_int (str_int n) = Ok (Z.abs n))
  /\ forall text,
       _clean_int text = Ok n ->
       0 <= n < 10 ^ max_str_digits /\ _clean_int (str_int n) = Ok n.
Proof.
  assert (Habs : Z.abs n < 10 ^ max_str_digits ->
                 _clean_int (str_int n) = Ok (Z.abs n)).
  { intros Hb. unfold str_int. destruct (Z.ltb_spec n 0) as [Hn | Hn].
    - rewrite (@clean_int_str_nonneg (- n) "-" eq_refl) by lia.
      f_equal. lia.
    - pose proof (@clean_int_str_nonneg n "" eq_refl) as H.
      cbn [append] in H. rewrite H by lia. f_equal. lia. }
  split; [exact Habs |]. intros text Ht.
  pose proof (clean_int_below _ Ht) as Hn.
  split; [exact Hn |]. rewrite Habs by lia. f_equal. lia.
Qed.

Lemma clean_int_unsigned_witness :
  _clean_int (str_int (-1234)) = Ok 1234
  /\ _clean_int "1,234 ratings" = Ok 1234
  /\ _clean_int (str_int 1234) = Ok 1234.
Proof.
  split; [| split; [reflexivity |]].
  - apply (proj1 (clean_int_unsigned (-1234))). vm_compute. reflexivity.
  - exact (proj2 (proj2 (clean_int_unsigned 1234) "1,234 ratings" eq_refl)).
Defined.

(** ** Entry point: what a run writes, and when *)

Lemma apply_cache_step_assigned (b b' : book)
    (cache : pydict (string * string)) (assigned : bool) :
  apply_cache_step b cache = Ok (b', assigned) ->
  if assigned then b' <> b else b' = b.
Proof.
  unfold apply_cache_step.
  destruct (pick_source_url b) as [[source url] | e]; cbn [bind];
    [| discriminate].
  destruct (truthy url); cbn [negb]; [| now intros [= <- <-]].
  destruct (lookup cache url) as [[[rating_str count_str] |] | e];
    cbn [bind]; [| now intros [= <- <-] | discriminate].
  change (get_default b "rating" (JStr "")) with (stored b "rating").
  change (get_default b "r_count" (JStr "")) with (stored b "r_count").
  destruct (ne_str (stored b "rating") rating_str) eqn:Hr;
    [| destruct (ne_str (stored b "r_count") count_str) eqn:Hc];
    cbn [orb]; intros [= <- <-]; [| | reflexivity]; intros Heq.
  - pose proof (stored_overwritten b (rating_str, count_str)) as [H _].
    unfold overwritten in H. cbn [fst snd] in H. rewrite Heq in H.
    apply ne_str_false in H. congruence.
  - pose proof (stored_overwritten b (rating_str, count_str)) as [_ H].
    unfold overwritten in H. cbn [fst snd] in H. rewrite Heq in H.
    apply ne_str_false in H. congruence.
Qed.

(** The flag that [apply_cache] returns tells whether a record changed. *)
Lemma apply_cache_from_flag (books : list book)
    (cache : pydict (string * string)) :
  forall (changed : bool) (books' : list book) (r : bool),
    apply_cache_from changed books cache = (books', Ok r) ->
    if r then changed = true \/ books' <> books
    else changed = false /\ books' = books.
Proof.
  induction books as [| b books IH]; intros changed books' r;
    cbn [apply_cache_from].
  - intros [= <- <-]. destruct changed; [now left | now split].
  - destruct (apply_cache_step b cache) as [[b' assigned] |] eqn:Hb;
      [| discriminate].
    destruct (apply_cache_from (assigned || changed) books cache)
      as [rest' r'] eqn:Hrest.
    intros [= <- ->]. apply apply_cache_step_assigned in Hb.
    specialize (IH _ _ _ Hrest). destruct r.
    + destruct assigned; [right; congruence |]. cbn [orb] in IH.
      destruct IH as [-> | Hne]; [now left | right; congruence].
    + destruct IH as [[-> ->]%orb_false_iff ->]. now subst.
Qed.

(** The records keep what they resolve to. *)
Lemma apply_cache_from_resolves (books : list book)
    (cache : pydict (string * string)) :
  forall changed : bool,
    map pick_source_url (fst (apply_cache_from changed books cache))
    = map pick_source_url books.
Proof.
  induction books as [| b books IH]; intros changed; [reflexivity |].
  cbn [apply_cache_from].
  destruct (apply_cache_step b cache) as [[b' assigned] |] eqn:Hb;
    [| reflexivity].
  specialize (IH (assigned || changed)).
  destruct (apply_cache_from (assigned || changed) books cache)
    as [rest' r']. cbn [fst map] in *. rewrite IH. f_equal.
  apply apply_cache_step_frame in Hb as [-> | [entry ->]];
    [reflexivity | apply pick_source_url_overwritten].
Qed.

(** The work list is made of what the records resolve to. *)
Lemma build_targets_from_resolves (xs : list book) :
  forall (ys : list book) (targets : pydict string),
    map pick_source_url xs = map pick_source_url ys ->
    build_targets_from targets xs = build_targets_from targets ys.
Proof.
  induction xs as [| x xs IH]; intros [| y ys] targets; try discriminate;
    [reflexivity |].
  cbn [map build_targets_from]. intros [= Hx Hxs]. rewrite Hx.
  destruct (pick_source_url y) as [[[src |] url] | e]; cbn [bind];
    [| now apply IH | reflexivity].
  destruct (negb (source_truthy (Some src)) || negb (truthy url));
    [now apply IH |].
  destruct (setdefault targets url src); cbn [bind];
    [now apply IH | reflexivity].
Qed.

(** Records of which a work list was made are reconciled without an
    exception. *)
Lemma build_targets_from_reconciles (books : list book) :
  forall (targets targets' : pydict string)
         (cache : pydict (string * string)) (changed : bool),
    build_targets_from targets books = Ok targets' ->
    exists r, snd (apply_cache_from changed books cache) = Ok r.
Proof.
  induction books as [| b books IH]; intros targets targets' cache changed;
    cbn [build_targets_from apply_cache_from]; [now exists changed |].
  destruct (pick_source_url b) as [[source url] | e] eqn:Hb; cbn [bind];
    [| discriminate].
  intros Ht.
  assert (Hstep : exists b' assigned,
             apply_cache_step b cache = Ok (b', assigned)).
  { unfold apply_cache_step. rewrite Hb. cbn [bind].
    destruct (truthy url) eqn:Hu; cbn [negb]; [| now exists b, false].
    apply pick_source_url_inv in Hb.
    assert (Hh : hashable url = true).
    { destruct Hb as [(-> & _) | [(-> & _) | (_ & -> & _)]];
        [| | discriminate];
        cbn [source_truthy String.eqb Ascii.eqb Bool.eqb negb orb] in Ht;
        try rewrite Hu in Ht; cbn [negb orb] in Ht; unfold setdefault in Ht;
        destruct (hashable url); (reflexivity || discriminate). }
    unfold lookup. rewrite Hh. cbn [bind].
    destruct (find cache url) as [[rating_str count_str] |];
      [| now exists b, false].
    destruct (ne_str (get_default b "rating" (JStr "")) rating_str
              || ne_str (get_default b "r_count" (JStr "")) count_str);
      eauto. }
  destruct Hstep as (b' & assigned & ->).
  assert (Hrest : exists t, build_targets_from t books = Ok targets').
  { destruct source as [src |]; [| eauto].
    destruct (negb (source_truthy (Some src)) || negb (truthy url));
      [eauto |].
    destruct (setdefault targets url src); cbn [bind] in Ht;
      [eauto | discriminate]. }
  destruct Hrest as [t Hrest].
  destruct (IH _ _ cache (assigned || changed) Hrest) as [r Hr].
  destruct (apply_cache_from (assigned || changed) books cache)
    as [rest' r']. cbn [snd] in *. now exists r.
Qed.

Lemma build_targets_reconciles (xs ys : list book) (targets : pydict string)
    (cache : pydict (string * string)) :
  build_targets (xs ++ ys) = Ok targets ->
  (exists c, snd (apply_cache xs cache) = Ok c)
  /\ (exists c, snd (apply_cache ys cache) = Ok c).
Proof.
  unfold build_targets, apply_cache. rewrite build_targets_from_app.
  destruct (build_targets_from [] xs) as [t |] eqn:Hx; cbn [bind];
    [| discriminate].
  intros Hy. split.
  - exact (build_targets_from_reconciles _ _ cache false Hx).
  - exact (build_targets_from_reconciles _ _ cache false Hy).
Qed.

(** [main] where both files load. *)
Lemma main_loaded
    (scrape_goodreads scrape_royalroad : json -> result (spec_float * Z))
    (write_raises : string -> list book -> bool)
    (fs : files) (books1 books2 : list book) :
  fs "books(full-list).json" = Some books1 ->
  fs "books(book-club).json" = Some books2 ->
  main scrape_goodreads scrape_royalroad write_raises fs
  = match build_targets (books1 ++ books2) with
    | Raise e => ([], inl (Uncaught e))
    | Ok [] => ([], inr NoScrapeableEntries)
    | Ok targets =>
        let cache :=
          scrape_targets scrape_goodreads scrape_royalroad targets in
        match apply_cache books1 cache with
        | (_, Raise e) => ([], inl (Uncaught e))
        | (books1', Ok changed1) =>
            let log1 :=
              if changed1 then [("books(full-list).json", books1')]
              else [] in
            if changed1 && write_raises "books(full-list).json" books1'
            then (log1, inl (WriteError "books(full-list).json"))
            else
              match apply_cache books2 cache with
              | (_, Raise e) => (log1, inl (Uncaught e))
              | (books2', Ok changed2) =>
                  let log :=
                    (log1 ++ (if changed2
                              then [("books(book-club).json", books2')]
                              else []))%list in
                  if changed2
                     && write_raises "books(book-club).json" books2'
                  then (log, inl (WriteError "books(book-club).json"))
                  else (log,
                        inr (if changed1 || changed2 then UpdatesWritten
                             else NoUpdatesNeeded))
              end
        end
    end.
Proof.
  intros H1 H2. unfold main, BOOKS_FILES.
  cbn [load_files]. unfold load_json. rewrite H1. cbn [set_file load_files].
  rewrite H2. cbn [set_file String.eqb Ascii.eqb Bool.eqb].
  unfold combined. cbn [flat_map snd]. rewrite app_nil_r.
  destruct (build_targets (books1 ++ books2)) as [[| t ts] | e];
    [reflexivity | | reflexivity].
  cbn zeta. cbn [apply_files].
  set (cache := scrape_targets scrape_goodreads scrape_royalroad (t :: ts)).
  destruct (apply_cache books1 cache) as [books1' [[|] | e1]];
    try reflexivity; cbn [andb];
    try destruct (write_raises "books(full-list).json" books1');
    try reflexivity;
    destruct (apply_cache books2 cache) as [books2' [[|] | e2]];
    try reflexivity; cbn [andb];
    destruct (write_raises "books(book-club).json" books2');
    reflexivity.
Qed.

Section MainProperties.

Variables scrape_goodreads scrape_royalroad : json -> result (spec_float * Z).
Variable write_raises : string -> list book -> bool.

(** How a run goes. *)
Lemma main_run (fs : files) :
  (exists path,
      In path BOOKS_FILES /\ fs path = None
      /\ main scrape_goodreads scrape_royalroad write_raises fs
         = ([], inl (LoadError path)))
  \/ exists books1 books2,
       fs "books(full-list).json" = Some books1
       /\ fs "books(book-club).json" = Some books2
       /\ ((exists e,
               build_targets (books1 ++ books2) = Raise e
               /\ main scrape_goodreads scrape_royalroad write_raises fs
                  = ([], inl (Uncaught e)))
           \/ (build_targets (books1 ++ books2) = Ok []
               /\ main scrape_goodreads scrape_royalroad write_raises fs
                  = ([], inr NoScrapeableEntries))
           \/ exists targets books1' books2' changed1 changed2,
                build_targets (books1 ++ books2) = Ok targets
                /\ targets <> []
                /\ apply_cache books1
                     (scrape_targets scrape_goodreads scrape_royalroad
                        targets)
                   = (books1', Ok changed1)
                /\ apply_cache books2
                     (scrape_targets scrape_goodreads scrape_royalroad
                        targets)
                   = (books2', Ok changed2)
                /\ main scrape_goodreads scrape_royalroad write_raises fs
                   = (if changed1
                         && write_raises "books(full-list).json" books1'
                      then ([("books(full-list).json", books1')],
                            inl (WriteError "books(full-list).json"))
                      else
                        if changed2
                           && write_raises "books(book-club).json" books2'
                        then (((if changed1
                                then [("books(full-list).json", books1')]
                                else [])
                               ++ [("books(book-club).json", books2')])%list,
                              inl (WriteError "books(book-club).json"))
                        else
                          (((if changed1
                             then [("books(full-list).json", books1')]
                             else [])
                            ++ (if changed2
                                then [("books(book-club).json", books2')]
                                else []))%list,
                           inr (if changed1 || changed2 then UpdatesWritten
                                else NoUpdatesNeeded)))).
Proof.
  destruct (fs "books(full-list).json") as [books1 |] eqn:H1.
  2: { left. exists "books(full-list).json". split; [now left |].
       split; [assumption |]. unfold main, BOOKS_FILES. cbn [load_files].
       unfold load_json. now rewrite H1. }
  destruct (fs "books(book-club).json") as [books2 |] eqn:H2.
  2: { left. exists "books(book-club).json". split; [right; now left |].
       split; [assumption |]. unfold main, BOOKS_FILES. cbn [load_files].
       unfold load_json. rewrite H1. cbn [load_files set_file].
       now rewrite H2. }
  right. exists books1, books2. split; [reflexivity | split; [reflexivity |]].
  rewrite (@main_loaded scrape_goodreads scrape_royalroad write_raises fs
             books1 books2 H1 H2).
  destruct (build_targets (books1 ++ books2)) as [[| t ts] | e] eqn:Hb.
  - right. left. now split.
  - right. right.
    destruct (build_targets_reconciles books1 books2
                (scrape_targets scrape_goodreads scrape_royalroad (t :: ts))
                Hb) as [[c1 Hc1] [c2 Hc2]].
    cbn zeta.
    destruct (apply_cache books1 _) as [books1' r1] eqn:E1.
    destruct (apply_cache books2 _) as [books2' r2] eqn:E2.
    cbn [snd] in Hc1, Hc2. subst r1 r2.
    exists (t :: ts), books1', books2', c1, c2.
    split; [reflexivity | split; [discriminate |]].
    split; [exact E1 | split; [exact E2 |]].
    destruct c1, c2; cbn [andb];
      try destruct (write_raises "books(full-list).json" books1');
      try destruct (write_raises "books(book-club).json" books2');
      reflexivity.
  - left. exists e. now split.
Qed.

Lemma written_files (fs : files) (books1' books2' : list book)
    (changed1 changed2 : bool) :
  let fs' :=
    written fs
      ((if changed1 then [("books(full-list).json", books1')] else [])
       ++ (if changed2 then [("books(book-club).json", books2')] else []))
  in
  fs' "books(full-list).json"
  = (if changed1 then Some books1' else fs "books(full-list).json")
  /\ fs' "books(book-club).json"
     = (if changed2 then Some books2' else fs "books(book-club).json").
Proof. destruct changed1, changed2; split; reflexivity. Qed.

(** X12.  How a run can end in an exception.  Where a file does not load
    or [build_targets] raises at a record, [main] has called [write_json]
    not at all, and no page was fetched.  After that only [write_json]
    itself ends a run in an exception: what the extractors raise is
    caught, reconciling the records of which a work list was made raises
    nothing, and the call that raised is the last one, after calls that
    returned. *)
Theorem main_all_or_nothing (fs : files) (e : main_exn) :
  snd (main scrape_goodreads scrape_royalroad write_raises fs) = inl e ->
  (fst (main scrape_goodreads scrape_royalroad write_raises fs) = []
   /\ ((exists path,
           In path BOOKS_FILES /\ load_json fs path = None
           /\ e = LoadError path)
       \/ exists books1 books2 e',
            load_json fs "books(full-list).json" = Some books1
            /\ load_json fs "books(book-club).json" = Some books2
            /\ build_targets (books1 ++ books2) = Raise e'
            /\ e = Uncaught e'))
  \/ exists path data calls,
       e = WriteError path
       /\ fst (main scrape_goodreads scrape_royalroad write_raises fs)
          = (calls ++ [(path, data)])%list
       /\ write_raises path data = true
       /\ Forall (fun w => write_raises (fst w) (snd w) = false) calls.
Proof.
  destruct (main_run fs)
    as [(path & Hin & Hp & ->)
       | (books1 & books2 & H1 & H2
          & [(e' & Hb & ->)
            | [(Hb & ->)
              | (targets & books1' & books2' & c1 & c2
                 & Hb & Hne & E1 & E2 & ->)]])];
    cbn [fst snd].
  - intros [= <-]. left. split; [reflexivity |]. left. now exists path.
  - intros [= <-]. left. split; [reflexivity |]. right.
    now exists books1, books2, e'.
  - discriminate.
  - destruct c1, c2; cbn [andb];
      try destruct (write_raises "books(full-list).json" books1') eqn:W1;
      try destruct (write_raises "books(book-club).json" books2') eqn:W2;
      cbn [fst snd app]; intros [= <-]; right.
    all: first
      [ exists "books(full-list).json", books1', [];
        split; [reflexivity | split; [reflexivity | split; [exact W1 |]]];
        constructor
      | exists "books(book-club).json", books2',
          [("books(full-list).json", books1')];
        split; [reflexivity | split; [reflexivity | split; [exact W2 |]]];
        repeat constructor; exact W1
      | exists "books(book-club).json", books2', [];
        split; [reflexivity | split; [reflexivity | split; [exact W2 |]]];
        constructor ].
Qed.

(** X13.  [main] calls [write_json] for a file only where a record of it
    changed: for each file at most once, with records that differ from
    those loaded, and in their two rating fields only; and the run reports
    that updates were written exactly when it made such a call and every
    call returned. *)
Theorem main_writes_changes (fs : files) :
  NoDup (map fst
           (fst (main scrape_goodreads scrape_royalroad write_raises fs)))
  /\ (snd (main scrape_goodreads scrape_royalroad write_raises fs)
      = inr UpdatesWritten
      <-> fst (main scrape_goodreads scrape_royalroad write_raises fs) <> []
          /\ Forall (fun w => write_raises (fst w) (snd w) = false)
               (fst (main scrape_goodreads scrape_royalroad write_raises
                       fs)))
  /\ forall path books',
       In (path, books')
         (fst (main scrape_goodreads scrape_royalroad write_raises fs)) ->
       In path BOOKS_FILES
       /\ exists books,
            load_json fs path = Some books /\ books' <> books
            /\ Forall2 same_but_ratings books books'.
Proof.
  destruct (main_run fs)
    as [(path & Hin & Hp & ->)
       | (books1 & books2 & H1 & H2
          & [(e' & Hb & ->)
            | [(Hb & ->)
              | (targets & books1' & books2' & c1 & c2
                 & Hb & Hne & E1 & E2 & ->)]])];
    cbn [fst snd map];
    try (split; [constructor
                | split; [split; [discriminate | now intros [? _]] |]];
         intros ? ? []).
  assert (F1 : Forall2 same_but_ratings books1 books1').
  { pose proof (apply_cache_from_frame books1
                  (scrape_targets scrape_goodreads scrape_royalroad targets)
                  false) as F.
    unfold apply_cache in E1. now rewrite E1 in F. }
  assert (F2 : Forall2 same_but_ratings books2 books2').
  { pose proof (apply_cache_from_frame books2
                  (scrape_targets scrape_goodreads scrape_royalroad targets)
                  false) as F.
    unfold apply_cache in E2. now rewrite E2 in F. }
  apply apply_cache_from_flag in E1, E2.
  assert (N1 : c1 = true -> books1' <> books1).
  { intros ->. now destruct E1. }
  assert (N2 : c2 = true -> books2' <> books2).
  { intros ->. now destruct E2. }
  clear E1 E2.
  assert (P1 : c1 = true ->
               In "books(full-list).json" BOOKS_FILES
               /\ exists books,
                    load_json fs "books(full-list).json" = Some books
                    /\ books1' <> books
                    /\ Forall2 same_but_ratings books books1').
  { intros Hc. split; [now left |]. exists books1.
    split; [exact H1 | split; [now apply N1 | exact F1]]. }
  assert (P2 : c2 = true ->
               In "books(book-club).json" BOOKS_FILES
               /\ exists books,
                    load_json fs "books(book-club).json" = Some books
                    /\ books2' <> books
                    /\ Forall2 same_but_ratings books books2').
  { intros Hc. split; [right; now left |]. exists books2.
    split; [exact H2 | split; [now apply N2 | exact F2]]. }
  clear N1 N2 F1 F2.
  destruct c1, c2; cbn [andb];
    try destruct (write_raises "books(full-list).json" books1') eqn:W1;
    try destruct (write_raises "books(book-club).json" books2') eqn:W2;
    cbn [fst snd app map];
    (split; [repeat constructor; cbn; intuition discriminate | split]).
  all: try (split; [discriminate |]; intros [_ Hall];
            repeat match goal with
              | H : Forall _ (_ :: _) |- _ => inversion H; subst; clear H
              end; cbn [fst snd] in *; congruence).
  all: try (split; [discriminate | now intros [Hn _]]).
  all: try (split; [intros _; split; [discriminate |];
                    repeat constructor; assumption
                   | reflexivity]).
  all: intros path books' Hin; cbn in Hin;
    repeat match goal with
      | H : _ \/ _ |- _ => destruct H as [H | H]
      | H : False |- _ => destruct H
      | H : (_, _) = (_, _) |- _ => injection H as <- <-
      end;
    (now apply P1) || (now apply P2).
Qed.

(** X14.  After a run that ends without an exception, every record of both
    files stores the pair that the run scraped for the URL that the record
    resolves to, where the scrape of that URL succeeded: the files agree
    with the cache, and so with each other. *)
Theorem main_in_sync (fs : files) (last : report) :
  snd (main scrape_goodreads scrape_royalroad write_raises fs) = inr last ->
  exists books1 books2 targets,
    load_json fs "books(full-list).json" = Some books1
    /\ load_json fs "books(book-club).json" = Some books2
    /\ build_targets (books1 ++ books2) = Ok targets
    /\ (last = NoScrapeableEntries <-> targets = [])
    /\ forall path books',
         In path BOOKS_FILES ->
         load_json
           (written fs
              (fst (main scrape_goodreads scrape_royalroad write_raises fs)))
           path
         = Some books' ->
         Forall (in_sync
                   (scrape_targets scrape_goodreads scrape_royalroad targets))
           books'.
Proof.
  destruct (main_run fs)
    as [(path & Hin & Hp & ->)
       | (books1 & books2 & H1 & H2
          & [(e' & Hb & ->)
            | [(Hb & ->)
              | (targets & books1' & books2' & c1 & c2
                 & Hb & Hne & E1 & E2 & ->)]])];
    cbn [fst snd]; try (intros [= <-]).
  - exists books1, books2, []. repeat (split; [easy |]).
    intros path books' _ _. apply Forall_forall. intros b _ entry.
    unfold resolved_entry, scrape_targets. cbn [scrape_loop fst find].
    destruct (pick_source_url b) as [[source url] |]; [| discriminate].
    destruct (truthy url); discriminate.
  - destruct (c1 && write_raises "books(full-list).json" books1');
      [discriminate |].
    destruct (c2 && write_raises "books(book-club).json" books2');
      [discriminate |].
    cbn [fst snd]. intros [= <-].
    exists books1, books2, targets. repeat (split; [easy |]).
    split; [split; [destruct (c1 || c2); discriminate | contradiction] |].
    intros path books' Hin. unfold load_json.
    destruct (written_files fs books1' books2' c1 c2) as [W1 W2].
    pose proof (apply_cache_from_flag _ _ _ E1) as Q1.
    pose proof (apply_cache_from_flag _ _ _ E2) as Q2.
    apply apply_cache_from_in_sync in E1 as [S1 _].
    apply apply_cache_from_in_sync in E2 as [S2 _].
    destruct Hin as [<- | [<- | []]].
    + rewrite W1. destruct c1; [now intros [= <-] |].
      destruct Q1 as [_ ->]. rewrite H1. now intros [= <-].
    + rewrite W2. destruct c2; [now intros [= <-] |].
      destruct Q2 as [_ ->]. rewrite H2. now intros [= <-].
Qed.

(** X15.  A second run over what a first run left, with the pages as they
    were, calls [write_json] not at all, where every call of the first run
    returned: it ends as the first did, but that a run that wrote updates
    is followed by one that needs none. *)
Theorem main_second_run (fs : files)
    (write_raises' : string -> list book -> bool) :
  Forall (fun w => write_raises (fst w) (snd w) = false)
    (fst (main scrape_goodreads scrape_royalroad write_raises fs)) ->
  main scrape_goodreads scrape_royalroad write_raises'
    (written fs
       (fst (main scrape_goodreads scrape_royalroad write_raises fs)))
  = ([], quiet (snd (main scrape_goodreads scrape_royalroad write_raises
                       fs))).
Proof.
  destruct (main_run fs)
    as [(path & Hin & Hp & E)
       | (books1 & books2 & H1 & H2
          & [(e' & Hb & E)
            | [(Hb & E)
              | (targets & books1' & books2' & c1 & c2
                 & Hb & Hne & E1 & E2 & E)]])];
    rewrite E; cbn [fst snd quiet].
  - intros _. unfold written. cbn [fold_left]. revert E.
    unfold main, BOOKS_FILES. cbn [load_files]. unfold load_json.
    destruct (fs "books(full-list).json") as [b1 |] eqn:F1;
      [| now intros E].
    cbn [load_files set_file].
    destruct (fs "books(book-club).json") as [b2 |] eqn:F2;
      [| now intros E].
    destruct Hin as [<- | [<- | []]]; congruence.
  - intros _. unfold written. cbn [fold_left].
    rewrite (@main_loaded scrape_goodreads scrape_royalroad write_raises'
               fs books1 books2 H1 H2).
    now rewrite Hb.
  - intros _. unfold written. cbn [fold_left].
    rewrite (@main_loaded scrape_goodreads scrape_royalroad write_raises'
               fs books1 books2 H1 H2).
    now rewrite Hb.
  - intros Hall.
    assert (Hw1 : c1 && write_raises "books(full-list).json" books1'
                  = false).
    { destruct c1; [| reflexivity]. cbn [andb] in *.
      destruct (write_raises "books(full-list).json" books1') eqn:W;
        [| reflexivity].
      cbn [fst] in Hall. inversion Hall as [| ? ? Hx _]. cbn in Hx.
      congruence. }
    rewrite Hw1 in *.
    assert (Hw2 : c2 && write_raises "books(book-club).json" books2'
                  = false).
    { destruct c2; [| reflexivity]. cbn [andb] in *.
      destruct (write_raises "books(book-club).json" books2') eqn:W;
        [| reflexivity].
      cbn [fst] in Hall. apply Forall_app in Hall as [_ Hall].
      inversion Hall as [| ? ? Hx _]. cbn in Hx. congruence. }
    rewrite Hw2 in *. clear Hall Hw1 Hw2. cbn [fst snd quiet].
    destruct (written_files fs books1' books2' c1 c2) as [W1 W2].
    pose proof (apply_cache_from_flag _ _ _ E1) as Q1.
    pose proof (apply_cache_from_flag _ _ _ E2) as Q2.
    assert (W1' : written fs
                    ((if c1 then [("books(full-list).json", books1')]
                      else [])
                     ++ (if c2 then [("books(book-club).json", books2')]
                         else [])) "books(full-list).json" = Some books1').
    { rewrite W1. destruct c1; [reflexivity |]. now destruct Q1 as [_ ->]. }
    assert (W2' : written fs
                    ((if c1 then [("books(full-list).json", books1')]
                      else [])
                     ++ (if c2 then [("books(book-club).json", books2')]
                         else [])) "books(book-club).json" = Some books2').
    { rewrite W2. destruct c2; [reflexivity |]. now destruct Q2 as [_ ->]. }
    rewrite (@main_loaded scrape_goodreads scrape_royalroad write_raises'
               _ books1' books2' W1' W2').
    assert (Hb' : build_targets (books1' ++ books2') = Ok targets).
    { rewrite <- Hb. apply build_targets_from_resolves. rewrite !map_app.
      pose proof (apply_cache_from_resolves books1
                    (scrape_targets scrape_goodreads scrape_royalroad
                       targets) false) as R1.
      pose proof (apply_cache_from_resolves books2
                    (scrape_targets scrape_goodreads scrape_royalroad
                       targets) false) as R2.
      unfold apply_cache in E1, E2. rewrite E1 in R1. rewrite E2 in R2.
      cbn [fst] in R1, R2. now rewrite R1, R2. }
    rewrite Hb'. destruct targets as [| t ts]; [contradiction |]. cbn zeta.
    pose proof (apply_cache_from_again books1
                  (scrape_targets scrape_goodreads scrape_royalroad (t :: ts))
                  false false) as A1.
    pose proof (apply_cache_from_again books2
                  (scrape_targets scrape_goodreads scrape_royalroad (t :: ts))
                  false false) as A2.
    unfold apply_cache in *. rewrite E1 in A1. rewrite E2 in A2.
    cbn [fst snd] in A1, A2. rewrite A1. cbn [andb]. rewrite A2.
    cbn [andb app]. now destruct c1, c2.
Qed.

End MainProperties.

Lemma main_all_or_nothing_witness :
  exists path data calls,
    WriteError "books(book-club).json" = WriteError path
    /\ fst (main goodreads_up royalroad_down book_club_locked two_catalogs)
       = (calls ++ [(path, data)])%list
    /\ book_club_locked path data = true
    /\ Forall (fun w => book_club_locked (fst w) (snd w) = false) calls.
Proof.
  destruct (@main_all_or_nothing goodreads_up royalroad_down
              book_club_locked two_catalogs
              (WriteError "books(book-club).json") eq_refl)
    as [[_ [(path & _ & _ & H) | (b1 & b2 & e' & _ & _ & _ & H)]] | H];
    [discriminate H | discriminate H | exact H].
Defined.

Lemma main_writes_changes_witness :
  In "books(book-club).json" BOOKS_FILES
  /\ exists books,
       load_json two_catalogs "books(book-club).json" = Some books
       /\ [overwritten book_stale ("4.5", "12345")] <> books
       /\ Forall2 same_but_ratings books
            [overwritten book_stale ("4.5", "12345")].
Proof.
  apply (proj2 (proj2 (main_writes_changes goodreads_up royalroad_down
                         book_club_locked two_catalogs))).
  vm_compute. right. now left.
Defined.

Lemma main_in_sync_witness :
  exists books1 books2 targets,
    load_json two_catalogs "books(full-list).json" = Some books1
    /\ load_json two_catalogs "books(book-club).json" = Some books2
    /\ build_targets (books1 ++ books2) = Ok targets
    /\ (UpdatesWritten = NoScrapeableEntries <-> targets = [])
    /\ forall path books',
         In path BOOKS_FILES ->
         load_json
           (written two_catalogs
              (fst (main goodreads_up royalroad_down writable
                      two_catalogs)))
           path
         = Some books' ->
         Forall (in_sync (scrape_targets goodreads_up royalroad_down targets))
           books'.
Proof.
  apply (@main_in_sync goodreads_up royalroad_down writable two_catalogs
           UpdatesWritten).
  reflexivity.
Defined.

Lemma main_second_run_witness :
  main goodreads_up royalroad_down book_club_locked
    (written two_catalogs
       (fst (main goodreads_up royalroad_down writable two_catalogs)))
  = ([], inr NoUpdatesNeeded).
Proof.
  apply (@main_second_run goodreads_up royalroad_down writable two_catalogs
           book_club_locked).
  vm_compute. repeat constructor.
Defined.


(** ** Site extractors: what a page gives *)

Lemma many_spec (p : ascii -> bool) (s : string) :
  forall m r, In (m, r) (many p s) -> s = m ++ r /\ all_chars p m = true.
Proof.
  induction s as [| c s IH]; intros m r; cbn [many].
  - intros [[= <- <-] | []]. now split.
  - destruct (p c) eqn:Hc.
    + intros [Hin | [[= <- <-] | []]]%in_app_or; [| now split].
      apply in_map_iff in Hin as ([m' r'] & [= <- <-] & Hin).
      destruct (IH _ _ Hin) as [-> Hm]. cbn. now rewrite Hc, Hm.
    + intros [[= <- <-] | []]. now split.
Qed.

Lemma many_head (p : ascii -> bool) (ds rest : string) :
  all_chars p ds = true -> starts_with p rest = false ->
  exists tl, many p (ds ++ rest) = (ds, rest) :: tl.
Proof.
  intros Hds Hrest. induction ds as [| c ds IH]; cbn [append].
  - destruct rest as [| c rest]; cbn [many]; [now exists [] |].
    cbn in Hrest. rewrite Hrest. now exists [].
  - cbn in Hds. apply andb_true_iff in Hds as [Hc Hds].
    destruct (IH Hds) as [tl Htl]. cbn [many]. rewrite Hc, Htl.
    cbn [map fst snd app]. eauto.
Qed.

(** One or more characters of a class. *)
Lemma some_spec (p : ascii -> bool) (s : string) :
  forall m r,
    In (m, r) (matches (Cat (Chr p) (Many p)) s) ->
    s = m ++ r /\ all_chars p m = true /\ m <> "".
Proof.
  intros m r. cbn [matches]. destruct s as [| c s]; [intros [] |].
  destruct (p c) eqn:Hc; [| intros []]. cbn [flat_map fst snd].
  rewrite app_nil_r. intros ([m' r'] & [= <- <-] & Hin)%in_map_iff.
  destruct (many_spec _ _ _ _ Hin) as [-> Hm]. cbn.
  now rewrite Hc, Hm.
Qed.

Lemma some_head (p : ascii -> bool) (ds rest : string) :
  all_chars p ds = true -> ds <> "" -> starts_with p rest = false ->
  exists tl, matches (Cat (Chr p) (Many p)) (ds ++ rest) = (ds, rest) :: tl.
Proof.
  intros Hds Hne Hrest. destruct ds as [| c ds]; [contradiction |].
  cbn in Hds. apply andb_true_iff in Hds as [Hc Hds].
  destruct (many_head p ds rest Hds Hrest) as [tl Htl].
  cbn [matches append]. rewrite Hc. cbn [flat_map fst snd].
  rewrite app_nil_r, Htl. cbn [map fst snd append]. eauto.
Qed.

Lemma score_number_spec (s : string) :
  forall m r,
    In (m, r) (matches score_number s) -> s = m ++ r /\ score_text m.
Proof.
  intros m r. unfold score_number.
  change (matches (Cat ?a ?b) s)
    with (flat_map
            (fun mr1 => map (fun mr2 => (fst mr1 ++ fst mr2, snd mr2))
                          (matches b (snd mr1)))
            (matches a s)).
  intros ([ip r1] & Hip & Hin)%in_flat_map. cbn [fst snd] in Hin.
  apply some_spec in Hip as (-> & Hd & Hne).
  apply in_map_iff in Hin as ([frac r2] & [= <- <-] & Hin).
  cbn [matches] in Hin. apply in_app_or in Hin as [Hin | [[= <- <-] | []]].
  - destruct r1 as [| sep r1]; [destruct Hin |].
    destruct (is_separator sep) eqn:Hsep; [| destruct Hin].
    cbn [flat_map fst snd] in Hin. rewrite app_nil_r in Hin.
    apply in_map_iff in Hin as ([fp r3] & [= <- <-] & Hin).
    apply (some_spec is_digit) in Hin as (-> & Hfp & Hfne).
    split.
    + cbn [append]. now rewrite append_assoc.
    + exists ip, (String sep fp). cbn [append].
      repeat (split; [assumption || reflexivity |]).
      right. now exists sep, fp.
  - split; [now rewrite append_empty_r |].
    exists ip, "". repeat (split; [assumption || reflexivity |]). now left.
Qed.

Lemma match_group_score (tail : regex) (s g : string) :
  match_group score_number tail s = Some g -> score_text g.
Proof.
  unfold match_group.
  destruct (List.find _ (matches score_number s)) as [[m r] |] eqn:E;
    [| discriminate].
  intros [= <-]. apply find_some in E as [Hin _].
  now apply score_number_spec in Hin.
Qed.

Lemma search_score (tail : regex) (s g : string) :
  search score_number tail s = Some g -> score_text g.
Proof.
  induction s as [| c s IH]; cbn [search].
  - destruct (match_group score_number tail "") eqn:E; [| discriminate].
    intros [= <-]. exact (match_group_score _ _ E).
  - destruct (match_group score_number tail (String c s)) eqn:E;
      [| exact IH].
    intros [= <-]. exact (match_group_score _ _ E).
Qed.

Lemma digits_numeric (s : string) :
  all_chars is_digit s = true -> all_chars is_numeric s = true.
Proof.
  induction s as [| c s IH]; [reflexivity |]. cbn [all_chars].
  intros [Hc Hs]%andb_true_iff. rewrite (IH Hs), andb_true_r.
  unfold is_numeric. now rewrite Hc.
Qed.

Lemma digits_no_comma (s : string) :
  all_chars is_digit s = true -> replace_char "," "." s = s.
Proof.
  intros H. apply replace_char_none. induction s as [| c s IH];
    [reflexivity |].
  cbn [all_chars] in *. apply andb_true_iff in H as [Hc Hs].
  rewrite (IH Hs), andb_true_r.
  destruct (Ascii.eqb_spec c ","); [subst; discriminate | reflexivity].
Qed.

Lemma float_of_decimal_unsigned (m e : Z) :
  unsigned_float (float_of_decimal false m e) = true.
Proof.
  unfold float_of_decimal, nearest_float.
  repeat match goal with
         | |- context [if ?b then _ else _] => destruct b
         | |- context [let '(_, _) := ?p in _] => destruct p
         end; reflexivity.
Qed.

(** What the patterns match is read as a number. *)
Lemma clean_float_score (g : string) :
  score_text g ->
  exists m e,
    _clean_float g = Ok (float_of_decimal false m e) /\ 0 <= m.
Proof.
  intros (ip & frac & -> & Hip & Hne
          & [-> | (sep & fp & -> & Hsep & Hfp & Hfne)]).
  - rewrite append_empty_r.
    rewrite (clean_float_numeric _ (digits_numeric _ Hip)).
    exists (int_digits 0 ip), 0. split.
    + exact (@py_float_digits false ip Hip Hne).
    + apply int_digits_nonneg; [assumption | lia].
  - rewrite <- clean_float_replaced.
    assert (E : replace_char "," "." (ip ++ String sep fp)
                = ip ++ String "." fp).
    { rewrite replace_char_app, (digits_no_comma _ Hip). cbn [replace_char].
      rewrite (digits_no_comma _ Hfp). unfold is_separator in Hsep.
      destruct (Ascii.eqb_spec sep ","); [reflexivity |].
      cbn [orb] in Hsep. now apply Ascii.eqb_eq in Hsep as ->. }
    rewrite E, clean_float_numeric.
    + exists (int_digits 0 (ip ++ fp)), (- Z.of_nat (String.length fp)).
      split.
      * apply (@py_float_point false ip fp Hip Hfp). intros H.
        destruct ip; [now apply Hne | discriminate].
      * apply int_digits_nonneg; [| lia].
        now rewrite all_chars_app, Hip, Hfp.
    + rewrite all_chars_app, (digits_numeric _ Hip). cbn.
      now rewrite (digits_numeric _ Hfp).
Qed.

Lemma clean_int_error (text : string) (e : exn) :
  _clean_int text = Raise e -> count_error text e.
Proof.
  unfold _clean_int, py_int, count_error.
  destruct (String.eqb (sub_non_digits text) "");
    [intros [= <-]; now left |].
  destruct (Z.ltb_spec max_str_digits
              (Z.of_nat (String.length (sub_non_digits text))));
    [| discriminate].
  intros [= <-]. right. eauto.
Qed.

Lemma find_rating_count_outcome (lis : list string) :
  match find_rating_count lis with
  | Ok (Some n) => 0 <= n < 10 ^ max_str_digits
  | Ok None => True
  | Raise e => exists text, count_error text e
  end.
Proof.
  induction lis as [| key rest IH]; [exact I |]. cbn [find_rating_count].
  destruct (is_ratings_label key); [| exact IH].
  destruct rest as [| val_text rest]; [exact I |].
  destruct (_clean_int val_text) as [n | e] eqn:E; cbn [bind].
  - exact (clean_int_below _ E).
  - exists val_text. exact (clean_int_error _ E).
Qed.

Lemma scrape_royalroad_count_outcome (styled all : list string) :
  match scrape_royalroad_count styled all with
  | Ok n => 0 <= n < 10 ^ max_str_digits
  | Raise e =>
      e = ValueError CouldNotLocateRatingsCount
      \/ exists text, count_error text e
  end.
Proof.
  unfold scrape_royalroad_count.
  pose proof (find_rating_count_outcome
                match styled with [] => all | _ :: _ => styled end) as H.
  destruct (find_rating_count _) as [[n |] | e]; cbn [bind];
    [exact H | now left | now right].
Qed.

Lemma scrape_royalroad_score_outcome (aria data_content : string) :
  exists score_value,
    scrape_royalroad_score aria data_content = Ok score_value
    /\ forall x, score_value = Some x ->
                 is_float x = true /\ unsigned_float x = true.
Proof.
  unfold scrape_royalroad_score.
  assert (H : forall g, score_text g ->
                exists score_value,
                  (score_value <- _clean_float g ;; Ok (Some score_value))
                  = Ok score_value
                  /\ forall x, score_value = Some x ->
                               is_float x = true /\ unsigned_float x = true).
  { intros g (m & e & Hg & Hm)%clean_float_score. rewrite Hg. cbn [bind].
    eexists. split; [reflexivity |]. intros x [= <-]. split.
    - now apply float_of_decimal_is_float.
    - apply float_of_decimal_unsigned. }
  destruct (search score_number stars_tail aria) as [g |] eqn:E1.
  - exact (H g (search_score _ _ E1)).
  - destruct (search score_number out_of_5_tail data_content) as [g |] eqn:E2.
    + exact (H g (search_score _ _ E2)).
    + exists None. split; [reflexivity | discriminate].
Qed.

Section SiteExtractorProperties.

Variable get_goodreads : json -> result goodreads_soup.
Variable get_royalroad : json -> result royalroad_soup.


(** X17.  What [scrape_royalroad] makes of a page.  The score that it
    returns is a float that is neither [nan] nor below zero, and the count
    is not negative and such that [str] converts it.  What the patterns
    match is always read as a number: the conversion to a float never
    raises, and the extractor raises only what fetching raised, one of its
    own four errors, or the error of [int] for a count of more digits than
    it converts. *)
Theorem scrape_royalroad_outcome (url : json) :
  match scrape_royalroad get_royalroad url with
  | Ok (score, count) =>
      is_float score = true /\ unsigned_float score = true
      /\ 0 <= count < 10 ^ max_str_digits
  | Raise e =>
      get_royalroad url = Raise e
      \/ e = ValueError ScoreSpanNotFound
      \/ (exists aria data_content,
             e = ValueError (CouldNotParseScore aria data_content))
      \/ e = ValueError CouldNotLocateRatingsCount
      \/ exists text, count_error text e
  end.
Proof.
  unfold scrape_royalroad.
  destruct (get_royalroad url) as [soup | e]; cbn [bind]; [| now left].
  destruct (select_score_span soup) as [[aria_label data] |];
    [| right; now left].
  destruct (scrape_royalroad_score_outcome (strip (or_empty aria_label))
              (strip (or_empty data))) as (score_value & -> & Hs).
  cbn [bind]. destruct score_value as [score |].
  2: { right. right. left. eauto. }
  pose proof (scrape_royalroad_count_outcome (styled_items soup)
                (all_items soup)) as Hc.
  destruct (scrape_royalroad_count _ _) as [count | e]; cbn [bind].
  - destruct (Hs score eq_refl). now repeat split.
  - right. right. right. exact Hc.
Qed.

End SiteExtractorProperties.

(** ** Site extractors: the score that the patterns find *)

Lemma cat_head (a b : regex) (s m1 r1 m2 r2 : string)
    (tl1 tl2 : list (string * string)) :
  matches a s = (m1, r1) :: tl1 -> matches b r1 = (m2, r2) :: tl2 ->
  exists tl, matches (Cat a b) s = (m1 ++ m2, r2) :: tl.
Proof.
  intros Ha Hb. cbn [matches]. rewrite Ha. cbn [flat_map fst snd].
  rewrite Hb. cbn [map app fst snd]. eauto.
Qed.

Lemma separator_no_digit (c : ascii) :
  is_separator c = true -> is_digit c = false.
Proof.
  unfold is_separator.
  destruct (Ascii.eqb_spec c ","); [now subst |].
  destruct (Ascii.eqb_spec c "."); [now subst | discriminate].
Qed.

Lemma score_number_head (g rest : string) :
  score_text g ->
  starts_with is_digit rest = false ->
  starts_with is_separator rest = false ->
  exists tl, matches score_number (g ++ rest) = (g, rest) :: tl.
Proof.
  intros (ip & frac & -> & Hip & Hne
          & [-> | (sep & fp & -> & Hsep & Hfp & Hfne)]) Hd Hs.
  - rewrite append_empty_r.
    destruct (@some_head is_digit ip rest Hip Hne Hd) as [tl1 H1].
    assert (H2 : matches
                   (Opt (Cat (Chr is_separator)
                           (Cat (Chr is_digit) (Many is_digit)))) rest
                 = ("", rest) :: []).
    { cbn [matches]. destruct rest as [| c rest]; [reflexivity |].
      cbn in Hs. now rewrite Hs. }
    destruct (@cat_head _ _ _ _ _ _ _ _ _ H1 H2) as [tl H].
    rewrite append_empty_r in H.
    now exists tl.
  - rewrite append_assoc. cbn [append].
    assert (Hsd : starts_with is_digit (String sep (fp ++ rest)) = false)
      by exact (separator_no_digit _ Hsep).
    destruct (@some_head is_digit ip _ Hip Hne Hsd) as [tl1 H1].
    destruct (@some_head is_digit fp rest Hfp Hfne Hd) as [tl2 H2].
    assert (H3 : exists tl3,
               matches
                 (Opt (Cat (Chr is_separator)
                         (Cat (Chr is_digit) (Many is_digit))))
                 (String sep (fp ++ rest))
               = (String sep fp, rest) :: tl3).
    { cbn [matches] in H2 |- *. rewrite Hsep. cbn [flat_map fst snd].
      rewrite app_nil_r, H2. cbn [map app fst snd append]. eauto. }
    destruct H3 as [tl3 H3].
    destruct (@cat_head _ _ _ _ _ _ _ _ _ H1 H3) as [tl H]. now exists tl.
Qed.

Lemma match_group_head (group tail : regex) (s g rest : string)
    (tl : list (string * string)) :
  matches group s = (g, rest) :: tl -> matches tail rest <> [] ->
  match_group group tail s = Some g.
Proof.
  intros Hg Ht. unfold match_group. rewrite Hg. cbn [List.find snd].
  destruct (matches tail rest); [contradiction | reflexivity].
Qed.

Lemma search_skip (tail : regex) (pre s : string) :
  all_chars (fun c => negb (is_digit c)) pre = true ->
  search score_number tail (pre ++ s) = search score_number tail s.
Proof.
  induction pre as [| c pre IH]; [reflexivity |]. cbn [all_chars append].
  intros [Hc Hpre]%andb_true_iff. apply negb_true_iff in Hc.
  cbn [search]. unfold match_group, score_number at 1. cbn [matches].
  rewrite Hc. cbn [flat_map List.find option_map]. now apply IH.
Qed.

Lemma search_none (tail : regex) (s : string) :
  all_chars (fun c => negb (is_digit c)) s = true ->
  search score_number tail s = None.
Proof.
  intros H. rewrite <- (append_empty_r s), (@search_skip tail s "" H).
  reflexivity.
Qed.

Lemma search_finds (tail : regex) (pre g rest : string) :
  all_chars (fun c => negb (is_digit c)) pre = true ->
  score_text g ->
  starts_with is_digit rest = false ->
  starts_with is_separator rest = false ->
  matches tail rest <> [] ->
  search score_number tail (pre ++ g ++ rest) = Some g.
Proof.
  intros Hpre Hg Hd Hs Ht. rewrite (@search_skip tail pre _ Hpre).
  destruct (@score_number_head g rest Hg Hd Hs) as [tl H].
  pose proof (@match_group_head _ tail _ _ _ _ H Ht) as Hm.
  destruct (g ++ rest); cbn [search]; now rewrite Hm.
Qed.

Lemma space_char (c : ascii) :
  is_space c = true -> is_digit c = false /\ is_separator c = false.
Proof.
  destruct c as [[] [] [] [] [] [] [] []]; cbn; intros H;
    (discriminate H || (split; reflexivity)).
Qed.

Lemma stars_char (c x : ascii) :
  lower_char c = x -> In x ["s"; "/"]%char ->
  is_space c = false /\ is_digit c = false /\ is_separator c = false.
Proof.
  intros <- Hin.
  destruct c as [[] [] [] [] [] [] [] []]; cbn in Hin |- *;
    repeat split; try reflexivity;
    exfalso; intuition discriminate.
Qed.

Lemma starts_with_app (p : ascii -> bool) (ws w : string) :
  all_chars (fun c => negb (p c)) ws = true -> starts_with p w = false ->
  starts_with p (ws ++ w) = false.
Proof.
  destruct ws as [| c ws]; [trivial |]. cbn.
  now intros [->%negb_true_iff _]%andb_true_iff.
Qed.

Lemma not_space_chars (ws : string) :
  all_chars is_space ws = true ->
  all_chars (fun c => negb (is_digit c)) ws = true
  /\ all_chars (fun c => negb (is_separator c)) ws = true.
Proof.
  intros H. split; refine (all_chars_impl _ _ _ _ H); intros c Hc;
    destruct (space_char _ Hc) as [Hd Hs]; now rewrite ?Hd, ?Hs.
Qed.

Lemma literal_matches (w : string) :
  forall word post,
    lower word = lower w ->
    matches (literal true w) (word ++ post) = [(word, post)].
Proof.
  induction w as [| x w IH]; intros [| c word] post; try discriminate;
    [reflexivity |].
  cbn [lower]. intros [= Hc Hw]. cbn [literal matches append].
  rewrite Hc, Ascii.eqb_refl. cbn [flat_map fst snd].
  rewrite (IH _ _ Hw). reflexivity.
Qed.

Lemma stars_tail_matches (ws word post : string) :
  all_chars is_space ws = true -> lower word = "stars" ->
  matches stars_tail (ws ++ word ++ post) <> []
  /\ starts_with is_digit (ws ++ word ++ post) = false
  /\ starts_with is_separator (ws ++ word ++ post) = false.
Proof.
  intros Hws Hword.
  assert (Hc : starts_with is_space (word ++ post) = false
               /\ starts_with is_digit (word ++ post) = false
               /\ starts_with is_separator (word ++ post) = false).
  { destruct word as [| c word]; [discriminate |]. cbn [lower] in Hword.
    injection Hword as H1 _.
    exact (@stars_char c "s" H1 (or_introl eq_refl)). }
  destruct Hc as (Hsp & Hd & Hs).
  destruct (not_space_chars _ Hws) as [Wd Wsep].
  split; [| split].
  - destruct (@many_head is_space ws (word ++ post) Hws Hsp) as [tl Htl].
    unfold stars_tail. cbn [matches]. rewrite Htl.
    cbn [flat_map fst snd]. rewrite (@literal_matches "stars" word post Hword).
    discriminate.
  - now apply starts_with_app.
  - now apply starts_with_app.
Qed.

Lemma out_of_5_tail_matches (ws ws' post : string) :
  all_chars is_space ws = true -> all_chars is_space ws' = true ->
  matches out_of_5_tail (ws ++ "/" ++ ws' ++ "5" ++ post) <> []
  /\ starts_with is_digit (ws ++ "/" ++ ws' ++ "5" ++ post) = false
  /\ starts_with is_separator (ws ++ "/" ++ ws' ++ "5" ++ post) = false.
Proof.
  intros Hws Hws'. destruct (not_space_chars _ Hws) as [Wd Wsep].
  split; [| split].
  - destruct (@many_head is_space ws ("/" ++ ws' ++ "5" ++ post) Hws
                eq_refl) as [tl Htl].
    destruct (@many_head is_space ws' ("5" ++ post) Hws' eq_refl)
      as [tl' Htl'].
    unfold out_of_5_tail. cbn [matches]. rewrite Htl.
    cbn [flat_map map app fst snd append literal matches Ascii.eqb
           Bool.eqb].
    cbn [append] in Htl'. rewrite Htl'.
    cbn [flat_map map app fst snd append matches Ascii.eqb Bool.eqb].
    discriminate.
  - now apply starts_with_app.
  - now apply starts_with_app.
Qed.

(** X18.  The score that [scrape_royalroad] reads.  Where the label has,
    after text without a digit, a number (digits, or digits, a comma or a
    period, and digits), white space or none, and the word [stars] in any
    case, the score is that number, whatever [data-content] holds; and
    where the label has no digit, a number before [/ 5] in [data-content]
    is the score. *)
Theorem scrape_royalroad_score_reads (pre g ws post : string) :
  all_chars (fun c => negb (is_digit c)) pre = true ->
  score_text g ->
  all_chars is_space ws = true ->
  exists x,
    _clean_float g = Ok x
    /\ (forall word data_content,
          lower word = "stars" ->
          scrape_royalroad_score (pre ++ g ++ ws ++ word ++ post)
            data_content
          = Ok (Some x))
    /\ (forall aria ws',
          all_chars (fun c => negb (is_digit c)) aria = true ->
          all_chars is_space ws' = true ->
          scrape_royalroad_score aria
            (pre ++ g ++ ws ++ "/" ++ ws' ++ "5" ++ post)
          = Ok (Some x)).
Proof.
  intros Hpre Hg Hws.
  destruct (clean_float_score Hg) as (m & e & Hx & _).
  exists (float_of_decimal false m e). split; [exact Hx | split].
  - intros word data_content Hword. unfold scrape_royalroad_score.
    destruct (@stars_tail_matches ws word post Hws Hword) as (Ht & Hd & Hs).
    rewrite (@search_finds stars_tail pre g _ Hpre Hg Hd Hs Ht), Hx.
    reflexivity.
  - intros aria ws' Haria Hws'. unfold scrape_royalroad_score.
    rewrite (@search_none stars_tail aria Haria).
    destruct (@out_of_5_tail_matches ws ws' post Hws Hws') as (Ht & Hd & Hs).
    rewrite (@search_finds out_of_5_tail pre g _ Hpre Hg Hd Hs Ht), Hx.
    reflexivity.
Qed.

Lemma scrape_royalroad_score_reads_witness :
  exists x,
    _clean_float "4,5" = Ok x
    /\ (forall word data_content,
          lower word = "stars" ->
          scrape_royalroad_score ("Rating: " ++ "4,5" ++ " " ++ word ++ "!")
            data_content
          = Ok (Some x))
    /\ (forall aria ws',
          all_chars (fun c => negb (is_digit c)) aria = true ->
          all_chars is_space ws' = true ->
          scrape_royalroad_score aria
            ("Rating: " ++ "4,5" ++ " " ++ "/" ++ ws' ++ "5" ++ "!")
          = Ok (Some x)).
Proof.
  apply (@scrape_royalroad_score_reads "Rating: " "4,5" " " "!").
  - reflexivity.
  - exists "4", ",5". split; [reflexivity |]. split; [reflexivity |].
    split; [discriminate |]. right. exists ","%char, "5".
    split; [reflexivity |]. split; [reflexivity |].
    split; [reflexivity | discriminate].
  - reflexivity.
Defined.


(** ** Formatter: what is written, and what it tells apart *)

Lemma hundredths_nonneg (m : positive) (e : Z) : 0 <= hundredths m e.
Proof.
  unfold hundredths. apply half_even_nonneg.
  - assert (0 < 2 ^ Z.max e 0) by (apply Z.pow_pos_nonneg; lia). nia.
  - apply Z.pow_pos_nonneg; lia.
Qed.

Lemma format_rating_written (x : spec_float) :
  _format_rating x = written_rating (shown_of x).
Proof.
  destruct x as [s | s | | s m e]; try reflexivity;
    try (destruct s; reflexivity).
  unfold _format_rating. cbn [format_2f shown_of written_rating].
  rewrite strip_fixed2. do 2 f_equal. unfold decimals.
  pose proof (hundredths_nonneg m e) as Hk.
  set (k := hundredths m e) in *.
  assert (Hr : k mod 100 = 10 * (k / 10 mod 10) + k mod 10)
    by (Z.div_mod_to_equations; lia).
  assert (H1 : 0 <= k / 10 mod 10 < 10) by (apply Z.mod_pos_bound; lia).
  assert (H0 : 0 <= k mod 10 < 10) by (apply Z.mod_pos_bound; lia).
  rewrite Hr.
  replace ((10 * (k / 10 mod 10) + k mod 10) mod 10) with (k mod 10)
    by (Z.div_mod_to_equations; lia).
  replace ((10 * (k / 10 mod 10) + k mod 10) / 10) with (k / 10 mod 10)
    by (Z.div_mod_to_equations; lia).
  destruct (Z.eqb_spec (k mod 10) 0) as [E0 | E0];
    destruct (Z.eqb_spec (k / 10 mod 10) 0) as [E1 | E1];
    destruct (Z.eqb_spec (10 * (k / 10 mod 10) + k mod 10) 0) as [E2 | E2];
    try reflexivity; exfalso; lia.
Qed.

Lemma str_nonneg_head (n : Z) :
  exists c t, str_nonneg n = String c t /\ is_digit c = true.
Proof.
  pose proof (str_nonneg_digits n) as Hd.
  pose proof (@str_nonneg_nonempty n) as Hne.
  destruct (str_nonneg n) as [| c t]; [contradiction |].
  cbn in Hd. apply andb_true_iff in Hd as [Hc _]. now exists c, t.
Qed.

Lemma str_nonneg_inj (n n' : Z) :
  0 <= n -> 0 <= n' -> str_nonneg n = str_nonneg n' -> n = n'.
Proof.
  intros Hn Hn' E.
  pose proof (@str_nonneg_value n Hn 0) as V.
  pose proof (@str_nonneg_value n' Hn' 0) as V'.
  rewrite E in V. lia.
Qed.

Lemma digit_char_inj (d d' : Z) :
  0 <= d < 10 -> 0 <= d' < 10 -> digit_char d = digit_char d' -> d = d'.
Proof.
  intros Hd Hd' E.
  destruct (digit_char_digit Hd) as [_ V].
  destruct (digit_char_digit Hd') as [_ V']. rewrite E in V. lia.
Qed.

Lemma decimals_inj (r r' : Z) :
  0 <= r < 100 -> 0 <= r' < 100 -> decimals r = decimals r' -> r = r'.
Proof.
  intros Hr Hr'. unfold decimals.
  assert (A : 0 <= r / 10 < 10) by (Z.div_mod_to_equations; lia).
  assert (B : 0 <= r mod 10 < 10) by (Z.div_mod_to_equations; lia).
  assert (A' : 0 <= r' / 10 < 10) by (Z.div_mod_to_equations; lia).
  assert (B' : 0 <= r' mod 10 < 10) by (Z.div_mod_to_equations; lia).
  assert (E : r = 10 * (r / 10) + r mod 10)
    by (Z.div_mod_to_equations; lia).
  assert (E' : r' = 10 * (r' / 10) + r' mod 10)
    by (Z.div_mod_to_equations; lia).
  destruct (Z.eqb_spec r 0); destruct (Z.eqb_spec r' 0);
    destruct (Z.eqb_spec (r mod 10) 0); destruct (Z.eqb_spec (r' mod 10) 0);
    try discriminate; try lia.
  - intros [= H]. apply digit_char_inj in H; lia.
  - intros [= H1 H2]. apply digit_char_inj in H1, H2; lia.
Qed.

Lemma decimals_no_digit (r : Z) : starts_with is_digit (decimals r) = false.
Proof.
  unfold decimals. destruct (r =? 0); [reflexivity |].
  destruct (r mod 10 =? 0); reflexivity.
Qed.

Ltac digit_clash :=
  let E := fresh "E" in
  intros E; injection E as E; subst;
  match goal with
  | H : is_digit _ = true |- _ => vm_compute in H; discriminate H
  end.

(** A written rating tells what it shows. *)
Lemma written_rating_inj (v v' : shown) :
  match v with ShownHundredths _ k => 0 <= k | _ => True end ->
  match v' with ShownHundredths _ k => 0 <= k | _ => True end ->
  written_rating v = written_rating v' -> v = v'.
Proof.
  destruct v as [| s | s k], v' as [| s' | s' k']; intros Hk Hk';
    cbn [written_rating];
    try destruct (str_nonneg_head (k / 100)) as (c & t & Ec & Hc);
    try destruct (str_nonneg_head (k' / 100)) as (c' & t' & Ec' & Hc');
    rewrite ?Ec, ?Ec'.
  - reflexivity.
  - destruct s'; discriminate.
  - destruct s'; cbn; [discriminate | digit_clash].
  - destruct s; discriminate.
  - destruct s, s'; (discriminate || reflexivity).
  - destruct s, s'; cbn; try discriminate; digit_clash.
  - destruct s; cbn; [discriminate | digit_clash].
  - destruct s, s'; cbn; try discriminate; digit_clash.
  - intros E.
    assert (Hs : s = s'
                 /\ String c t ++ decimals (k mod 100)
                    = String c' t' ++ decimals (k' mod 100)).
    { destruct s, s'; cbn in E |- *.
      - split; [reflexivity | congruence].
      - revert E. digit_clash.
      - revert E. digit_clash.
      - now split. }
    destruct Hs as [<- E']. rewrite <- Ec, <- Ec' in E'.
    pose proof (span_digits_app (str_nonneg (k / 100)) (decimals (k mod 100))
                  (str_nonneg_digits _) (decimals_no_digit _)) as S.
    pose proof (span_digits_app (str_nonneg (k' / 100))
                  (decimals (k' mod 100))
                  (str_nonneg_digits _) (decimals_no_digit _)) as S'.
    rewrite E' in S. rewrite S' in S. injection S as Eq Er.
    apply str_nonneg_inj in Eq; [| Z.div_mod_to_equations; lia ..].
    apply decimals_inj in Er; [| Z.div_mod_to_equations; lia ..].
    f_equal. Z.div_mod_to_equations. lia.
Qed.

Lemma shown_of_nonneg (x : spec_float) :
  match shown_of x with ShownHundredths _ k => 0 <= k | _ => True end.
Proof.
  destruct x; cbn [shown_of]; try exact I; [lia |].
  apply hundredths_nonneg.
Qed.

(** X20.  What [_format_rating] writes: [nan], or the sign and [inf], or
    the sign, the whole part of the hundredths that the float rounds to,
    and their decimals, none for no hundredths and one for whole
    tenths. *)
Theorem format_rating_shape (x : spec_float) :
  _format_rating x = written_rating (shown_of x).
Proof. apply format_rating_written. Qed.

(** X21.  Two floats are written alike exactly when they have the same
    sign and round to the same hundredths (or are both [nan], or the same
    infinity): the texts that the reconciler compares differ where the
    ratings differ at two decimals, and nowhere else. *)
Theorem format_rating_tells_apart (x y : spec_float) :
  _format_rating x = _format_rating y <-> shown_of x = shown_of y.
Proof.
  rewrite !format_rating_written. split; [| now intros ->].
  apply written_rating_inj; apply shown_of_nonneg.
Qed.


(** ** Scrape Driver with the site extractors: the texts of the cache *)

Lemma scrape_goodreads_count (get_goodreads : json -> result goodreads_soup)
    (url : json) (rating : spec_float) (count : Z) :
  scrape_goodreads get_goodreads url = Ok (rating, count) ->
  0 <= count < 10 ^ max_str_digits.
Proof.
  unfold scrape_goodreads.
  destruct (get_goodreads url) as [soup |]; cbn [bind]; [| discriminate].
  destruct (match rating_div_text soup with
            | Some text => Some text
            | None => rating_div_like_text soup
            end) as [text |]; [| discriminate].
  destruct (_clean_float text); cbn [bind]; [| discriminate].
  destruct (count_span_text soup) as [count_text |]; [| discriminate].
  destruct (_clean_int count_text) as [n |] eqn:E; cbn [bind];
    [| discriminate].
  intros [= _ <-]. exact (clean_int_below _ E).
Qed.

Lemma scrape_royalroad_unsigned
    (get_royalroad : json -> result royalroad_soup)
    (url : json) (score : spec_float) (count : Z) :
  scrape_royalroad get_royalroad url = Ok (score, count) ->
  unsigned_float score = true /\ 0 <= count < 10 ^ max_str_digits.
Proof.
  unfold scrape_royalroad.
  destruct (get_royalroad url) as [soup |]; cbn [bind]; [| discriminate].
  destruct (select_score_span soup) as [[aria_label data] |];
    [| discriminate].
  destruct (scrape_royalroad_score_outcome (strip (or_empty aria_label))
              (strip (or_empty data))) as (score_value & -> & Hs).
  cbn [bind]. destruct score_value as [x |]; [| discriminate].
  pose proof (scrape_royalroad_count_outcome (styled_items soup)
                (all_items soup)) as Hc.
  destruct (scrape_royalroad_count _ _) as [n |]; cbn [bind];
    [| discriminate].
  intros [= <- <-]. split; [apply (Hs x eq_refl) | exact Hc].
Qed.

Lemma decimals_plain (r : Z) :
  0 <= r < 100 -> all_chars is_plain (decimals r) = true.
Proof.
  intros Hr. unfold decimals.
  assert (A : 0 <= r / 10 < 10) by (Z.div_mod_to_equations; lia).
  assert (B : 0 <= r mod 10 < 10) by (Z.div_mod_to_equations; lia).
  destruct (digit_char_digit A) as [Ha _].
  destruct (digit_char_digit B) as [Hb _].
  destruct (r =? 0); [reflexivity |].
  destruct (r mod 10 =? 0); cbn [all_chars]; unfold is_plain;
    rewrite ?Ha, ?Hb; reflexivity.
Qed.

Lemma format_rating_unsigned (x : spec_float) :
  unsigned_float x = true ->
  _format_rating x = "inf" \/ all_chars is_plain (_format_rating x) = true.
Proof.
  rewrite format_rating_written.
  destruct x as [[] | [] | | [] m e]; cbn [unsigned_float negb];
    try discriminate; intros _; [now right | now left |].
  right. cbn [shown_of written_rating sign_str append].
  rewrite all_chars_app. apply andb_true_iff. split.
  - refine (all_chars_impl _ _ _ _ (str_nonneg_digits _)).
    intros c Hc. unfold is_plain. now rewrite Hc.
  - apply decimals_plain. apply Z.mod_pos_bound. lia.
Qed.

(** X19.  The texts that a run puts into the cache, with the extractors
    as they are: the count of every entry is a run of digits, of at most
    the 4300 that [str] converts, and the rating of an entry that was not
    read from the first site is [inf] or made of digits and at most a
    period; no sign, no separator and no [nan] there. *)
Theorem scrape_targets_texts
    (get_goodreads : json -> result goodreads_soup)
    (get_royalroad : json -> result royalroad_soup)
    (targets : pydict string) (url : json) (rating_str count_str : string) :
  dict_wf targets = true ->
  In (url, (rating_str, count_str))
    (scrape_targets (scrape_goodreads get_goodreads)
       (scrape_royalroad get_royalroad) targets) ->
  all_chars is_digit count_str = true /\ count_str <> ""
  /\ Z.of_nat (String.length count_str) <= max_str_digits
  /\ exists source,
       In (url, source) targets
       /\ (source = "goodreads" \/ rating_str = "inf"
           \/ all_chars is_plain rating_str = true).
Proof.
  intros Hwf. unfold scrape_targets.
  rewrite scrape_loop_spec by (assumption || constructor).
  cbn [fst app]. intros ([u source] & Hin & He)%in_flat_map.
  unfold entries, outcome_at in He. cbn [fst snd] in He.
  destruct (String.eqb_spec source "goodreads") as [-> | Hs].
  - destruct (scrape_goodreads get_goodreads u) as [[rating count] |] eqn:E;
      cbn [entry_of] in He; [| destruct He].
    destruct He as [[= <- <- <-] | []].
    apply scrape_goodreads_count in E. unfold str_int.
    destruct (Z.ltb_spec count 0); [lia |].
    split; [apply str_nonneg_digits | split; [apply str_nonneg_nonempty |]].
    split; [now apply str_nonneg_within |].
    exists "goodreads". split; [assumption | now left].
  - destruct (scrape_royalroad get_royalroad u) as [[rating count] |] eqn:E;
      cbn [entry_of] in He; [| destruct He].
    destruct He as [[= <- <- <-] | []].
    apply scrape_royalroad_unsigned in E as [Hu Hc]. unfold str_int.
    destruct (Z.ltb_spec count 0); [lia |].
    split; [apply str_nonneg_digits | split; [apply str_nonneg_nonempty |]].
    split; [now apply str_nonneg_within |].
    exists source. split; [assumption | right].
    now apply format_rating_unsigned.
Qed.

Lemma scrape_targets_texts_witness :
  all_chars is_digit "217" = true /\ "217" <> ""
  /\ Z.of_nat (String.length "217") <= max_str_digits
  /\ exists source,
       In (JStr "https://rr.example/2", source) three_targets
       /\ (source = "goodreads" \/ "4.5" = "inf"
           \/ all_chars is_plain "4.5" = true).
Proof.
  apply (@scrape_targets_texts goodreads_fetched royalroad_fetched
           three_targets (JStr "https://rr.example/2") "4.5" "217").
  - reflexivity.
  - vm_compute. right. now left.
Defined.


(** ** Normalizers: the words that [float] reads *)

Lemma letter_char (c : ascii) :
  is_letter c = true ->
  is_space c = false /\ float_space c = false
  /\ Ascii.eqb c "," = false /\ Ascii.eqb c "_" = false
  /\ (Ascii.eqb c "-" || Ascii.eqb c "+") = false.
Proof.
  destruct c as [[] [] [] [] [] [] [] []]; vm_compute; intros H;
    (discriminate H || (repeat split; reflexivity)).
Qed.

Lemma lower_letters (word w : string) :
  lower word = w -> all_chars (fun c => (97 <=? code c) && (code c <=? 122)) w
                    = true ->
  all_chars is_letter word = true.
Proof.
  intros <-. induction word as [| c word IH]; [reflexivity |].
  cbn [lower all_chars]. intros [Hc Hw]%andb_true_iff.
  unfold is_letter at 1. now rewrite Hc, IH.
Qed.

Lemma sign_letters_unchanged (neg : bool) (word : string) :
  all_chars is_letter word = true -> word <> "" ->
  let t := sign_str neg ++ word in
  strip t = t /\ replace_char "," "." t = t
  /\ rstrip float_space (lstrip float_space t) = t
  /\ drop_underscores zero t = Some t
  /\ parse_sign t = (neg, word).
Proof.
  intros Hw Hne t.
  assert (H : forall p : ascii -> bool,
             (forall c, is_letter c = true -> p c = false) ->
             p "-"%char = false ->
             all_chars (fun c => negb (p c)) t = true).
  { intros p Hp Hm. unfold t. rewrite all_chars_app. apply andb_true_iff.
    split.
    - destruct neg; cbn; [now rewrite Hm | reflexivity].
    - refine (all_chars_impl _ _ _ _ Hw). intros c Hc. now rewrite Hp. }
  assert (Hs := H is_space (fun c Hc => proj1 (letter_char c Hc)) eq_refl).
  assert (Hf := H float_space
                  (fun c Hc => proj1 (proj2 (letter_char c Hc))) eq_refl).
  assert (Hk := H (fun c => Ascii.eqb c ",")
                  (fun c Hc => proj1 (proj2 (proj2 (letter_char c Hc))))
                  eq_refl).
  assert (Hu := H (fun c => Ascii.eqb c "_")
                  (fun c Hc =>
                     proj1 (proj2 (proj2 (proj2 (letter_char c Hc)))))
                  eq_refl).
  split; [| split; [| split; [| split]]].
  - unfold strip. now rewrite lstrip_none, rstrip_none.
  - now apply replace_char_none.
  - now rewrite lstrip_none, rstrip_none.
  - now apply drop_underscores_none.
  - apply parse_sign_str. destruct word as [| c word]; [contradiction |].
    cbn in Hw |- *. apply andb_true_iff in Hw as [Hc _].
    apply (letter_char c Hc).
Qed.

Lemma clean_float_word (l r word : string) (neg : bool) (x : spec_float) :
  all_chars is_space l = true -> all_chars is_space r = true ->
  all_chars is_letter word = true ->
  parse_inf_nan neg word = Some x ->
  _clean_float (l ++ sign_str neg ++ word ++ r) = Ok x.
Proof.
  intros Hl Hr Hw Hx.
  assert (Hne : word <> "") by (intros ->; discriminate Hx).
  destruct (@sign_letters_unchanged neg word Hw Hne)
    as (E1 & E2 & E3 & E4 & E5).
  unfold _clean_float.
  replace (l ++ sign_str neg ++ word ++ r)
    with (l ++ (sign_str neg ++ word) ++ r)
    by (f_equal; first [apply append_assoc | symmetry; apply append_assoc]).
  rewrite (@strip_around l (sign_str neg ++ word) r Hl Hr), E1, E2.
  unfold py_float.
  now rewrite E3, E4, E5, Hx.
Qed.

(** X22.  [_clean_float] reads more than decimals: the words [nan], [inf]
    and [infinity], in any letter case, after a minus sign or none and
    between white space, are read as the float that is no number and as
    the infinity of that sign; a rating text that is such a word is no
    parse error. *)
Theorem clean_float_words (l r word : string) (neg : bool) :
  all_chars is_space l = true -> all_chars is_space r = true ->
  (lower word = "nan" ->
   _clean_float (l ++ sign_str neg ++ word ++ r) = Ok S754_nan)
  /\ (lower word = "inf" \/ lower word = "infinity" ->
      _clean_float (l ++ sign_str neg ++ word ++ r)
      = Ok (S754_infinity neg)).
Proof.
  intros Hl Hr. split.
  - intros Hw. apply clean_float_word; try assumption.
    + exact (@lower_letters word _ Hw eq_refl).
    + unfold parse_inf_nan. now rewrite Hw.
  - intros [Hw | Hw]; apply clean_float_word; try assumption;
      try exact (@lower_letters word _ Hw eq_refl);
      unfold parse_inf_nan; now rewrite Hw.
Qed.

Lemma clean_float_words_witness :
  _clean_float (" " ++ sign_str true ++ "Infinity" ++ " ")
  = Ok (S754_infinity true).
Proof.
  apply (proj2 (@clean_float_words " " " " "Infinity" true eq_refl eq_refl)).
  now right.
Defined.


(** ** Scrape Driver: when the warning is printed *)

Lemma half_even_one (n : Z) : half_even n 1 = n.
Proof. apply half_even_unique; lia. Qed.

Lemma floor_log2_bounds (n d lo hi : Z) :
  0 < n -> 0 < d -> lo <= 0 <= hi ->
  d <= n * 2 ^ (- lo) -> n < d * 2 ^ hi ->
  lo <= floor_log2 n d < hi.
Proof.
  intros Hn Hd Hlh Hlo Hhi. pose proof (floor_log2_spec Hn Hd) as H.
  cbv zeta in H. set (l := floor_log2 n d) in *. clearbody l. split.
  - destruct (Z.le_gt_cases lo l) as [| Hlt]; [assumption | exfalso].
    replace (Z.max l 0) with 0 in H by lia.
    replace (Z.max (- l) 0) with (- l) in H by lia.
    change (2 ^ 0) with 1 in H.
    assert (E : 2 ^ (- l) = 2 ^ (- lo) * 2 ^ (lo - l)).
    { rewrite <- Z.pow_add_r by lia. f_equal. lia. }
    assert (Hp : 2 <= 2 ^ (lo - l)).
    { change 2 with (2 ^ 1) at 1. apply Z.pow_le_mono_r; lia. }
    assert (0 < 2 ^ (- lo)) by (apply Z.pow_pos_nonneg; lia).
    rewrite E in H. nia.
  - destruct (Z.lt_ge_cases l hi) as [| Hge]; [assumption | exfalso].
    replace (Z.max l 0) with l in H by lia.
    replace (Z.max (- l) 0) with 0 in H by lia.
    change (2 ^ 0) with 1 in H.
    assert (Hp : 2 ^ hi <= 2 ^ l) by (apply Z.pow_le_mono_r; lia).
    nia.
Qed.

(** What [nearest_float] gives where neither the smallest nor the largest
    floats are near. *)
Lemma nearest_float_normal (s : bool) (n d : Z) :
  0 < n -> 0 < d -> -1022 <= floor_log2 n d <= 1020 ->
  let e := floor_log2 n d - 52 in
  let N := n * 2 ^ Z.max (- e) 0 in
  let D := d * 2 ^ Z.max e 0 in
  2 ^ 52 * D <= N < 2 ^ 53 * D
  /\ 2 ^ 52 <= half_even N D <= 2 ^ 53
  /\ nearest_float s n d
     = (if half_even N D =? 2 ^ 53
        then S754_finite s (Z.to_pos (2 ^ 52)) (e + 1)
        else S754_finite s (Z.to_pos (half_even N D)) e).
Proof.
  intros Hn Hd Hl e N D.
  assert (Hb : 2 ^ 52 * D <= N < 2 ^ 53 * D).
  { pose proof (@floor_log2_shifted n d (Z.max (- e) 0) Hn Hd) as Hs.
    specialize (Hs ltac:(lia) ltac:(lia)).
    assert (E : 2 ^ (floor_log2 n d + Z.max (- e) 0)
                = 2 ^ 52 * 2 ^ Z.max e 0).
    { rewrite <- Z.pow_add_r by lia. f_equal. lia. }
    rewrite E in Hs. unfold N, D. change (2 ^ 53) with (2 * 2 ^ 52).
    nia. }
  assert (HD : 0 < D).
  { apply Z.mul_pos_pos; [assumption | apply Z.pow_pos_nonneg; lia]. }
  assert (Hh : 2 ^ 52 <= half_even N D <= 2 ^ 53).
  { split; [apply half_even_ge | apply half_even_le]; lia. }
  split; [exact Hb | split; [exact Hh |]].
  unfold nearest_float. cbv zeta.
  replace (Z.max (floor_log2 n d - 52) (-1074)) with e by (unfold e; lia).
  fold N D. set (h := half_even N D) in *. clearbody h.
  change (2 ^ 52) with 4503599627370496 in *.
  change (2 ^ 53) with 9007199254740992 in *.
  destruct (Z.eqb_spec h 0); [lia |].
  destruct (Z.eqb_spec h 9007199254740992).
  - destruct (Z.ltb_spec 971 (e + 1)); [unfold e in *; lia | reflexivity].
  - destruct (Z.ltb_spec 971 e); [unfold e in *; lia | reflexivity].
Qed.

(** An [int] below [2 ^ 53] is a float. *)
Lemma float_of_int_exact (n : Z) :
  0 < n < 2 ^ 53 ->
  exists m e,
    float_of_int n = S754_finite false m e
    /\ -52 <= e <= 0 /\ Zpos m = n * 2 ^ (- e).
Proof.
  intros Hn. unfold float_of_int.
  destruct (Z.eqb_spec n 0); [lia |].
  destruct (Z.ltb_spec n 0); [lia |]. rewrite Z.abs_eq by lia.
  assert (Hl : 0 <= floor_log2 n 1 < 53).
  { apply floor_log2_bounds; try lia; change (2 ^ (- 0)) with 1; lia. }
  destruct (@nearest_float_normal false n 1 ltac:(lia) ltac:(lia)
              ltac:(lia)) as (Hb & Hh & ->).
  cbv zeta in *. set (e := floor_log2 n 1 - 52) in *.
  assert (He : -52 <= e <= 0) by (unfold e; lia).
  replace (Z.max e 0) with 0 in * by lia.
  replace (Z.max (- e) 0) with (- e) in * by lia.
  change (1 * 2 ^ 0) with 1 in *. rewrite half_even_one in *.
  destruct (Z.eqb_spec (n * 2 ^ (- e)) (2 ^ 53)); [lia |].
  eexists _, e. split; [reflexivity | split; [assumption |]].
  rewrite Z2Pos.id; [reflexivity |].
  change (2 ^ 52) with 4503599627370496 in Hh. lia.
Qed.

Lemma three_tenths_value :
  three_tenths = S754_finite false 5404319552844595 (-54).
Proof. reflexivity. Qed.

(** The warning compares the failures with three tenths of the total. *)
Lemma many_failures_exact (total failures : Z) :
  0 < total < 2 ^ 50 ->
  many_failures total failures = true <-> 3 * total < 10 * failures.
Proof.
  intros HT. unfold many_failures.
  destruct (Z.ltb_spec 0 total); [| lia]. cbn [andb].
  destruct (@float_of_int_exact total) as (mT & eT & -> & HeT & HmT).
  { change (2 ^ 50) with 1125899906842624 in HT.
    change (2 ^ 53) with 9007199254740992. lia. }
  rewrite three_tenths_value. cbn [float_mul xorb].
  replace (Z.max (eT + -54) 0) with 0 by lia.
  replace (Z.max (- (eT + -54)) 0) with (54 + - eT) by lia.
  change (2 ^ 0) with 1. rewrite Z.mul_1_r, HmT.
  rewrite Z.pow_add_r by lia.
  set (M := 5404319552844595).
  set (a := 2 ^ (- eT)).
  assert (Ha : 0 < a) by (apply Z.pow_pos_nonneg; lia).
  set (n := total * a * M). set (d := 2 ^ 54 * a).
  assert (Hn : 0 < n) by (unfold n; nia).
  assert (Hd : 0 < d) by (unfold d; nia).
  assert (Hl : -2 <= floor_log2 n d < 49).
  { apply floor_log2_bounds; try lia; unfold n, d, M;
      change (2 ^ 50) with 1125899906842624 in HT;
      change (2 ^ 54) with 18014398509481984;
      change (2 ^ (- -2)) with 4;
      change (2 ^ 49) with 562949953421312; nia. }
  destruct (@nearest_float_normal false n d Hn Hd ltac:(lia))
    as (Hb & Hh & ->).
  cbv zeta in *. set (e := floor_log2 n d - 52) in *.
  assert (He : -54 <= e <= -4) by (unfold e; lia).
  replace (Z.max e 0) with 0 in * by lia.
  replace (Z.max (- e) 0) with (- e) in * by lia.
  change (2 ^ 0) with 1 in *. rewrite Z.mul_1_r in *.
  set (c := 2 ^ (- e)) in *.
  assert (Hc : 16 <= c).
  { change 16 with (2 ^ 4). apply Z.pow_le_mono_r; lia. }
  assert (Eh : half_even (n * c) d = half_even (total * M * c) (2 ^ 54)).
  { unfold n, d.
    replace (total * a * M * c) with (a * (total * M * c)) by ring.
    rewrite (Z.mul_comm (2 ^ 54) a). apply half_even_scale; lia. }
  assert (Hb' : 2 ^ 52 * 2 ^ 54 <= total * M * c < 2 ^ 53 * 2 ^ 54).
  { unfold n, d in Hb. nia. }
  rewrite Eh in *. clear Eh Hb.
  pose proof (@half_even_spec (total * M * c) (2 ^ 54) eq_refl) as Hs.
  set (h := half_even (total * M * c) (2 ^ 54)) in *. clearbody h.
  set (X := total * c) in *.
  assert (HX : total * M * c = M * X) by (unfold X; ring).
  rewrite HX in *.
  assert (Hgt : int_gt_float failures
                  (if h =? 2 ^ 53
                   then S754_finite false (Z.to_pos (2 ^ 52)) (e + 1)
                   else S754_finite false (Z.to_pos h) e)
                = (h <? failures * c)).
  { destruct (Z.eqb_spec h (2 ^ 53)) as [-> | Hne]; cbn [int_gt_float].
    - replace (Z.max (e + 1) 0) with 0 by lia.
      replace (Z.max (- (e + 1)) 0) with (- e - 1) by lia.
      assert (Ec : c = 2 * 2 ^ (- e - 1)).
      { unfold c. rewrite <- Z.pow_succ_r by lia. f_equal. lia. }
      change (Z.pos (Z.to_pos (2 ^ 52))) with 4503599627370496.
      change (2 ^ 53) with 9007199254740992. change (2 ^ 0) with 1.
      destruct (Z.ltb_spec (4503599627370496 * 1)
                  (failures * 2 ^ (- e - 1)));
        destruct (Z.ltb_spec 9007199254740992 (failures * c)); lia.
    - replace (Z.max e 0) with 0 by lia.
      replace (Z.max (- e) 0) with (- e) by lia. fold c.
      change (2 ^ 0) with 1. rewrite Z.mul_1_r, Z2Pos.id; [reflexivity |].
      change (2 ^ 52) with 4503599627370496 in Hh. lia. }
  rewrite Hgt. clear Hgt.
  set (Y := failures * c).
  change (2 ^ 52) with 4503599627370496 in *.
  change (2 ^ 53) with 9007199254740992 in *.
  change (2 ^ 54) with 18014398509481984 in *.
  unfold M in *.
  destruct (Z.ltb_spec h Y) as [Hlt | Hge]; split; try discriminate;
    try reflexivity; intros Hcmp.
  - (* the warning is printed: more than three tenths failed *)
    destruct (Z.lt_ge_cases (3 * total) (10 * failures)) as [| Hle];
      [assumption | exfalso].
    assert (HY : 10 * Y <= 3 * X) by (unfold Y, X; nia).
    clearbody X Y. lia.
  - (* no warning: at most three tenths failed *)
    exfalso.
    assert (HY : 3 * X + c <= 10 * Y) by (unfold Y, X; nia).
    clearbody X Y. lia.
Qed.

(** X23.  [scrape_targets] prints its warning exactly when more than
    three tenths of the targets failed: the product [total * 0.3] is
    rounded, and the float [0.3] is below three tenths, yet for every work
    list that a machine can hold the comparison comes out as that of
    [10 * failures] with [3 * total]; an empty work list gives no
    warning. *)
Theorem scrape_targets_warning
    (scrape_goodreads scrape_royalroad : json -> result (spec_float * Z))
    (targets : pydict string) :
  Z.of_nat (List.length targets) < 2 ^ 50 ->
  scrape_warns scrape_goodreads scrape_royalroad targets = true
  <-> 3 * Z.of_nat (List.length targets)
      < 10 * scrape_failures scrape_goodreads scrape_royalroad targets.
Proof.
  intros Hlen. unfold scrape_warns.
  destruct targets as [| t ts].
  - unfold scrape_failures. cbn. split; [discriminate | lia].
  - apply many_failures_exact. cbn [List.length] in *. lia.
Qed.

Lemma scrape_targets_warning_witness :
  scrape_warns goodreads_up royalroad_down three_targets = true.
Proof.
  apply scrape_targets_warning; [reflexivity |].
  change (scrape_failures goodreads_up royalroad_down three_targets) with 1.
  cbn. lia.
Defined.
